(** * InfiniDrive: chunked storage and reassembly engine

    A shallow embedding of the backend routes that split, place, record
    and reassemble file chunks ([backend/src/routes/files.ts], the v1
    single-request upload and [services/telegram.ts]), together with the
    properties the design document states about them. The routes that
    delete and update files, the bot routes ([routes/bots.ts]) and the
    sequential client of the browser extension are embedded as well,
    with the properties their code shows.

    Conventions.
    - JavaScript numbers that hold sizes, offsets and indices are [Z].
      A JavaScript number holds an integer exactly up to
      [MAX_SAFE_INTEGER]; the statements that parse or print a number
      taken from a request keep it within that bound.
    - Byte buffers ([Uint8Array], [ArrayBuffer]) are [list Byte.byte],
      and a string is the sequence of its bytes.
    - A table of the D1 database is the list of its rows in insertion
      order; a query is a filter (and a stable sort for ORDER BY).
    - A thrown [Error] is the [Throw] case of [Result], carrying the
      message, because the handlers branch on the message text.
    - The texts of the exceptions that the runtime and D1 raise are not
      in the repository; they are the members of [Platform]. *)

From Stdlib Require Import ZArith Lia Ascii.
From stdpp Require Import base numbers list strings gmap pretty sorting.

Set Warnings "-register-all".

Local Open Scope string_scope.
Local Open Scope list_scope.
Local Open Scope Z_scope.

(** ** JavaScript primitives *)

Module JS.

Abbreviation bytes := (list Byte.byte).

(** [Math.ceil(a / b)] for integers [a] and [b > 0]. *)
Definition ceil_div (a b : Z) : Z := - ((- a) / b).

(** The remainder operator [%]: the sign follows the dividend. *)
Definition rem (a b : Z) : Z := Z.rem a b.

(** [arr[i]] for an integer [i]: [undefined] out of range. *)
Definition index {A} (arr : list A) (i : Z) : option A :=
  if i <? 0 then None else arr !! Z.to_nat i.

(** Relative index of [TypedArray.prototype.slice]: negative counts
    from the end, everything is clamped to [0, len]. *)
Definition rel_index (len i : Z) : Z :=
  if i <? 0 then Z.max (len + i) 0 else Z.min i len.

(** [buf.slice(a, b)]. *)
Definition slice {A} (buf : list A) (a b : Z) : list A :=
  let len := Z.of_nat (length buf) in
  let k := rel_index len a in
  let final := rel_index len b in
  take (Z.to_nat (final - k)) (drop (Z.to_nat k) buf).

(** [dst.set(src, offset)]: a RangeError when [src] does not fit. *)
Definition typed_set {A} (dst src : list A) (offset : nat) : option (list A) :=
  if decide (offset + length src ≤ length dst)%nat
  then Some (take offset dst ++ src ++ drop (offset + length src) dst)
  else None.

(** [parts.reduce((sum, p) => sum + p.length, 0)]. *)
Definition total_length {A} (parts : list (list A)) : nat :=
  foldl (λ sum p, sum + length p)%nat 0%nat parts.

(** The copy loop [for (const p of parts) { combined.set(p, offset);
    offset += p.length }]. *)
Fixpoint copy_parts {A} (combined : list A) (offset : nat) (parts : list (list A))
  : option (list A) :=
  match parts with
  | [] => Some combined
  | p :: rest =>
      match typed_set combined p offset with
      | Some combined' => copy_parts combined' (offset + length p) rest
      | None => None
      end
  end.

(** "Combine chunks": allocate [new Uint8Array(totalLength)] (zero
    filled) and copy every part at its running offset. *)
Definition combine (parts : list bytes) : option bytes :=
  copy_parts (replicate (total_length parts) Byte.x00) 0 parts.

(** [s.includes(sub)]. *)
Fixpoint includes (s sub : string) : bool :=
  String.prefix sub s ||
  match s with
  | EmptyString => false
  | String _ s' => includes s' sub
  end.

(** [s.substring(0, n)]. *)
Definition substring0 (n : nat) (s : string) : string := String.substring 0 n s.

End JS.

Import JS.

(** ** Chunking *)

(** [CHUNK_SIZE = 20 * 1024 * 1024] in files.ts and in the v1 routes. *)
Definition CHUNK_SIZE : Z := 20 * 1024 * 1024.

(** [chunk_count = Math.ceil(file_size / CHUNK_SIZE)]. *)
Definition chunk_count_of (chunk_size file_size : Z) : Z :=
  ceil_div file_size chunk_size.

(** One turn of the split loop of the v1 upload (the web client runs the
    same three lines before it posts a chunk):
    [start = i * CHUNK_SIZE; end = Math.min(start + CHUNK_SIZE, file_size);
     chunkBuffer = buffer.slice(start, end)]. *)
Definition chunk_at (chunk_size : Z) (buffer : bytes) (i : Z) : bytes :=
  let file_size := Z.of_nat (length buffer) in
  let start := i * chunk_size in
  let end_ := Z.min (start + chunk_size) file_size in
  slice buffer start end_.

(** [for (let i = 0; i < chunk_count; i++)], with the loop counter made
    explicit: [n] turns are left and the next index is [i]. *)
Fixpoint split_loop (chunk_size : Z) (buffer : bytes) (i : Z) (n : nat) : list bytes :=
  match n with
  | O => []
  | S n' => chunk_at chunk_size buffer i :: split_loop chunk_size buffer (i + 1) n'
  end.

Definition split_chunks (chunk_size : Z) (buffer : bytes) : list bytes :=
  let file_size := Z.of_nat (length buffer) in
  split_loop chunk_size buffer 0 (Z.to_nat (chunk_count_of chunk_size file_size)).

(** ** Errors and responses *)

(** The outcome of an [async] call: a value, or a thrown [Error] with
    its message. *)
Inductive Result (A : Type) : Type :=
  | Ok (a : A)
  | Throw (message : string).
Arguments Ok {A} a.
Arguments Throw {A} message.

Inductive Json : Type :=
  | JNull
  | JBool (b : bool)
  | JNum (n : Z)
  | JStr (s : string)
  | JArr (items : list Json)
  | JObj (fields : list (string * Json)).

Inductive Body : Type :=
  | BJson (j : Json)
  | BBytes (b : bytes).

Record Response := {
  status : Z;
  headers : list (string * string);
  body : Body;
}.

(** [c.json(obj, status)]. *)
Definition json (status : Z) (fields : list (string * Json)) : Response :=
  {| status := status;
     headers := [("Content-Type", "application/json")];
     body := BJson (JObj fields) |}.

Definition quote : string := String "034"%char "".

(** ** The platform

    The runtime and D1 raise exceptions whose texts are not in the
    repository. A handler that passes such a text on in its reply
    takes it from here. *)

(** An exception as a [catch] block reads it: [error.message] and
    [error.stack]. *)
Record Thrown := {
  e_message : string;
  e_stack : string;
}.

Class Platform := {
  (** D1, for a row that the PRIMARY KEY or a UNIQUE constraint on the
      named columns refuses. *)
  unique_failed : string → string;
  (** D1, for a row that a foreign key refuses. *)
  foreign_key_failed : string;
  (** [new Response] at the given line of files.ts, for a header value
      it does not accept. *)
  invalid_header_value : Z → Thrown;
  (** [TypedArray.prototype.set] at the given line of files.ts, for a
      source that does not fit. *)
  offset_out_of_bounds : Z → Thrown;
  (** Reading the named property of [undefined]. *)
  undefined_property : string → string;
}.

(** ** Header values

    [new Response(body, { headers })] fills a [Headers] object. Each
    value first loses its leading and trailing HTTP white space (tab,
    line feed, carriage return, space); a value that then holds a NUL,
    a line feed or a carriage return is refused with a TypeError. *)

Definition is_http_whitespace (a : Ascii.ascii) : bool :=
  bool_decide (Ascii.nat_of_ascii a ∈ [9; 10; 13; 32]%nat).

Definition is_forbidden (a : Ascii.ascii) : bool :=
  bool_decide (Ascii.nat_of_ascii a ∈ [0; 10; 13]%nat).

Fixpoint strip_leading (v : string) : string :=
  match v with
  | String a v' => if is_http_whitespace a then strip_leading v' else v
  | EmptyString => EmptyString
  end.

Fixpoint strip_trailing (v : string) : string :=
  match v with
  | String a v' =>
      match strip_trailing v' with
      | EmptyString => if is_http_whitespace a then EmptyString else String a EmptyString
      | rest => String a rest
      end
  | EmptyString => EmptyString
  end.

Definition normalize (v : string) : string := strip_trailing (strip_leading v).

Fixpoint forbidden_free (v : string) : bool :=
  match v with
  | String a v' => negb (is_forbidden a) && forbidden_free v'
  | EmptyString => true
  end.

(** The headers of an init object as [Headers] keeps them; [None] is
    the TypeError. *)
Fixpoint new_Headers (init : list (string * string)) : option (list (string * string)) :=
  match init with
  | [] => Some []
  | (name, value) :: rest =>
      let value' := normalize value in
      if forbidden_free value'
      then match new_Headers rest with
           | Some hs => Some ((name, value') :: hs)
           | None => None
           end
      else None
  end.

(** [new Response(body, { status, headers })]. *)
Definition new_Response (status : Z) (init : list (string * string)) (body : Body)
  : option Response :=
  match new_Headers init with
  | Some hs => Some {| status := status; headers := hs; body := body |}
  | None => None
  end.

(** ** The database (schema.sql) *)

Inductive Health := healthy | rate_limited | banned | unknown.

Global Instance Health_eq_dec : EqDecision Health.
Proof. solve_decision. Defined.

(** A row of [bots]. *)
Record Bot := {
  b_bot_id : string;
  b_user_id : string;
  b_bot_token_enc : string;
  b_channel_id : option string;
  b_is_active : bool;
  b_last_health_check : option Z;
  b_health_status : Health;
}.

(** A row of [folders] (migration 0002). *)
Record Folder := {
  d_folder_id : string;
  d_user_id : string;
  d_folder_path : string;
}.

(** A row of [files]. *)
Record FileRow := {
  f_file_id : string;
  f_user_id : string;
  f_device_id : option string;
  f_folder_id : option string;
  f_file_name : string;
  f_file_path : string;
  f_file_size : Z;
  f_mime_type : option string;
  f_file_hash : string;
  f_chunk_count : Z;
  f_is_public : bool;
  f_public_title : option string;
  f_public_category : option string;
  f_is_deleted : bool;
  f_created_at : Z;
  f_updated_at : Z;
}.

(** A row of [chunks]. *)
Record ChunkRow := {
  c_chunk_id : string;
  c_file_id : string;
  c_chunk_index : Z;
  c_chunk_size : Z;
  c_chunk_hash : string;
  c_bot_id : string;
  c_telegram_message_id : Z;
  c_telegram_file_id : string;
  c_channel_id : string;
  c_created_at : Z;
}.

(** The tables; of [devices] the routes here need the [device_id]
    column only, as the target of [files.device_id]. *)
Record DB := {
  bots : list Bot;
  folders : list Folder;
  files : list FileRow;
  chunks : list ChunkRow;
  devices : list string;
}.

Definition with_files (db : DB) (fs : list FileRow) : DB :=
  {| bots := bots db; folders := folders db; files := fs; chunks := chunks db;
     devices := devices db |}.

Definition with_chunks (db : DB) (cs : list ChunkRow) : DB :=
  {| bots := bots db; folders := folders db; files := files db; chunks := cs;
     devices := devices db |}.

(** [.first()]: the first row of a result, or [null]. *)
Definition first {A} (rows : list A) : option A := head rows.

(** Stable insertion sort, for ORDER BY. *)
Section OrderBy.
Context {A : Type} (le : A → A → bool).

Fixpoint insert_sorted (x : A) (l : list A) : list A :=
  match l with
  | [] => [x]
  | y :: l' => if le x y then x :: l else y :: insert_sorted x l'
  end.

Definition order_by (l : list A) : list A := foldr insert_sorted [] l.
End OrderBy.

(** [ORDER BY last_health_check DESC]: SQLite puts NULL last. *)
Definition health_check_desc (a b : Bot) : bool :=
  match b_last_health_check a, b_last_health_check b with
  | Some x, Some y => y <=? x
  | Some _, None => true
  | None, Some _ => false
  | None, None => true
  end.

(** [SELECT bot_id, bot_token_enc, channel_id FROM bots
     WHERE user_id = ? AND is_active = 1 AND health_status = 'healthy'
     ORDER BY last_health_check DESC]. *)
Definition healthy_bots (db : DB) (user_id : string) : list Bot :=
  order_by health_check_desc
    (filter (λ b, b_user_id b = user_id ∧ b_is_active b = true
                  ∧ b_health_status b = healthy) (bots db)).

(** [SELECT file_id, chunk_count FROM files WHERE file_id = ? AND user_id = ?]. *)
Definition file_of_user (db : DB) (file_id user_id : string) : option FileRow :=
  first (filter (λ f, f_file_id f = file_id ∧ f_user_id f = user_id) (files db)).

(** [SELECT ... FROM files WHERE file_id = ? AND user_id = ? AND is_deleted = 0]. *)
Definition live_file_of_user (db : DB) (file_id user_id : string) : option FileRow :=
  first (filter (λ f, f_file_id f = file_id ∧ f_user_id f = user_id
                      ∧ f_is_deleted f = false) (files db)).

(** [SELECT file_id FROM files WHERE user_id = ? AND file_hash = ? AND is_deleted = 0]. *)
Definition file_by_hash (db : DB) (user_id file_hash : string) : option FileRow :=
  first (filter (λ f, f_user_id f = user_id ∧ f_file_hash f = file_hash
                      ∧ f_is_deleted f = false) (files db)).

(** [SELECT folder_id (folder_path) FROM folders WHERE folder_id = ? AND user_id = ?]. *)
Definition folder_of_user (db : DB) (folder_id user_id : string) : option Folder :=
  first (filter (λ d, d_folder_id d = folder_id ∧ d_user_id d = user_id) (folders db)).

(** [SELECT COUNT( * ) as count FROM chunks WHERE file_id = ?]. *)
Definition count_chunks (db : DB) (file_id : string) : Z :=
  Z.of_nat (length (filter (λ c, c_file_id c = file_id) (chunks db))).

(** A nullable column that REFERENCES the keys of another table. *)
Definition references (value : option string) (keys : list string) : bool :=
  match value with
  | Some key => bool_decide (key ∈ keys)
  | None => true
  end.

(** [INSERT INTO files]: [file_id] is the PRIMARY KEY and [device_id]
    REFERENCES [devices]; D1 enforces foreign keys. ([user_id] and
    [folder_id] reference [users] and [folders]. Both handlers that
    insert a file have by then read a bot of the user, whose own
    [user_id] references [users] with ON DELETE CASCADE, and have
    looked the folder up, so these two rows exist.) *)
Definition insert_file {pf : Platform} (db : DB) (f : FileRow) : Result DB :=
  if bool_decide (f_file_id f ∈ f_file_id <$> files db)
  then Throw (unique_failed "files.file_id")
  else if references (f_device_id f) (devices db)
  then Ok (with_files db (files db ++ [f]))
  else Throw foreign_key_failed.

(** [INSERT INTO chunks]: [(file_id, chunk_index)] is UNIQUE and
    [chunk_id] is the PRIMARY KEY. ([file_id] and [bot_id] reference
    rows that the handler has just read.) *)
Definition insert_chunk {pf : Platform} (db : DB) (c : ChunkRow) : Result DB :=
  if bool_decide ((c_file_id c, c_chunk_index c)
                  ∈ (λ r, (c_file_id r, c_chunk_index r)) <$> chunks db)
  then Throw (unique_failed "chunks.file_id, chunks.chunk_index")
  else if bool_decide (c_chunk_id c ∈ c_chunk_id <$> chunks db)
  then Throw (unique_failed "chunks.chunk_id")
  else Ok (with_chunks db (chunks db ++ [c])).

Definition set_updated_at (now : Z) (f : FileRow) : FileRow :=
  {| f_file_id := f_file_id f; f_user_id := f_user_id f; f_device_id := f_device_id f;
     f_folder_id := f_folder_id f; f_file_name := f_file_name f;
     f_file_path := f_file_path f; f_file_size := f_file_size f;
     f_mime_type := f_mime_type f; f_file_hash := f_file_hash f;
     f_chunk_count := f_chunk_count f; f_is_public := f_is_public f;
     f_public_title := f_public_title f; f_public_category := f_public_category f;
     f_is_deleted := f_is_deleted f; f_created_at := f_created_at f;
     f_updated_at := now |}.

(** [UPDATE files SET updated_at = ? WHERE file_id = ?]. *)
Definition touch_file (db : DB) (file_id : string) (now : Z) : DB :=
  with_files db
    ((λ f, if decide (f_file_id f = file_id) then set_updated_at now f else f)
       <$> files db).

Definition set_telegram_file_id (fid : string) (c : ChunkRow) : ChunkRow :=
  {| c_chunk_id := c_chunk_id c; c_file_id := c_file_id c;
     c_chunk_index := c_chunk_index c; c_chunk_size := c_chunk_size c;
     c_chunk_hash := c_chunk_hash c; c_bot_id := c_bot_id c;
     c_telegram_message_id := c_telegram_message_id c;
     c_telegram_file_id := fid; c_channel_id := c_channel_id c;
     c_created_at := c_created_at c |}.

(** [UPDATE chunks SET telegram_file_id = ? WHERE chunk_id = ?]. *)
Definition update_chunk_file_id (db : DB) (chunk_id fid : string) : DB :=
  with_chunks db
    ((λ c, if decide (c_chunk_id c = chunk_id) then set_telegram_file_id fid c else c)
       <$> chunks db).

(** ** The Bot API behind [services/telegram.ts]

    The remote side is not part of the repository. It is modelled as an
    in-memory store that answers the five methods the service calls and
    the file download endpoint: accounts by token, chats, stored files
    by [file_id], messages by [(chat_id, message_id)]. A reference that
    the remote side no longer resolves is simply absent from the store. *)

Record TelegramUser := {
  u_id : Z;
  u_is_bot : bool;
  u_first_name : string;
  u_username : option string;
}.

Record TelegramFile := {
  tf_file_id : string;
  tf_file_path : option string;
}.

Record TelegramMessage := {
  m_message_id : Z;
  m_document : option string;   (* [document.file_id] *)
}.

(** What the remote side holds for a [file_id]: whether [getFile]
    reports a [file_path], and what the download endpoint serves. *)
Record Stored := {
  st_has_path : bool;
  st_content : option bytes;
}.

Record Telegram := {
  tg_users : gmap string TelegramUser;
  tg_chats : list string;
  tg_files : gmap string Stored;
  tg_messages : gmap (string * Z) (option bytes);
  tg_next : Z;
}.

Module Service.

(** The body Telegram sends with a failed call. *)
Definition error_text (code : Z) (description : string) : string :=
  "{" +:+ quote +:+ "ok" +:+ quote +:+ ":false," +:+ quote +:+ "error_code" +:+ quote
  +:+ ":" +:+ pretty code +:+ "," +:+ quote +:+ "description" +:+ quote +:+ ":"
  +:+ quote +:+ description +:+ quote +:+ "}".

(** [throw new Error(`Telegram API error: ${response.status} - ${errorText}`)]. *)
Definition api_error {A} (code : Z) (description : string) : Result A :=
  Throw ("Telegram API error: " +:+ pretty code +:+ " - " +:+ error_text code description).

(** [telegramRequest(token, 'getMe')]. *)
Definition getMe (tg : Telegram) (token : string) : Result TelegramUser :=
  match tg_users tg !! token with
  | Some u => Ok u
  | None => api_error 401 "Unauthorized"
  end.

(** [telegramRequest(token, 'getFile', { file_id })]. *)
Definition api_getFile (tg : Telegram) (token fileId : string) : Result TelegramFile :=
  match tg_users tg !! token with
  | None => api_error 401 "Unauthorized"
  | Some _ =>
      match tg_files tg !! fileId with
      | Some st => Ok {| tf_file_id := fileId;
                         tf_file_path := if st_has_path st then Some fileId else None |}
      | None => api_error 400 "Bad Request: wrong file_id or the file is temporarily unavailable"
      end
  end.

(** [telegramRequest(token, 'getChat', { chat_id })]. *)
Definition api_getChat (tg : Telegram) (token chat : string) : Result unit :=
  match tg_users tg !! token with
  | None => api_error 401 "Unauthorized"
  | Some _ =>
      if bool_decide (chat ∈ tg_chats tg) then Ok ()
      else api_error 400 "Bad Request: chat not found"
  end.

Definition fresh_file_id (tg : Telegram) : string := "BQAC" +:+ pretty (tg_next tg).

(** A new message holding [content] is appended to [chat]. *)
Definition post (tg : Telegram) (chat : string) (content : option bytes)
  : TelegramMessage * Telegram :=
  let fid := fresh_file_id tg in
  ({| m_message_id := tg_next tg;
      m_document := match content with Some _ => Some fid | None => None end |},
   {| tg_users := tg_users tg;
      tg_chats := tg_chats tg;
      tg_files := match content with
                  | Some data => <[fid := {| st_has_path := true; st_content := Some data |}]>
                                   (tg_files tg)
                  | None => tg_files tg
                  end;
      tg_messages := <[(chat, tg_next tg) := content]> (tg_messages tg);
      tg_next := tg_next tg + 1 |}).

(** [telegramRequest(token, 'sendDocument', formData)]. *)
Definition api_sendDocument (tg : Telegram) (token chat : string) (data : bytes)
  : Result TelegramMessage * Telegram :=
  match tg_users tg !! token with
  | None => (api_error 401 "Unauthorized", tg)
  | Some _ =>
      if bool_decide (chat ∈ tg_chats tg)
      then let '(m, tg') := post tg chat (Some data) in (Ok m, tg')
      else (api_error 400 "Bad Request: chat not found", tg)
  end.

(** [telegramRequest(token, 'forwardMessage', { chat_id, from_chat_id, message_id })]. *)
Definition api_forwardMessage (tg : Telegram) (token chat from_chat : string)
    (message_id : Z) : Result TelegramMessage * Telegram :=
  match tg_users tg !! token with
  | None => (api_error 401 "Unauthorized", tg)
  | Some _ =>
      if bool_decide (chat ∈ tg_chats tg)
      then match tg_messages tg !! (from_chat, message_id) with
           | Some content => let '(m, tg') := post tg chat content in (Ok m, tg')
           | None => (api_error 400 "Bad Request: message to forward not found", tg)
           end
      else (api_error 400 "Bad Request: chat not found", tg)
  end.

(** [fetch(getFileUrl(token, file_path))]: the body, or the status,
    status text and error text of a failed response. *)
Definition fetch_file (tg : Telegram) (token path : string)
  : bytes + (Z * string * string) :=
  match tg_files tg !! path with
  | Some {| st_content := Some data |} => inl data
  | _ => inr (404, "Not Found", "Not Found")
  end.

(** [validateBotToken]. *)
Definition validateBotToken (tg : Telegram) (token : string) : Result TelegramUser :=
  let attempt :=
    match getMe tg token with
    | Ok user => if u_is_bot user then Ok user
                 else Throw "Token does not belong to a bot"
    | Throw m => Throw m
    end in
  match attempt with
  | Ok user => Ok user
  | Throw m => Throw ("Invalid bot token: " +:+ m)
  end.

(** [getBotInfo]: id, username (or the empty string) and first name. *)
Definition getBotInfo (tg : Telegram) (token : string) : Result (Z * string * string) :=
  match validateBotToken tg token with
  | Ok user => Ok (u_id user, default "" (u_username user), u_first_name user)
  | Throw m => Throw m
  end.

(** [sendDocument]. *)
Definition sendDocument (tg : Telegram) (botToken channelId : string) (fileBuffer : bytes)
  : Result (Z * string) * Telegram :=
  match api_sendDocument tg botToken channelId fileBuffer with
  | (Ok message, tg') =>
      match m_document message with
      | Some fid => (Ok (m_message_id message, fid), tg')
      | None => (Throw "No document in Telegram response", tg')
      end
  | (Throw m, tg') => (Throw m, tg')
  end.

(** [getFile]: logs and rethrows. *)
Definition getFile (tg : Telegram) (botToken fileId : string) : Result TelegramFile :=
  api_getFile tg botToken fileId.

(** [getFileFromMessage]: every failure becomes [null]. *)
Definition getFileFromMessage (tg : Telegram) (botToken channelId : string) (messageId : Z)
  : option TelegramFile * Telegram :=
  match api_getChat tg botToken channelId with
  | Throw _ => (None, tg)
  | Ok _ =>
      match api_forwardMessage tg botToken channelId channelId messageId with
      | (Throw _, tg') => (None, tg')
      | (Ok forwarded, tg') =>
          match m_document forwarded with
          | Some fid =>
              match getFile tg' botToken fid with
              | Ok f => (Some f, tg')
              | Throw _ => (None, tg')
              end
          | None => (None, tg')
          end
      end
  end.

(** The [try] block of [downloadFile]. *)
Definition downloadFile_try (tg : Telegram) (botToken fileId : string) : Result bytes :=
  match getFile tg botToken fileId with
  | Throw m => Throw m
  | Ok file =>
      match tf_file_path file with
      | None | Some "" => Throw "File path not available from Telegram"
      | Some path =>
          match fetch_file tg botToken path with
          | inl data => Ok data
          | inr (code, status_text, error_text) =>
              Throw ("Failed to download file from Telegram: " +:+ pretty code +:+ " "
                     +:+ status_text +:+ " - " +:+ error_text)
          end
      end
  end.

(** [downloadFile]: the [catch] block rewrites the message. *)
Definition downloadFile (tg : Telegram) (botToken fileId : string) : Result bytes :=
  match downloadFile_try tg botToken fileId with
  | Ok data => Ok data
  | Throw m =>
      if includes m "Telegram API error" then
        if includes m "404" || includes m "file not found"
           || includes m "Bad Request" || includes m "400"
        then Throw ("Telegram file not found. The file may have been deleted or the "
                    +:+ "file_id is invalid. File ID: " +:+ substring0 20 fileId +:+ "...")
        else Throw m
      else Throw ("Failed to download file: " +:+ m)
  end.

End Service.

(** ** Upload routes (files.ts) *)

(** JavaScript truthiness of an optional string: [undefined], [null]
    and the empty string are falsy. *)
Definition truthy (o : option string) : option string :=
  match o with
  | Some "" => None
  | _ => o
  end.

Definition json_opt (o : option string) : Json :=
  match o with Some s => JStr s | None => JNull end.

(** Body of [POST /upload/init]. *)
Record InitRequest := {
  i_file_name : string;
  i_file_size : Z;
  i_mime_type : option string;
  i_file_hash : string;
  i_device_id : option string;
  i_file_path : option string;
  i_folder_id : option string;
  i_is_public : bool;
  i_public_title : option string;
  i_public_category : option string;
}.

(** Body of [POST /upload/chunk]; [chunk_data] is the base64 text. *)
Record ChunkRequest := {
  q_file_id : string;
  q_chunk_index : option Z;
  q_chunk_data : string;
  q_chunk_hash : string;
}.

(** What a handler reads from its surroundings: [Date.now()] and the
    text [Math.random().toString(36).substring(2, 15)]. *)
Record Env := {
  date_now : Z;
  random_text : string;
}.

(** The greatest length of an array: [new Array(n)], and with it
    [Array.from({ length: n })], raises a RangeError for a greater [n]. *)
Definition MAX_ARRAY_LENGTH : Z := 2 ^ 32 - 1.

Section Routes.
Context {pf : Platform}.
(** [CHUNK_SIZE]; kept a parameter so that small instances can run. *)
Variable chunk_size : Z.
(** [Uint8Array.from(atob(s), c => c.charCodeAt(0))]: the decoded
    bytes, or the exception of [atob]. *)
Variable atob : string → Result bytes.

(** The entries of [Array.from({ length: chunk_count }, (_, i) =>
    ({ chunk_index: i, bot_id: bots[i % bots.length].bot_id }))], for a
    [chunk_count] that is an array length; [upload_init] has the
    RangeError of a greater one. *)
Definition bot_assignments (pool : list Bot) (chunk_count : Z) : list Json :=
  (λ i : nat,
     JObj [("chunk_index", JNum (Z.of_nat i));
           ("bot_id", match index pool (rem (Z.of_nat i) (Z.of_nat (length pool))) with
                      | Some b => JStr (b_bot_id b)
                      | None => JNull
                      end)])
  <$> seq 0 (Z.to_nat chunk_count).

Definition upload_init (db : DB) (user_id : string) (req : InitRequest) (env : Env)
  : Response * DB :=
  if bool_decide (i_file_name req = "" ∨ i_file_size req = 0 ∨ i_file_hash req = "")
  then (json 400 [("error", JStr "file_name, file_size, and file_hash required")], db)
  else
  match file_by_hash db user_id (i_file_hash req) with
  | Some existing =>
      (json 409 [("error", JStr "File already exists");
                 ("file_id", JStr (f_file_id existing));
                 ("duplicate", JBool true)], db)
  | None =>
  let chunk_count := chunk_count_of chunk_size (i_file_size req) in
  let pool := healthy_bots db user_id in
  if bool_decide (pool = [])
  then (json 400 [("error", JStr "No active bots found. Please add a bot first.")], db)
  else
  let folder :=
    match truthy (i_folder_id req) with
    | Some fid => Some (folder_of_user db fid user_id)
    | None => None
    end in
  match folder with
  | Some None => (json 404 [("error", JStr "Folder not found")], db)
  | _ =>
  let final_file_path :=
    match folder with
    | Some (Some d) => d_folder_path d +:+ "/" +:+ i_file_name req
    | _ => default ("/" +:+ i_file_name req) (truthy (i_file_path req))
    end in
  let file_id := "file_" +:+ pretty (date_now env) +:+ "_" +:+ random_text env in
  let now := date_now env `div` 1000 in
  let row :=
    {| f_file_id := file_id; f_user_id := user_id;
       f_device_id := truthy (i_device_id req);
       f_folder_id := truthy (i_folder_id req);
       f_file_name := i_file_name req; f_file_path := final_file_path;
       f_file_size := i_file_size req; f_mime_type := truthy (i_mime_type req);
       f_file_hash := i_file_hash req; f_chunk_count := chunk_count;
       f_is_public := i_is_public req;
       f_public_title := truthy (i_public_title req);
       f_public_category := truthy (i_public_category req);
       f_is_deleted := false; f_created_at := now; f_updated_at := now |} in
  match insert_file db row with
  | Throw _ => (json 500 [("error", JStr "Failed to initialize upload")], db)
  | Ok db' =>
      (* the row is written; [Array.from] comes after it *)
      if MAX_ARRAY_LENGTH <? chunk_count
      then (json 500 [("error", JStr "Failed to initialize upload")], db')
      else
      (json 200 [("file_id", JStr file_id);
                 ("chunk_count", JNum chunk_count);
                 ("chunk_size", JNum chunk_size);
                 ("bot_assignments", JArr (bot_assignments pool chunk_count))], db')
  end
  end
  end.

(** The bot of a chunk: [bots.results[chunk_index % bots.results.length]]. *)
Definition select_bot (pool : list Bot) (chunk_index : Z) : option Bot :=
  index pool (rem chunk_index (Z.of_nat (length pool))).

Definition chunk_id_of (file_id : string) (chunk_index : Z) : string :=
  "chunk_" +:+ file_id +:+ "_" +:+ pretty chunk_index.

Definition upload_chunk_failed (message : string) : Response :=
  json 500 [("error", JStr "Failed to upload chunk"); ("message", JStr message)].

Definition upload_chunk (db : DB) (tg : Telegram) (user_id : string)
    (req : ChunkRequest) (env : Env) : Response * DB * Telegram :=
  match q_chunk_index req with
  | None =>
      (json 400 [("error", JStr "file_id, chunk_index, chunk_data, and chunk_hash required")],
       db, tg)
  | Some chunk_index =>
  if bool_decide (q_file_id req = "" ∨ q_chunk_data req = "" ∨ q_chunk_hash req = "")
  then (json 400 [("error", JStr "file_id, chunk_index, chunk_data, and chunk_hash required")],
        db, tg)
  else
  match file_of_user db (q_file_id req) user_id with
  | None => (json 404 [("error", JStr "File not found")], db, tg)
  | Some file =>
  if f_chunk_count file <=? chunk_index
  then (json 400 [("error", JStr "Invalid chunk_index")], db, tg)
  else
  let pool := healthy_bots db user_id in
  if bool_decide (pool = [])
  then (json 400 [("error", JStr "No active bots found")], db, tg)
  else
  match select_bot pool chunk_index with
  | None => (upload_chunk_failed (undefined_property "channel_id"), db, tg)
  | Some selectedBot =>
  match truthy (b_channel_id selectedBot) with
  | None => (json 400 [("error", JStr "Bot channel not configured")], db, tg)
  | Some channel =>
  match atob (q_chunk_data req) with
  | Throw m => (upload_chunk_failed m, db, tg)
  | Ok chunkBuffer =>
  match Service.sendDocument tg (b_bot_token_enc selectedBot) channel chunkBuffer with
  | (Throw m, tg') => (upload_chunk_failed m, db, tg')
  | (Ok (message_id, telegram_file_id), tg') =>
      (* the trial [getFile] only logs *)
      let row :=
        {| c_chunk_id := chunk_id_of (q_file_id req) chunk_index;
           c_file_id := q_file_id req;
           c_chunk_index := chunk_index;
           c_chunk_size := Z.of_nat (length chunkBuffer);
           c_chunk_hash := q_chunk_hash req;
           c_bot_id := b_bot_id selectedBot;
           c_telegram_message_id := message_id;
           c_telegram_file_id := telegram_file_id;
           c_channel_id := channel;
           c_created_at := date_now env `div` 1000 |} in
      match insert_chunk db row with
      | Throw m => (upload_chunk_failed m, db, tg')
      | Ok db' =>
          (json 200 [("success", JBool true);
                     ("chunk_index", JNum chunk_index);
                     ("message_id", JNum message_id);
                     ("file_id", JStr telegram_file_id)], db', tg')
      end
  end
  end
  end
  end
  end
  end.

Definition upload_complete (db : DB) (user_id file_id : string) (env : Env)
  : Response * DB :=
  if bool_decide (file_id = "")
  then (json 400 [("error", JStr "file_id required")], db)
  else
  match file_of_user db file_id user_id with
  | None => (json 404 [("error", JStr "File not found")], db)
  | Some file =>
      let count := count_chunks db file_id in
      if bool_decide (count ≠ f_chunk_count file)
      then (json 400 [("error", JStr "Not all chunks uploaded");
                      ("uploaded", JNum count);
                      ("required", JNum (f_chunk_count file))], db)
      else (json 200 [("success", JBool true);
                      ("file_id", JStr file_id);
                      ("message", JStr "Upload complete")],
            touch_file db file_id (date_now env `div` 1000))
  end.

End Routes.

(** ** Read routes (files.ts) *)

(** A row of the chunk query of the read routes: the chunk and the bot
    it joins. *)
Record ChunkOfBot := {
  j_chunk : ChunkRow;
  j_bot : Bot;
}.

Definition j_chunk_index (r : ChunkOfBot) : Z := c_chunk_index (j_chunk r).
Definition j_chunk_size (r : ChunkOfBot) : Z := c_chunk_size (j_chunk r).
Definition j_telegram_file_id (r : ChunkOfBot) : string := c_telegram_file_id (j_chunk r).
Definition j_telegram_message_id (r : ChunkOfBot) : Z := c_telegram_message_id (j_chunk r).
Definition j_bot_id (r : ChunkOfBot) : string := c_bot_id (j_chunk r).
Definition j_bot_token_enc (r : ChunkOfBot) : string := b_bot_token_enc (j_bot r).
Definition j_stored_channel_id (r : ChunkOfBot) : string := c_channel_id (j_chunk r).
Definition j_bot_channel_id (r : ChunkOfBot) : option string := b_channel_id (j_bot r).

(** [FROM chunks JOIN bots ON chunks.bot_id = bots.bot_id
     WHERE chunks.file_id = ? AND bots.is_active = 1
       AND bots.channel_id IS NOT NULL]. *)
Definition join_active_bots (db : DB) (file_id : string) : list ChunkOfBot :=
  c ← chunks db;
  b ← bots db;
  if bool_decide (c_bot_id c = b_bot_id b ∧ c_file_id c = file_id
                  ∧ b_is_active b = true ∧ is_Some (b_channel_id b))
  then [ {| j_chunk := c; j_bot := b |} ]
  else [].

(** The chunk query of [download] and [stream]: the join above,
    [ORDER BY chunk_index ASC]. *)
Definition available_chunks (db : DB) (file_id : string) : list ChunkOfBot :=
  order_by (λ x y, j_chunk_index x <=? j_chunk_index y) (join_active_bots db file_id).

(** The reply when the chunk query returns no row. *)
Definition no_chunks_response (db : DB) (file_id : string) : Response :=
  if 0 <? count_chunks db file_id
  then json 503 [("error", JStr "File chunks found but bot is inactive or channel not configured");
                 ("message", JStr "Please ensure your bot is active and has a channel configured")]
  else json 404 [("error", JStr "File chunks not found")].

Definition is_space (a : Ascii.ascii) : bool :=
  bool_decide (Ascii.nat_of_ascii a ∈ [9; 10; 11; 12; 13; 32; 160]%nat).

(** [s.trim().length === 0]. *)
Fixpoint blank (s : string) : bool :=
  match s with
  | EmptyString => true
  | String a s' => is_space a && blank s'
  end.

Definition octet_stream (mime : option string) : string :=
  default "application/octet-stream" (truthy mime).

(** The inner [try] of the download loop: check the bot, then fetch
    the chunk by its stored [telegram_file_id]. *)
Definition fetch_by_file_id (tg : Telegram) (chunk : ChunkOfBot) : Result bytes :=
  match Service.getBotInfo tg (j_bot_token_enc chunk) with
  | Throw _ => Throw "Bot token is invalid or expired. Please re-add the bot in Settings."
  | Ok _ => Service.downloadFile tg (j_bot_token_enc chunk) (j_telegram_file_id chunk)
  end.

(** The [catch (fileIdError)] block: resolve the file again from the
    stored message, write the new [telegram_file_id] to the chunk row
    and fetch once more. *)
Definition message_id_fallback (db : DB) (tg : Telegram) (file_id : string)
    (chunk : ChunkOfBot) (errorMsg : string) : Result bytes * DB * Telegram :=
  let channelId := if decide (j_stored_channel_id chunk = "")
                   then truthy (j_bot_channel_id chunk)
                   else Some (j_stored_channel_id chunk) in
  match channelId with
  | None => (Throw ("Channel ID not found for chunk " +:+ pretty (j_chunk_index chunk)), db, tg)
  | Some channelId =>
  if decide (j_telegram_message_id chunk = 0)
  then (Throw ("Message ID not found for chunk " +:+ pretty (j_chunk_index chunk)), db, tg)
  else
  let '(fileFromMessage, tg') :=
    Service.getFileFromMessage tg (j_bot_token_enc chunk) channelId
      (j_telegram_message_id chunk) in
  let failed fallbackMsg :=
    Throw ("Failed to retrieve chunk " +:+ pretty (j_chunk_index chunk)
           +:+ ". Original error: " +:+ errorMsg
           +:+ ". Fallback error: " +:+ fallbackMsg) in
  let attempt :=
    match fileFromMessage with
    | Some {| tf_file_id := new_file_id; tf_file_path := Some (String _ _) |} =>
        let db' := update_chunk_file_id db
                     (chunk_id_of file_id (j_chunk_index chunk)) new_file_id in
        (Service.downloadFile tg' (j_bot_token_enc chunk) new_file_id, db')
    | _ =>
        (Throw ("Could not retrieve file from message "
                +:+ pretty (j_telegram_message_id chunk)
                +:+ ". The message may have been deleted."), db)
    end in
  match attempt with
  | (Ok data, db') => (Ok data, db', tg')
  | (Throw fallbackMsg, db') => (failed fallbackMsg, db', tg')
  end
  end.

(** One turn of the download loop, up to [chunkBuffers.push]. *)
Definition download_chunk (db : DB) (tg : Telegram) (file_id : string)
    (chunk : ChunkOfBot) : Result bytes * DB * Telegram :=
  if blank (j_bot_token_enc chunk)
  then (Throw "Bot token is empty or invalid", db, tg)
  else
  match fetch_by_file_id tg chunk with
  | Ok data => (Ok data, db, tg)
  | Throw errorMsg => message_id_fallback db tg file_id chunk errorMsg
  end.

(** The [catch (chunkError)] block of the download loop. *)
Definition download_chunk_error (chunk : ChunkOfBot) (errorMessage : string) : Response :=
  if includes errorMessage "file not found" || includes errorMessage "404"
     || includes errorMessage "400"
  then json 404
         [("error", JStr "File chunk not found in Telegram");
          ("message", JStr ("Chunk " +:+ pretty (j_chunk_index chunk)
                            +:+ " appears to be missing. The file may need to be re-uploaded."));
          ("chunk_index", JNum (j_chunk_index chunk));
          ("suggestion", JStr "Try re-uploading this file");
          ("debug", JObj [("bot_id", JStr (j_bot_id chunk));
                          ("stored_channel_id", JStr (j_stored_channel_id chunk));
                          ("bot_channel_id", json_opt (j_bot_channel_id chunk));
                          ("file_id_preview", JStr (substring0 30 (j_telegram_file_id chunk)))])]
  else json 500
         [("error", JStr "Failed to download file chunk");
          ("message", JStr errorMessage);
          ("chunk_index", JNum (j_chunk_index chunk))].

(** The download loop: the buffers fetched so far, or the reply that
    ends the request at the first chunk that cannot be fetched. *)
Fixpoint download_loop (db : DB) (tg : Telegram) (file_id : string)
    (rows : list ChunkOfBot) : (list bytes + Response) * DB * Telegram :=
  match rows with
  | [] => (inl [], db, tg)
  | chunk :: rest =>
      match download_chunk db tg file_id chunk with
      | (Throw m, db', tg') => (inr (download_chunk_error chunk m), db', tg')
      | (Ok data, db', tg') =>
          match download_loop db' tg' file_id rest with
          | (inl buffers, db'', tg'') => (inl (data :: buffers), db'', tg'')
          | (inr response, db'', tg'') => (inr response, db'', tg'')
          end
      end
  end.

(** The outermost [catch] of [download]. *)
Definition download_failed (error : Thrown) : Response :=
  json 500 [("error", JStr "Failed to download file");
            ("message", JStr (e_message error));
            ("details", JStr (e_stack error))].

(** [GET /:file_id/download]. *)
Definition download {pf : Platform} (db : DB) (tg : Telegram) (user_id file_id : string)
  : Response * DB * Telegram :=
  match live_file_of_user db file_id user_id with
  | None => (json 404 [("error", JStr "File not found")], db, tg)
  | Some file =>
      let rows := available_chunks db file_id in
      if bool_decide (rows = [])
      then (no_chunks_response db file_id, db, tg)
      else
      match download_loop db tg file_id rows with
      | (inr response, db', tg') => (response, db', tg')
      | (inl chunkBuffers, db', tg') =>
          match combine chunkBuffers with
          | None => (download_failed (offset_out_of_bounds 668), db', tg')
          | Some combined =>
              match new_Response 200
                      [("Content-Type", octet_stream (f_mime_type file));
                       ("Content-Disposition",
                        "attachment; filename=" +:+ quote +:+ f_file_name file +:+ quote);
                       ("Content-Length", pretty (Z.of_nat (length combined)))]
                      (BBytes combined) with
              | Some response => (response, db', tg')
              | None => (download_failed (invalid_header_value 673), db', tg')
              end
          end
      end
  end.

(** ** The Range header *)

Definition is_digit (a : Ascii.ascii) : bool :=
  match Ascii.is_nat a with Some _ => true | None => false end.

Definition digit_value (a : Ascii.ascii) : Z :=
  match Ascii.is_nat a with Some d => Z.of_nat d | None => 0 end.

(** The longest run of digits at the start of [s], and what follows:
    what a greedy digit run consumes. *)
Fixpoint span_digits (s : string) : string * string :=
  match s with
  | String a s' =>
      if is_digit a
      then let '(ds, rest) := span_digits s' in (String a ds, rest)
      else ("", s)
  | EmptyString => ("", "")
  end.

(** [s] without the leading [p], when [s] starts with [p]. *)
Fixpoint strip_prefix (p s : string) : option string :=
  match p, s with
  | EmptyString, _ => Some s
  | String a p', String b s' => if decide (a = b) then strip_prefix p' s' else None
  | String _ _, EmptyString => None
  end.

(** The pattern of [parseRange], the literal [bytes=], one or more
    digits (group 1), a dash, any number of digits (group 2), tried at
    the start of [s]: the two groups. A greedy digit run needs no
    backtracking here, because what must follow it is not a digit. *)
Definition match_here (s : string) : option (string * string) :=
  match strip_prefix "bytes=" s with
  | None => None
  | Some s1 =>
      let '(start_digits, s2) := span_digits s1 in
      if decide (start_digits = "") then None
      else match s2 with
           | String a s3 =>
               if decide (a = "-"%char) then Some (start_digits, fst (span_digits s3))
               else None
           | EmptyString => None
           end
  end.

(** [range.match(...)] with that pattern: it is not anchored, so it is
    tried at every position from the left. *)
Fixpoint range_match (range : string) : option (string * string) :=
  match match_here range with
  | Some groups => Some groups
  | None =>
      match range with
      | EmptyString => None
      | String _ rest => range_match rest
      end
  end.

(** [parseInt] on a run of decimal digits, read from the left with
    the value so far in [acc]: the decimal value of the run. This is
    what [parseInt] returns for a value up to [MAX_SAFE_INTEGER]
    (JavaScript rounds a greater one); the statements whose result
    depends on a parsed number keep it within that bound. *)
Fixpoint parseInt_from (acc : Z) (digits : string) : Z :=
  match digits with
  | EmptyString => acc
  | String a rest => parseInt_from (10 * acc + digit_value a) rest
  end.

Definition parseInt (digits : string) : Z := parseInt_from 0 digits.

Definition MAX_SAFE_INTEGER : Z := 2 ^ 53 - 1.

(** [parseRange(range, fileSize)]. *)
Definition parseRange (range : string) (fileSize : Z) : Z * Z :=
  match range_match range with
  | None => (0, fileSize - 1)
  | Some (g1, g2) =>
      let start := parseInt g1 in
      let end_ := if decide (g2 = "") then fileSize - 1 else parseInt g2 in
      (start, Z.min end_ (fileSize - 1))
  end.

(** ** Streaming (files.ts, cache.ts) *)

(** [getCacheKey(file_id, chunk_index, range?)]. *)
Definition getCacheKey (file_id : string) (chunk_index : Z) (range : option (Z * Z)) : string :=
  match range with
  | Some (start, end_) =>
      "file:" +:+ file_id +:+ ":chunk:" +:+ pretty chunk_index
      +:+ ":range:" +:+ pretty start +:+ "-" +:+ pretty end_
  | None => "file:" +:+ file_id +:+ ":chunk:" +:+ pretty chunk_index
  end.

(** [shouldCache(mimeType)]. *)
Definition shouldCache (mimeType : option string) : bool :=
  match truthy mimeType with
  | None => false
  | Some m => String.prefix "video/" m || String.prefix "image/" m
              || String.prefix "audio/" m
  end.

(** An entry of [neededChunks]. *)
Record Needed := {
  n_chunk : ChunkOfBot;
  extractStart : Z;
  extractEnd : Z;
  globalStart : Z;
  globalEnd : Z;
}.

(** "Find which chunks contain the range": the loop over the rows, with
    the running [chunkStart]. *)
Fixpoint needed_chunks (rows : list ChunkOfBot) (chunkStart start end_ : Z) : list Needed :=
  match rows with
  | [] => []
  | chunk :: rest =>
      let chunkEnd := chunkStart + j_chunk_size chunk in
      let tail := needed_chunks rest chunkEnd start end_ in
      if (start <? chunkEnd) && (chunkStart <=? end_)
      then {| n_chunk := chunk;
              extractStart := Z.max 0 (start - chunkStart);
              extractEnd := Z.min (j_chunk_size chunk) (end_ - chunkStart + 1);
              globalStart := chunkStart;
              globalEnd := chunkEnd |} :: tail
      else tail
  end.

(** The [catch (chunkError)] block of both loops of [stream]. *)
Definition stream_chunk_error (chunk : ChunkOfBot) (errorMessage : string) : Response :=
  if includes errorMessage "file not found" || includes errorMessage "404"
  then json 404
         [("error", JStr "File chunk not found in Telegram");
          ("message", JStr ("Chunk " +:+ pretty (j_chunk_index chunk)
                            +:+ " appears to be missing. The file may need to be re-uploaded."));
          ("chunk_index", JNum (j_chunk_index chunk));
          ("suggestion", JStr "Try re-uploading this file")]
  else json 500
         [("error", JStr "Failed to stream file chunk");
          ("message", JStr errorMessage);
          ("chunk_index", JNum (j_chunk_index chunk))].

(** "Download and extract needed portions". *)
Fixpoint extract_loop (tg : Telegram) (needed : list Needed) : list bytes + Response :=
  match needed with
  | [] => inl []
  | n :: rest =>
      match Service.downloadFile tg (j_bot_token_enc (n_chunk n))
              (j_telegram_file_id (n_chunk n)) with
      | Throw m => inr (stream_chunk_error (n_chunk n) m)
      | Ok chunkData =>
          let extracted := slice chunkData (extractStart n) (extractEnd n) in
          match extract_loop tg rest with
          | inl parts => inl (extracted :: parts)
          | inr response => inr response
          end
      end
  end.

(** The loop of the branch without a Range header. *)
Fixpoint stream_loop (tg : Telegram) (rows : list ChunkOfBot) : list bytes + Response :=
  match rows with
  | [] => inl []
  | chunk :: rest =>
      match Service.downloadFile tg (j_bot_token_enc chunk) (j_telegram_file_id chunk) with
      | Throw m => inr (stream_chunk_error chunk m)
      | Ok chunkData =>
          match stream_loop tg rest with
          | inl buffers => inl (chunkData :: buffers)
          | inr response => inr response
          end
      end
  end.

(** The outermost [catch] of [stream]. *)
Definition stream_failed (error : Thrown) : Response :=
  json 500 [("error", JStr "Failed to stream file");
            ("message", JStr (e_message error));
            ("details", JStr (e_stack error))].

(** [GET /:file_id/stream]. [cache] answers [getCached]; [setCached]
    only writes to the cache and never changes the reply. *)
Definition stream {pf : Platform} (db : DB) (tg : Telegram) (cache : string → option Response)
    (user_id file_id : string) (range : option string) : Response :=
  match live_file_of_user db file_id user_id with
  | None => json 404 [("error", JStr "File not found")]
  | Some file =>
      let rows := available_chunks db file_id in
      if bool_decide (rows = []) then no_chunks_response db file_id
      else
      match truthy range with
      | Some range =>
          let '(start, end_) := parseRange range (f_file_size file) in
          let cacheKey := getCacheKey file_id 0 (Some (start, end_)) in
          match (if shouldCache (f_mime_type file) then cache cacheKey else None) with
          | Some cached => cached
          | None =>
              match extract_loop tg (needed_chunks rows 0 start end_) with
              | inr response => response
              | inl parts =>
                  match combine parts with
                  | None => stream_failed (offset_out_of_bounds 828)
                  | Some combined =>
                      match new_Response 206
                              [("Content-Type", octet_stream (f_mime_type file));
                               ("Content-Range",
                                "bytes " +:+ pretty start +:+ "-" +:+ pretty end_
                                +:+ "/" +:+ pretty (f_file_size file));
                               ("Accept-Ranges", "bytes");
                               ("Content-Length", pretty (Z.of_nat (length combined)))]
                              (BBytes combined) with
                      | Some response => response
                      | None => stream_failed (invalid_header_value 832)
                      end
                  end
              end
          end
      | None =>
          let cacheKey := getCacheKey file_id 0 None in
          match (if shouldCache (f_mime_type file) then cache cacheKey else None) with
          | Some cached => cached
          | None =>
              match stream_loop tg rows with
              | inr response => response
              | inl chunkBuffers =>
                  match combine chunkBuffers with
                  | None => stream_failed (offset_out_of_bounds 894)
                  | Some combined =>
                      match new_Response 200
                              [("Content-Type", octet_stream (f_mime_type file));
                               ("Content-Length", pretty (Z.of_nat (length combined)));
                               ("Accept-Ranges", "bytes")]
                              (BBytes combined) with
                      | Some response => response
                      | None => stream_failed (invalid_header_value 898)
                      end
                  end
              end
          end
      end
  end.

(** ** The throttle of [services/telegram.ts]

    [rateLimit] runs in two pieces, because other requests of the same
    worker run while it awaits its timer: the piece up to the [await]
    and the piece after it. The clock readings [Date.now()] are given
    by the events that drive the model. *)

Module Throttle.

(** [RATE_LIMIT_MS = 3000]. *)
Definition RATE_LIMIT_MS : Z := 3000.

(** A call that sleeps in [setTimeout]: its credential and the time
    its timer is due. *)
Record Sleeper := {
  s_token : string;
  s_due : Z;
}.

Record State := {
  rateLimitMap : gmap string Z;      (* the module-level [Map] *)
  sleeping : gmap nat Sleeper;       (* calls suspended at the [await] *)
  sent : list (string * Z);          (* requests passed on to [fetch], oldest first *)
}.

Definition initial : State :=
  {| rateLimitMap := ∅; sleeping := ∅; sent := [] |}.

Inductive Event :=
  | Enter (id : nat) (botToken : string) (now : Z)   (* [telegramRequest] calls [rateLimit] *)
  | Wake (id : nat) (now : Z).                       (* the timer of call [id] fires *)

(** [rateLimitMap.get(botToken) || 0]. *)
Definition lastCall (m : gmap string Z) (botToken : string) : Z :=
  default 0 (m !! botToken).

(** [waitTime], when the call has to sleep. *)
Definition waitTime (m : gmap string Z) (botToken : string) (now : Z) : option Z :=
  let timeSinceLastCall := now - lastCall m botToken in
  if timeSinceLastCall <? RATE_LIMIT_MS
  then Some (RATE_LIMIT_MS - timeSinceLastCall)
  else None.

(** [rateLimitMap.set(botToken, Date.now())] and the return to
    [telegramRequest], which sends the request at once. *)
Definition pass (st : State) (botToken : string) (now : Z) : State :=
  {| rateLimitMap := <[botToken := now]> (rateLimitMap st);
     sleeping := sleeping st;
     sent := sent st ++ [(botToken, now)] |}.

(** One event. [None]: the event cannot happen in this state (an id
    in use, an unknown timer, or a timer firing before it is due). *)
Definition step (st : State) (e : Event) : option State :=
  match e with
  | Enter id botToken now =>
      match sleeping st !! id with
      | Some _ => None
      | None =>
          match waitTime (rateLimitMap st) botToken now with
          | None => Some (pass st botToken now)
          | Some w =>
              Some {| rateLimitMap := rateLimitMap st;
                      sleeping := <[id := {| s_token := botToken; s_due := now + w |}]>
                                    (sleeping st);
                      sent := sent st |}
          end
      end
  | Wake id now =>
      match sleeping st !! id with
      | Some s =>
          if s_due s <=? now
          then Some (pass {| rateLimitMap := rateLimitMap st;
                             sleeping := delete id (sleeping st);
                             sent := sent st |} (s_token s) now)
          else None
      | None => None
      end
  end.

Definition time_of (e : Event) : Z :=
  match e with Enter _ _ now => now | Wake _ now => now end.

(** A run: the events in the order they happen; the clock never goes
    back. *)
Fixpoint run_from (st : State) (clock : Z) (events : list Event) : option State :=
  match events with
  | [] => Some st
  | e :: rest =>
      if clock <=? time_of e
      then match step st e with
           | Some st' => run_from st' (time_of e) rest
           | None => None
           end
      else None
  end.

Definition run (events : list Event) : option State := run_from initial 0 events.

(** The times at which requests with [botToken] were sent. *)
Definition sent_with (botToken : string) (st : State) : list Z :=
  snd <$> filter (λ p, fst p = botToken) (sent st).

(** Every two consecutive entries are at least [gap] apart. *)
Fixpoint spaced (gap : Z) (times : list Z) : bool :=
  match times with
  | t1 :: ((t2 :: _) as rest) => (gap <=? t2 - t1) && spaced gap rest
  | _ => true
  end.

(** No call with the credential of [e] is asleep when [e] enters. *)
Definition alone (st : State) (e : Event) : Prop :=
match e with
| Enter _ botToken _ => ∀ id s, sleeping st !! id = Some s → s_token s ≠ botToken
| Wake _ _ => True
end.

(** States reached when every call enters alone: calls with one
  credential never overlap. *)
Inductive serial : State → Z → Prop :=
| serial_initial : serial initial 0
| serial_step st clock e st' :
    serial st clock → clock ≤ time_of e → alone st e → step st e = Some st' →
    serial st' (time_of e).

(** What holds of every serial state. *)
Record Inv (st : State) : Prop := {
inv_spaced : ∀ tok, spaced RATE_LIMIT_MS (sent_with tok st) = true;
inv_last : ∀ tok t, last (sent_with tok st) = Some t → rateLimitMap st !! tok = Some t;
inv_due : ∀ id s, sleeping st !! id = Some s →
                  lastCall (rateLimitMap st) (s_token s) + RATE_LIMIT_MS ≤ s_due s;
inv_one : ∀ id1 id2 s1 s2,
    sleeping st !! id1 = Some s1 → sleeping st !! id2 = Some s2 →
    s_token s1 = s_token s2 → id1 = id2;
}.

(** The credential an event acts for. *)
Definition credential (st : State) (e : Event) : option string :=
match e with
| Enter _ botToken _ => Some botToken
| Wake id _ => s_token <$> sleeping st !! id
end.

End Throttle.

(** ** A client (chrome-extension/background/service-worker.js)

    [uploadToInfiniDrive]: hash the file, call [upload/init], post the
    chunks one after the other, call [upload/complete]. *)

Module Client.
Section Client.
Context {pf : Platform}.
(** The server side: its chunk size, its base64 decoder and the clock
    it reads while it serves the request for chunk [i]. *)
Variable chunk_size : Z.
Variable atob : string → Result bytes.
Variable clock : Z → Env.
(** The client side: [btoa] of the binary string of a buffer, and the
    hexadecimal SHA-256 digest. *)
Variable btoa : bytes → string.
Variable sha256_hex : bytes → string.

(** [response.ok]. *)
Definition ok (r : Response) : bool := (200 <=? status r) && (status r <? 300).

(** A member of the JSON body of a reply. *)
Definition field (name : string) (r : Response) : option Json :=
  match body r with
  | BJson (JObj fields) => snd <$> head (filter (λ p, fst p = name) fields)
  | _ => None
  end.

(** The chunk loop, with [n] turns left and the next index [i]. *)
Fixpoint post_chunks (db : DB) (tg : Telegram) (user_id file_id : string)
    (fileData : bytes) (chunk_size' : Z) (i : Z) (n : nat) : Result unit * DB * Telegram :=
  match n with
  | O => (Ok (), db, tg)
  | S n' =>
      let chunkBuffer := chunk_at chunk_size' fileData i in
      let '(chunkRes, db', tg') :=
        upload_chunk atob db tg user_id
          {| q_file_id := file_id; q_chunk_index := Some i;
             q_chunk_data := btoa chunkBuffer;
             q_chunk_hash := sha256_hex chunkBuffer |} (clock i) in
      if ok chunkRes
      then post_chunks db' tg' user_id file_id fileData chunk_size' (i + 1) n'
      else (Throw ("Chunk " +:+ pretty i +:+ " upload failed"), db', tg')
  end.

Definition uploadToInfiniDrive (db : DB) (tg : Telegram) (user_id : string)
    (fileData : bytes) (fileName mimeType : string) (env_init env_complete : Env)
  : Result unit * DB * Telegram :=
  let '(initRes, db1) :=
    upload_init chunk_size db user_id
      {| i_file_name := fileName;
         i_file_size := Z.of_nat (length fileData);
         i_mime_type := Some mimeType;
         i_file_hash := sha256_hex fileData;
         i_device_id := None;
         i_file_path := Some ("/" +:+ fileName);
         i_folder_id := None;
         i_is_public := false;
         i_public_title := None;
         i_public_category := None |} env_init in
  if negb (ok initRes) then (Throw "Upload init failed", db1, tg)
  else
  match field "duplicate" initRes with
  | Some (JBool true) => (Ok (), db1, tg)
  | _ =>
      match field "file_id" initRes, field "chunk_count" initRes,
            field "chunk_size" initRes with
      | Some (JStr file_id), Some (JNum chunk_count), Some (JNum chunk_size') =>
          match post_chunks db1 tg user_id file_id fileData chunk_size' 0
                  (Z.to_nat chunk_count) with
          | (Throw m, db2, tg2) => (Throw m, db2, tg2)
          | (Ok _, db2, tg2) =>
              let '(completeRes, db3) := upload_complete db2 user_id file_id env_complete in
              if ok completeRes then (Ok (), db3, tg2)
              else (Throw "Upload complete failed", db3, tg2)
          end
      | _, _, _ => (Throw "Upload init failed", db1, tg)
      end
  end.

End Client.
End Client.

(** ** Vocabulary of the statements *)

(** A chunk row is stored faithfully when the read path fetches [data]
    through it at the first attempt. *)
Definition fetches (tg : Telegram) (r : ChunkOfBot) (data : bytes) : Prop :=
  blank (j_bot_token_enc r) = false ∧ fetch_by_file_id tg r = Ok data.

(** The replies carry the type of the file as [Headers] keeps it,
    without the white space at its ends. *)
Definition download_ok (file : FileRow) (content : bytes) : Response :=
  {| status := 200;
     headers := [("Content-Type", normalize (octet_stream (f_mime_type file)));
                 ("Content-Disposition",
                  "attachment; filename=" +:+ quote +:+ f_file_name file +:+ quote);
                 ("Content-Length", pretty (Z.of_nat (length content)))];
     body := BBytes content |}.

(** [v] is a header value as it stands: no white space at either end
    and no NUL, line feed or carriage return, so that [new Response]
    takes it unchanged. *)
Definition header_value (v : string) : Prop :=
  normalize v = v ∧ forbidden_free v = true.

(** The chunk rows of [file_id] that the chunk query joins are, in
    whatever order the table holds them, the rows [rows], and these
    carry the indices 0, 1, 2, ... in this order. *)
Definition chunk_records (db : DB) (file_id : string) (rows : list ChunkOfBot) : Prop :=
  join_active_bots db file_id ≡ₚ rows
  ∧ j_chunk_index <$> rows = seqZ 0 (Z.of_nat (length rows)).

(** The turns of the download loop over [rows] from the state
    [(db, tg)] on: every row yields its buffer in the state that the
    turns before it have left, and the last turn leaves [(db', tg')]. *)
Inductive Fetched (file_id : string)
  : DB → Telegram → list ChunkOfBot → list bytes → DB → Telegram → Prop :=
  | fetched_nil db tg : Fetched file_id db tg [] [] db tg
  | fetched_cons db tg r rows d ds db1 tg1 db' tg' :
      download_chunk db tg file_id r = (Ok d, db1, tg1) →
      Fetched file_id db1 tg1 rows ds db' tg' →
      Fetched file_id db tg (r :: rows) (d :: ds) db' tg'.

(** A text without white space, NUL, line feed and carriage return. *)
Fixpoint plain (s : string) : bool :=
  match s with
  | String a s' => negb (is_http_whitespace a) && negb (is_forbidden a) && plain s'
  | EmptyString => true
  end.

(** Sizes recorded in the rows agree with what the transport returns. *)
Definition serves (tg : Telegram) (r : ChunkOfBot) (data : bytes) : Prop :=
  Service.downloadFile tg (j_bot_token_enc r) (j_telegram_file_id r) = Ok data
  ∧ j_chunk_size r = Z.of_nat (length data).

(** The bytes [lo, hi) of [l], with [hi] read as at least [lo]. *)
Definition window {A} (l : list A) (lo hi : Z) : list A :=
  take (Z.to_nat (hi - lo)) (drop (Z.to_nat lo) l).

(** The Range Resolver as the design document words it: walk the chunk
    sizes with a running offset and, for each chunk whose interval
    [offset, offset + size) meets [start, end], emit the overlap in
    the chunk's own coordinates. *)
Module RangeResolver.

Definition intersects (offset size start end_ : Z) : Prop :=
  ∃ x, offset ≤ x < offset + size ∧ start ≤ x ≤ end_.

Global Instance intersects_dec offset size start end_ :
  Decision (intersects offset size start end_).
Proof.
  refine (cast_if (decide (start < offset + size ∧ offset ≤ end_
                           ∧ 0 < size ∧ start ≤ end_))).
  - destruct a as (? & ? & ? & ?). exists (Z.max offset start). lia.
  - intros (x & ? & ?). apply n. lia.
Defined.

Record Piece := {
  chunkIndex : nat;
  localStart : Z;
  localEnd : Z;
}.

Fixpoint walk (chunkSizes : list Z) (i : nat) (offset start end_ : Z) : list Piece :=
  match chunkSizes with
  | [] => []
  | size :: rest =>
      (if decide (intersects offset size start end_)
       then [ {| chunkIndex := i;
                 localStart := Z.max 0 (start - offset);
                 localEnd := Z.min size (end_ - offset + 1) |} ]
       else [])
      ++ walk rest (S i) (offset + size) start end_
  end.

Definition resolve (chunkSizes : list Z) (start end_ : Z) : list Piece :=
  walk chunkSizes 0 0 start end_.

End RangeResolver.

(** An entry of [neededChunks] is the piece [p] of the resolver. *)
Definition is_piece (rows : list ChunkOfBot) (n : Needed) (p : RangeResolver.Piece) : Prop :=
  rows !! RangeResolver.chunkIndex p = Some (n_chunk n)
  ∧ extractStart n = RangeResolver.localStart p
  ∧ extractEnd n = RangeResolver.localEnd p.

Definition range_ok (file : FileRow) (start end_ : Z) (content : bytes) : Response :=
  {| status := 206;
     headers := [("Content-Type", normalize (octet_stream (f_mime_type file)));
                 ("Content-Range",
                  "bytes " +:+ pretty start +:+ "-" +:+ pretty end_
                  +:+ "/" +:+ pretty (f_file_size file));
                 ("Accept-Ranges", "bytes");
                 ("Content-Length", pretty (Z.of_nat (length content)))];
     body := BBytes content |}.

Fixpoint all_digits (s : string) : bool :=
  match s with
  | EmptyString => true
  | String a s' => is_digit a && all_digits s'
  end.

(** [s] does not go on with a digit. *)
Definition digit_free_head (s : string) : bool :=
  match s with
  | EmptyString => true
  | String a _ => negb (is_digit a)
  end.

(** The pattern of [parseRange] holds at the start of [s], with groups
    [g1] and [g2]; the second group is as long as it can be. *)
Definition pattern_at (s g1 g2 : string) : Prop :=
  ∃ rest, s = "bytes=" +:+ g1 +:+ "-" +:+ g2 +:+ rest
          ∧ g1 ≠ "" ∧ all_digits g1 = true ∧ all_digits g2 = true
          ∧ digit_free_head rest = true.



(** The chunk rows of [file_id] with index [i]. *)
Definition rows_at (db : DB) (file_id : string) (i : Z) : list ChunkRow :=
  filter (λ c, c_file_id c = file_id ∧ c_chunk_index c = i) (chunks db).

Definition duplicate_reply (file_id : string) : Response :=
  json 409 [("error", JStr "File already exists");
            ("file_id", JStr file_id);
            ("duplicate", JBool true)].

Definition init_file_id (env : Env) : string :=
  "file_" +:+ pretty (date_now env) +:+ "_" +:+ random_text env.

Definition well_formed (req : InitRequest) : Prop :=
  i_file_name req ≠ "" ∧ i_file_size req ≠ 0 ∧ i_file_hash req ≠ "".

Definition eligible (user_id : string) (b : Bot) : Prop :=
  b_user_id b = user_id ∧ b_is_active b = true ∧ b_health_status b = healthy.

(** The row a chunk upload writes. *)
Definition chunk_row (req : ChunkRequest) (env : Env) (i : Z) (bot : Bot)
    (channel : string) (data : bytes) (message_id : Z) (tfid : string) : ChunkRow :=
  {| c_chunk_id := chunk_id_of (q_file_id req) i;
     c_file_id := q_file_id req;
     c_chunk_index := i;
     c_chunk_size := Z.of_nat (length data);
     c_chunk_hash := q_chunk_hash req;
     c_bot_id := b_bot_id bot;
     c_telegram_message_id := message_id;
     c_telegram_file_id := tfid;
     c_channel_id := channel;
     c_created_at := date_now env `div` 1000 |}.

(** The facts a reply 200 of [upload/chunk] stands for. *)
Inductive Uploaded {pf : Platform} (atob : string → Result bytes) (db : DB) (tg : Telegram)
    (user_id : string) (req : ChunkRequest) (env : Env) (db' : DB) (tg' : Telegram) : Prop :=
  | uploaded (i : Z) (file : FileRow) (bot : Bot) (channel : string) (data : bytes)
      (message_id : Z) (tfid : string)
      (up_has_index : q_chunk_index req = Some i)
      (up_has_fields : q_file_id req ≠ "" ∧ q_chunk_data req ≠ "" ∧ q_chunk_hash req ≠ "")
      (up_found : file_of_user db (q_file_id req) user_id = Some file)
      (up_below : i < f_chunk_count file)
      (up_pool : healthy_bots db user_id ≠ [])
      (up_selected : select_bot (healthy_bots db user_id) i = Some bot)
      (up_bound : truthy (b_channel_id bot) = Some channel)
      (up_decoded : atob (q_chunk_data req) = Ok data)
      (up_sent : Service.sendDocument tg (b_bot_token_enc bot) channel data
                 = (Ok (message_id, tfid), tg'))
      (up_inserted : insert_chunk db
                       (chunk_row req env i bot channel data message_id tfid) = Ok db').

(** The [(file_id, chunk_index)] of every chunk row. *)
Definition chunk_keys (db : DB) : list (string * Z) :=
  (λ r, (c_file_id r, c_chunk_index r)) <$> chunks db.

(** The chunk indices stored for [file_id]. *)
Definition stored_indices (db : DB) (file_id : string) : list Z :=
  c_chunk_index <$> filter (λ c, c_file_id c = file_id) (chunks db).

(** *** Storing through the routes *)

(** A bot the upload and read routes can work with: a token the Bot
    API knows as a bot, and a channel that exists. *)
Definition usable (tg : Telegram) (b : Bot) : Prop :=
  blank (b_bot_token_enc b) = false
  ∧ (∃ u, tg_users tg !! b_bot_token_enc b = Some u ∧ u_is_bot u = true)
  ∧ ∃ channel, truthy (b_channel_id b) = Some channel ∧ channel ∈ tg_chats tg.

(** What the remote side holds for a document it was sent. *)
Definition kept (data : bytes) : Stored := {| st_has_path := true; st_content := Some data |}.

(** The join condition of the chunk query. *)
Definition joins (file_id : string) (c : ChunkRow) (b : Bot) : Prop :=
  c_bot_id c = b_bot_id b ∧ c_file_id c = file_id
  ∧ b_is_active b = true ∧ is_Some (b_channel_id b).

(** The row that chunk [j] of an upload leaves behind, and what the
    remote side holds for it. *)
Definition holds (tg' : Telegram) (pool : list Bot) (file_id : string)
    (part : bytes) (j : Z) (row : ChunkRow) : Prop :=
  c_file_id row = file_id ∧ c_chunk_index row = j
  ∧ c_chunk_size row = Z.of_nat (length part)
  ∧ (∃ bot, bot ∈ pool ∧ c_bot_id row = b_bot_id bot)
  ∧ c_telegram_file_id row ≠ ""
  ∧ tg_files tg' !! c_telegram_file_id row = Some (kept part).

(** The reply of [upload/init] to a new file. *)
Definition init_reply (file_id : string) (count chunk_size' : Z) (pool : list Bot) : Response :=
  json 200 [("file_id", JStr file_id);
            ("chunk_count", JNum count);
            ("chunk_size", JNum chunk_size');
            ("bot_assignments", JArr (bot_assignments pool count))].

(** ** Removing a bot (bots.ts) *)

Definition set_inactive (b : Bot) : Bot :=
  {| b_bot_id := b_bot_id b; b_user_id := b_user_id b;
     b_bot_token_enc := b_bot_token_enc b; b_channel_id := b_channel_id b;
     b_is_active := false;
     b_last_health_check := b_last_health_check b;
     b_health_status := b_health_status b |}.

(** [DELETE /api/bots/:bot_id], for a bot of the caller:
    [UPDATE bots SET is_active = 0 WHERE bot_id = ?]. *)
Definition remove_bot (db : DB) (bot_id : string) : DB :=
  {| bots := (λ b, if decide (b_bot_id b = bot_id) then set_inactive b else b) <$> bots db;
     folders := folders db; files := files db; chunks := chunks db;
     devices := devices db |}.

(** ** Bot routes (bots.ts) and [checkBotHealth] (services/telegram.ts) *)

(** [checkBotHealth]: the outcome of [validateBotToken], read off the
    text of its error. *)
Definition checkBotHealth (tg : Telegram) (botToken : string) : Health :=
  match Service.validateBotToken tg botToken with
  | Ok _ => healthy
  | Throw errorMessage =>
      if includes errorMessage "429" || includes errorMessage "rate" then rate_limited
      else if includes errorMessage "401" || includes errorMessage "Unauthorized" then banned
      else unknown
  end.

Definition health_text (h : Health) : string :=
  match h with
  | healthy => "healthy"
  | rate_limited => "rate_limited"
  | banned => "banned"
  | unknown => "unknown"
  end.

(** [SELECT ... FROM bots WHERE bot_id = ? AND user_id = ?]. *)
Definition bot_of_user (db : DB) (bot_id user_id : string) : option Bot :=
  first (filter (λ b, b_bot_id b = bot_id ∧ b_user_id b = user_id) (bots db)).

Definition with_bots (db : DB) (bs : list Bot) : DB :=
  {| bots := bs; folders := folders db; files := files db; chunks := chunks db;
     devices := devices db |}.

Definition set_health (h : Health) (now : Z) (b : Bot) : Bot :=
  {| b_bot_id := b_bot_id b; b_user_id := b_user_id b;
     b_bot_token_enc := b_bot_token_enc b; b_channel_id := b_channel_id b;
     b_is_active := b_is_active b;
     b_last_health_check := Some now;
     b_health_status := h |}.

(** [POST /api/bots/:bot_id/health]. *)
Definition bot_health (db : DB) (tg : Telegram) (user_id bot_id : string) (env : Env)
  : Response * DB :=
  match bot_of_user db bot_id user_id with
  | None => (json 404 [("error", JStr "Bot not found")], db)
  | Some bot =>
      let health := checkBotHealth tg (b_bot_token_enc bot) in
      let now := date_now env `div` 1000 in
      (json 200 [("bot_id", JStr bot_id);
                 ("health_status", JStr (health_text health));
                 ("last_health_check", JNum now)],
       with_bots db
         ((λ b, if decide (b_bot_id b = bot_id) then set_health health now b else b)
            <$> bots db))
  end.

Definition set_channel (channel : string) (b : Bot) : Bot :=
  {| b_bot_id := b_bot_id b; b_user_id := b_user_id b;
     b_bot_token_enc := b_bot_token_enc b; b_channel_id := Some channel;
     b_is_active := b_is_active b;
     b_last_health_check := b_last_health_check b;
     b_health_status := b_health_status b |}.

(** [PUT /api/bots/:bot_id/channel]; the body holds [channel_id] as a
    string, as the web client sends it, or not at all. *)
Definition bot_channel (db : DB) (user_id bot_id : string) (channel_id : option string)
  : Response * DB :=
  match truthy channel_id with
  | None => (json 400 [("error", JStr "channel_id required")], db)
  | Some channel =>
      match bot_of_user db bot_id user_id with
      | None => (json 404 [("error", JStr "Bot not found")], db)
      | Some _ =>
          (json 200 [("success", JBool true);
                     ("message", JStr "Channel configured successfully");
                     ("bot_id", JStr bot_id);
                     ("channel_id", JStr channel)],
           with_bots db
             ((λ b, if decide (b_bot_id b = bot_id) then set_channel channel b else b)
                <$> bots db))
      end
  end.


(** ** Deleting and updating a file (files.ts) *)

Definition set_deleted (now : Z) (f : FileRow) : FileRow :=
  {| f_file_id := f_file_id f; f_user_id := f_user_id f; f_device_id := f_device_id f;
     f_folder_id := f_folder_id f; f_file_name := f_file_name f;
     f_file_path := f_file_path f; f_file_size := f_file_size f;
     f_mime_type := f_mime_type f; f_file_hash := f_file_hash f;
     f_chunk_count := f_chunk_count f; f_is_public := f_is_public f;
     f_public_title := f_public_title f; f_public_category := f_public_category f;
     f_is_deleted := true; f_created_at := f_created_at f;
     f_updated_at := now |}.

(** [UPDATE files SET is_deleted = 1, updated_at = ? WHERE file_id = ?]. *)
Definition mark_deleted (db : DB) (file_id : string) (now : Z) : DB :=
  with_files db
    ((λ f, if decide (f_file_id f = file_id) then set_deleted now f else f) <$> files db).

(** [DELETE /api/files/:file_id]: the soft delete. *)
Definition delete_file (db : DB) (user_id file_id : string) (env : Env) : Response * DB :=
  match file_of_user db file_id user_id with
  | None => (json 404 [("error", JStr "File not found")], db)
  | Some _ =>
      (json 200 [("success", JBool true); ("message", JStr "File deleted")],
       mark_deleted db file_id (date_now env `div` 1000))
  end.

(** A member of a JSON body: absent, [null], or a value. *)
Inductive Field (A : Type) : Type :=
  | Undefined
  | Null
  | Value (a : A).
Arguments Undefined {A}.
Arguments Null {A}.
Arguments Value {A} a.

(** Body of [PUT /api/files/:file_id], with strings and booleans where
    the web client sends them. *)
Record UpdateRequest := {
  p_file_name : Field string;
  p_folder_id : Field string;
  p_file_path : Field string;
  p_is_public : Field bool;
  p_public_title : Field string;
  p_public_category : Field string;
}.

(** The value bound to a parameter: [null] binds NULL. *)
Definition bound {A} (x : Field A) : option A :=
  match x with
  | Value a => Some a
  | _ => None
  end.

(** [x !== undefined ? [bound x] : nothing]. *)
Definition named {A} (x : Field A) : option (option A) :=
  match x with
  | Undefined => None
  | _ => Some (bound x)
  end.

(** The SET list that [updates] and [params] build: for each column
    the value it is set to, when it is named; [Some None] sets NULL. *)
Record Updates := {
  set_file_name : option (option string);
  set_folder_id : option (option string);
  set_file_path : option (option string);
  set_is_public : option bool;
  set_public_title : option (option string);
  set_public_category : option (option string);
}.

(** "Build update query". *)
Definition file_updates (db : DB) (user_id : string) (file : FileRow) (req : UpdateRequest)
  : Updates :=
  let finalFileName := default (f_file_name file) (truthy (bound (p_file_name req))) in
  {| set_file_name := named (p_file_name req);
     set_folder_id :=
       match p_folder_id req with
       | Undefined => None
       | x => Some (truthy (bound x))
       end;
     set_file_path :=
       match p_folder_id req with
       | Undefined => named (p_file_path req)
       | x =>
           match truthy (bound x) with
           | Some folder_id =>
               match folder_of_user db folder_id user_id with
               | Some folder => Some (Some (d_folder_path folder +:+ "/" +:+ finalFileName))
               | None => None
               end
           | None => Some (Some ("/" +:+ finalFileName))
           end
       end;
     set_is_public :=
       match p_is_public req with
       | Undefined => None
       | Null => Some false
       | Value b => Some b
       end;
     set_public_title := named (p_public_title req);
     set_public_category := named (p_public_category req) |}.

(** [updates.length === 0]. *)
Definition no_updates (u : Updates) : bool :=
  match set_file_name u, set_folder_id u, set_file_path u,
        set_is_public u, set_public_title u, set_public_category u with
  | None, None, None, None, None, None => true
  | _, _, _, _, _, _ => false
  end.

(** [file_name] and [file_path] are NOT NULL. *)
Definition sets_null (u : Updates) : bool :=
  match set_file_name u, set_file_path u with
  | Some None, _ | _, Some None => true
  | _, _ => false
  end.

Definition updated (u : Updates) (now : Z) (f : FileRow) : FileRow :=
  {| f_file_id := f_file_id f; f_user_id := f_user_id f; f_device_id := f_device_id f;
     f_folder_id := default (f_folder_id f) (set_folder_id u);
     f_file_name := default (f_file_name f) (mjoin (set_file_name u));
     f_file_path := default (f_file_path f) (mjoin (set_file_path u));
     f_file_size := f_file_size f;
     f_mime_type := f_mime_type f; f_file_hash := f_file_hash f;
     f_chunk_count := f_chunk_count f;
     f_is_public := default (f_is_public f) (set_is_public u);
     f_public_title := default (f_public_title f) (set_public_title u);
     f_public_category := default (f_public_category f) (set_public_category u);
     f_is_deleted := f_is_deleted f; f_created_at := f_created_at f;
     f_updated_at := now |}.

(** [PUT /api/files/:file_id]: rename, move, toggle public. *)
Definition update_file (db : DB) (user_id file_id : string) (req : UpdateRequest) (env : Env)
  : Response * DB :=
  match live_file_of_user db file_id user_id with
  | None => (json 404 [("error", JStr "File not found")], db)
  | Some file =>
      let folder_missing :=
        match p_folder_id req with
        | Value folder_id =>
            match folder_of_user db folder_id user_id with
            | Some _ => false
            | None => true
            end
        | _ => false
        end in
      if folder_missing then (json 404 [("error", JStr "Folder not found")], db)
      else
      let u := file_updates db user_id file req in
      if no_updates u then (json 400 [("error", JStr "No fields to update")], db)
      else if sets_null u then (json 500 [("error", JStr "Failed to update file")], db)
      else
        (json 200 [("success", JBool true); ("message", JStr "File updated")],
         with_files db
           ((λ f, if decide (f_file_id f = file_id)
                  then updated u (date_now env `div` 1000) f else f) <$> files db))
  end.

(** ** The v1 API: the single-request upload (routes/v1.ts)

    The route behind the split loop. It writes its chunk rows to a
    table [file_chunks] and marks the file in a column [status];
    schema.sql and the migrations create neither, so D1 raises an
    error for both statements. *)

(** Body of [POST /api/v1/files/upload]; [file_data] is the base64 text. *)
Record V1Request := {
  v_file_name : string;
  v_file_data : string;
  v_mime_type : option string;
  v_folder_id : option string;
}.

Section V1.
Context {pf : Platform}.
Variable chunk_size : Z.
Variable atob : string → Result bytes.
Variable sha256_hex : bytes → string.
(** The messages of the errors D1 raises for a table and for a column
    that do not exist. *)
Variable no_such_table : string.
Variable no_such_column : string.

(** [INSERT INTO file_chunks (...)]. *)
Definition insert_file_chunk (db : DB) (c : ChunkRow) : Result DB := Throw no_such_table.

(** [UPDATE files SET status = 'completed', updated_at = ? WHERE file_id = ?]. *)
Definition mark_completed (db : DB) (file_id : string) (now : Z) : Result DB :=
  Throw no_such_column.

(** The [catch] block. *)
Definition v1_failed (message : string) : Response :=
  json 500 [("error", JStr "Upload failed"); ("message", JStr message)].

(** "Upload chunks to Telegram": the loop, with [n] turns left and the
    next index [i]; [Some response] when a turn ends the request. *)
Fixpoint v1_send_chunks (db : DB) (tg : Telegram) (pool : list Bot) (file_id : string)
    (buffer : bytes) (now : Z) (i : Z) (n : nat) : option Response * DB * Telegram :=
  match n with
  | O => (None, db, tg)
  | S n' =>
      let chunkBuffer := chunk_at chunk_size buffer i in
      match select_bot pool i with
      | None => (Some (v1_failed (undefined_property "channel_id")), db, tg)
      | Some selectedBot =>
      match truthy (b_channel_id selectedBot) with
      | None =>
          (Some (json 400 [("error", JStr ("Bot " +:+ b_bot_id selectedBot
                                           +:+ " has no channel configured"))]), db, tg)
      | Some channel =>
      match Service.sendDocument tg (b_bot_token_enc selectedBot) channel chunkBuffer with
      | (Throw m, tg') => (Some (v1_failed m), db, tg')
      | (Ok (message_id, telegram_file_id), tg') =>
          let row :=
            {| c_chunk_id := chunk_id_of file_id i;
               c_file_id := file_id;
               c_chunk_index := i;
               c_chunk_size := Z.of_nat (length chunkBuffer);
               c_chunk_hash := sha256_hex chunkBuffer;
               c_bot_id := b_bot_id selectedBot;
               c_telegram_message_id := message_id;
               c_telegram_file_id := telegram_file_id;
               c_channel_id := channel;
               c_created_at := now |} in
          match insert_file_chunk db row with
          | Throw m => (Some (v1_failed m), db, tg')
          | Ok db' => v1_send_chunks db' tg' pool file_id buffer now (i + 1) n'
          end
      end
      end
      end
  end.

Definition json_field (name : string) (x : Field string) : list (string * Json) :=
  match x with
  | Undefined => []
  | Null => [(name, JNull)]
  | Value s => [(name, JStr s)]
  end.

(** [POST /api/v1/files/upload]. [can_write] is
    [hasPermission(apiKey.permissions, 'write')] and [project_folder]
    is [project.folder_id], both set by the API key middleware. *)
Definition v1_upload (db : DB) (tg : Telegram) (user_id : string) (can_write : bool)
    (project_folder : Field string) (req : V1Request) (env : Env)
  : Response * DB * Telegram :=
  if negb can_write then (json 403 [("error", JStr "Write permission required")], db, tg)
  else if bool_decide (v_file_name req = "" ∨ v_file_data req = "")
  then (json 400 [("error", JStr "file_name and file_data (base64) are required")], db, tg)
  else
  match atob (v_file_data req) with
  | Throw m => (v1_failed m, db, tg)
  | Ok buffer =>
  let file_size := Z.of_nat (length buffer) in
  let file_hash := sha256_hex buffer in
  match file_by_hash db user_id file_hash with
  | Some existing =>
      (json 200 [("file_id", JStr (f_file_id existing));
                 ("file_name", JStr (f_file_name existing));
                 ("duplicate", JBool true);
                 ("message", JStr "File already exists")], db, tg)
  | None =>
  let pool := healthy_bots db user_id in
  if bool_decide (pool = [])
  then (json 400 [("error",
                   JStr "No active bots configured. Set up a bot via the web panel first.")],
        db, tg)
  else
  let targetFolderId :=
    match truthy (v_folder_id req) with
    | Some folder_id => Value folder_id
    | None => project_folder
    end in
  let folder_missing :=
    match truthy (bound targetFolderId) with
    | Some folder_id =>
        match folder_of_user db folder_id user_id with
        | Some _ => false
        | None => true
        end
    | None => false
    end in
  if folder_missing then (json 404 [("error", JStr "Folder not found")], db, tg)
  else
  let file_id := "file_" +:+ pretty (date_now env) +:+ "_" +:+ random_text env in
  let chunk_count := chunk_count_of chunk_size file_size in
  let now := date_now env `div` 1000 in
  let mime := default "application/octet-stream" (truthy (v_mime_type req)) in
  let row :=
    {| f_file_id := file_id; f_user_id := user_id; f_device_id := None;
       f_folder_id := truthy (bound targetFolderId);
       f_file_name := v_file_name req; f_file_path := "/" +:+ v_file_name req;
       f_file_size := file_size; f_mime_type := Some mime;
       f_file_hash := file_hash; f_chunk_count := chunk_count;
       f_is_public := false; f_public_title := None; f_public_category := None;
       f_is_deleted := false; f_created_at := now; f_updated_at := now |} in
  match insert_file db row with
  | Throw m => (v1_failed m, db, tg)
  | Ok db1 =>
  match v1_send_chunks db1 tg pool file_id buffer now 0 (Z.to_nat chunk_count) with
  | (Some response, db2, tg2) => (response, db2, tg2)
  | (None, db2, tg2) =>
  match mark_completed db2 file_id now with
  | Throw m => (v1_failed m, db2, tg2)
  | Ok db3 =>
      ({| status := 201;
          headers := [("Content-Type", "application/json")];
          body := BJson (JObj ([("file_id", JStr file_id);
                                ("file_name", JStr (v_file_name req));
                                ("file_size", JNum file_size);
                                ("mime_type", JStr mime);
                                ("chunk_count", JNum chunk_count)]
                               ++ json_field "folder_id" targetFolderId
                               ++ [("status", JStr "completed");
                                   ("created_at", JNum now)])) |}, db3, tg2)
  end
  end
  end
  end
  end.

End V1.

(** The reply of the v1 upload to content the owner already has. *)
Definition v1_duplicate (existing : FileRow) : Response :=
  json 200 [("file_id", JStr (f_file_id existing));
            ("file_name", JStr (f_file_name existing));
            ("duplicate", JBool true);
            ("message", JStr "File already exists")].

(** *** Vocabulary for the routes above *)

Definition update_ok : Response :=
  json 200 [("success", JBool true); ("message", JStr "File updated")].

(** A body with none of the six fields. *)
Definition no_fields : UpdateRequest :=
  {| p_file_name := Undefined; p_folder_id := Undefined; p_file_path := Undefined;
     p_is_public := Undefined; p_public_title := Undefined;
     p_public_category := Undefined |}.

(** The columns no route changes after [upload/init]. *)
Definition same_content (f' f : FileRow) : Prop :=
  f_file_id f' = f_file_id f ∧ f_user_id f' = f_user_id f
  ∧ f_file_size f' = f_file_size f ∧ f_file_hash f' = f_file_hash f
  ∧ f_chunk_count f' = f_chunk_count f ∧ f_mime_type f' = f_mime_type f
  ∧ f_created_at f' = f_created_at f.


(** What the Bot API makes of a token. *)
Definition standing (tg : Telegram) (botToken : string) : Health :=
  match tg_users tg !! botToken with
  | None => banned
  | Some u => if u_is_bot u then healthy else unknown
  end.

Definition health_reply (bot_id : string) (health : Health) (now : Z) : Response :=
  json 200 [("bot_id", JStr bot_id);
            ("health_status", JStr (health_text health));
            ("last_health_check", JNum now)].

(** The reply 503 of the read routes. *)
Definition bots_idle : Response :=
  json 503 [("error", JStr "File chunks found but bot is inactive or channel not configured");
            ("message", JStr "Please ensure your bot is active and has a channel configured")].

Definition stream_ok (file : FileRow) (content : bytes) : Response :=
  {| status := 200;
     headers := [("Content-Type", normalize (octet_stream (f_mime_type file)));
                 ("Content-Length", pretty (Z.of_nat (length content)));
                 ("Accept-Ranges", "bytes")];
     body := BBytes content |}.

Definition channel_set (bot_id channel : string) : Response :=
  json 200 [("success", JBool true);
            ("message", JStr "Channel configured successfully");
            ("bot_id", JStr bot_id);
            ("channel_id", JStr channel)].

Definition complete_ok (file_id : string) : Response :=
  json 200 [("success", JBool true);
            ("file_id", JStr file_id);
            ("message", JStr "Upload complete")].

(** A row [download] can serve: its bot is a bot account, its message
    is still in its channel with the data of the chunk, and its stored
    [file_id] either still resolves to that data or is unknown to the
    Bot API. The references of the row were issued before those the
    Bot API will issue next. *)
Definition recoverable (tg : Telegram) (r : ChunkOfBot) (data : bytes) : Prop :=
  blank (j_bot_token_enc r) = false
  ∧ (∃ u, tg_users tg !! j_bot_token_enc r = Some u ∧ u_is_bot u = true)
  ∧ j_stored_channel_id r ≠ "" ∧ j_stored_channel_id r ∈ tg_chats tg
  ∧ j_telegram_message_id r ≠ 0 ∧ j_telegram_message_id r < tg_next tg
  ∧ tg_messages tg !! (j_stored_channel_id r, j_telegram_message_id r) = Some (Some data)
  ∧ j_telegram_file_id r ≠ ""
  ∧ (∀ k, 0 ≤ k → j_telegram_file_id r ≠ "BQAC" +:+ pretty (tg_next tg + k))
  ∧ (tg_files tg !! j_telegram_file_id r = None
     ∨ tg_files tg !! j_telegram_file_id r = Some (kept data)).

(** The separator of [chunk_id], and the texts that do not hold it. *)
Definition underscore : Ascii.ascii := "_"%char.

Fixpoint no_underscore (s : string) : bool :=
  match s with
  | EmptyString => true
  | String a s' => negb (bool_decide (a = underscore)) && no_underscore s'
  end.

(** ** A small deployment

    One owner with two bots, a chunk size of 4 bytes and a payload of
    10 bytes, uploaded through the routes. The decoder reads the text
    of [chunk_data] as the bytes themselves. *)

Module Example.

(** Error texts for the runs below. The statements hold for every
    [Platform]; none depends on the wording. *)
#[export] Instance platform : Platform :=
  {| unique_failed columns :=
       "D1_ERROR: UNIQUE constraint failed: " +:+ columns +:+ ": SQLITE_CONSTRAINT";
     foreign_key_failed := "D1_ERROR: FOREIGN KEY constraint failed: SQLITE_CONSTRAINT";
     invalid_header_value line :=
       {| e_message := "Invalid header value.";
          e_stack := "TypeError: Invalid header value. (files.ts:" +:+ pretty line +:+ ")" |};
     offset_out_of_bounds line :=
       {| e_message := "offset is out of bounds";
          e_stack := "RangeError: offset is out of bounds (files.ts:" +:+ pretty line +:+ ")" |};
     undefined_property name :=
       "Cannot read properties of undefined (reading '" +:+ name +:+ "')" |}.

Definition raw_atob (s : string) : Result bytes := Ok (String.list_byte_of_string s).

Definition alice : string := "user_1".

Definition account (n : Z) (name : string) : TelegramUser :=
  {| u_id := n; u_is_bot := true; u_first_name := name; u_username := Some name |}.

Definition bot1 : Bot :=
  {| b_bot_id := "bot_1"; b_user_id := alice; b_bot_token_enc := "111:AAA";
     b_channel_id := Some "-1001"; b_is_active := true;
     b_last_health_check := Some 1700000200; b_health_status := healthy |}.

Definition bot2 : Bot :=
  {| b_bot_id := "bot_2"; b_user_id := alice; b_bot_token_enc := "222:BBB";
     b_channel_id := Some "-1002"; b_is_active := true;
     b_last_health_check := Some 1700000100; b_health_status := healthy |}.

Definition tg0 : Telegram :=
  {| tg_users := {[ "111:AAA" := account 111 "one_bot"; "222:BBB" := account 222 "two_bot" ]};
     tg_chats := ["-1001"; "-1002"];
     tg_files := ∅; tg_messages := ∅; tg_next := 1 |}.

Definition db0 : DB :=
  {| bots := [bot2; bot1]; folders := []; files := []; chunks := []; devices := ["device_1"] |}.

Definition P : bytes := String.list_byte_of_string "abcdefghij".

Definition init_req (size : Z) : InitRequest :=
  {| i_file_name := "notes.txt"; i_file_size := size; i_mime_type := Some "text/plain";
     i_file_hash := "c0ffee"; i_device_id := None; i_file_path := None;
     i_folder_id := None; i_is_public := false; i_public_title := None;
     i_public_category := None |}.

(** The same request for 10 bytes from a device that is not registered. *)
Definition unknown_device_req : InitRequest :=
  {| i_file_name := "notes.txt"; i_file_size := 10; i_mime_type := Some "text/plain";
     i_file_hash := "c0ffee"; i_device_id := Some "device_9"; i_file_path := None;
     i_folder_id := None; i_is_public := false; i_public_title := None;
     i_public_category := None |}.

Definition env0 : Env := {| date_now := 1700000300000; random_text := "k3j9x1" |}.

Definition fid : string := "file_1700000300000_k3j9x1".

Definition chunk_req (i : Z) (data : string) : ChunkRequest :=
  {| q_file_id := fid; q_chunk_index := Some i; q_chunk_data := data; q_chunk_hash := "h" |}.

(** The upload: init, three chunks, complete. *)
Definition after_init : Response * DB := upload_init 4 db0 alice (init_req 10) env0.
Definition after_chunk0 : Response * DB * Telegram :=
  upload_chunk raw_atob after_init.2 tg0 alice (chunk_req 0 "abcd") env0.
Definition after_chunk1 : Response * DB * Telegram :=
  upload_chunk raw_atob after_chunk0.1.2 after_chunk0.2 alice (chunk_req 1 "efgh") env0.
Definition after_chunk2 : Response * DB * Telegram :=
  upload_chunk raw_atob after_chunk1.1.2 after_chunk1.2 alice (chunk_req 2 "ij") env0.
Definition after_complete : Response * DB :=
  upload_complete after_chunk2.1.2 alice fid env0.

Definition db_stored : DB := Eval vm_compute in after_complete.2.
Definition tg_stored : Telegram := after_chunk2.2.

Definition the_file : FileRow :=
  {| f_file_id := fid; f_user_id := alice; f_device_id := None; f_folder_id := None;
     f_file_name := "notes.txt"; f_file_path := "/notes.txt"; f_file_size := 10;
     f_mime_type := Some "text/plain"; f_file_hash := "c0ffee"; f_chunk_count := 3;
     f_is_public := false; f_public_title := None; f_public_category := None;
     f_is_deleted := false; f_created_at := 1700000300; f_updated_at := 1700000300 |}.

Definition no_cache : string → option Response := λ _, None.

(** The same owner with one bot only. *)
Definition db_single : DB :=
  {| bots := [bot1]; folders := []; files := []; chunks := []; devices := [] |}.

(** The remote side after it has stopped resolving the [file_id] of
    chunk 0; the message that carries the chunk is still there. *)
Definition tg_stale : Telegram :=
  {| tg_users := tg_users tg_stored; tg_chats := tg_chats tg_stored;
     tg_files := delete "BQAC1" (tg_files tg_stored);
     tg_messages := tg_messages tg_stored; tg_next := tg_next tg_stored |}.

(** The three chunks of [P]. *)
Definition parts_of_P : list bytes :=
  [String.list_byte_of_string "abcd"; String.list_byte_of_string "efgh";
   String.list_byte_of_string "ij"].

(** The encoder that [raw_atob] undoes, and a stand-in for the digest. *)
Definition raw_btoa (b : bytes) : string := String.string_of_list_byte b.
Definition digest (b : bytes) : string := "sha256:" +:+ String.string_of_list_byte b.

(** A later request. *)
Definition env1 : Env := {| date_now := 1700000400000; random_text := "zz81qp" |}.


(** The first row of the chunk query of the stored file. *)
Definition row0 : ChunkOfBot :=
  {| j_chunk := chunk_row (chunk_req 0 "abcd") env0 0 bot1 "-1001"
                  (String.list_byte_of_string "abcd") 1 "BQAC1";
     j_bot := bot1 |}.

(** A folder of the owner, and the deployment with it. *)
Definition documents : Folder :=
  {| d_folder_id := "folder_1"; d_user_id := alice; d_folder_path := "/Documents" |}.

Definition db_foldered : DB :=
  {| bots := bots db_stored; folders := [documents];
     files := files db_stored; chunks := chunks db_stored; devices := devices db_stored |}.

(** Both bots removed. *)
Definition db_idle : DB := remove_bot (remove_bot db_stored "bot_1") "bot_2".

(** A bot without a channel, alone with the file row of an upload that
    has not sent a chunk yet. *)
Definition bot1_bare : Bot :=
  {| b_bot_id := "bot_1"; b_user_id := alice; b_bot_token_enc := "111:AAA";
     b_channel_id := None; b_is_active := true;
     b_last_health_check := Some 1700000200; b_health_status := healthy |}.

Definition db_bare : DB :=
  {| bots := [bot1_bare]; folders := []; files := [the_file]; chunks := []; devices := [] |}.

(** The throttle after each event of a run in which the second call
    enters after the first was sent. *)
Definition quiet1 : Throttle.State :=
  Eval vm_compute in
    default Throttle.initial (Throttle.run [Throttle.Enter 1 "111:AAA" 10000]).
Definition quiet2 : Throttle.State :=
  Eval vm_compute in
    default Throttle.initial
      (Throttle.run [Throttle.Enter 1 "111:AAA" 10000; Throttle.Enter 2 "111:AAA" 11000]).
Definition quiet3 : Throttle.State :=
  Eval vm_compute in
    default Throttle.initial
      (Throttle.run [Throttle.Enter 1 "111:AAA" 10000; Throttle.Enter 2 "111:AAA" 11000;
                     Throttle.Wake 2 13000]).

(** The stored file, deleted. *)
Definition db_deleted : DB := Eval vm_compute in (delete_file db_stored alice fid env1).2.

(** A request of the v1 upload for [P], and the error text of D1. *)
Definition v1_req : V1Request :=
  {| v_file_name := "notes.txt"; v_file_data := "abcdefghij";
     v_mime_type := Some "text/plain"; v_folder_id := None |}.
Definition no_table : string := "D1_ERROR: no such table: file_chunks".
Definition no_column : string := "D1_ERROR: no such column: status".

(** The same upload with the chunks posted in the order 1, 0, 2, as
    the parallel requests of the web client may arrive. *)
Definition shuffled1 : Response * DB * Telegram :=
  upload_chunk raw_atob after_init.2 tg0 alice (chunk_req 1 "efgh") env0.
Definition shuffled0 : Response * DB * Telegram :=
  upload_chunk raw_atob shuffled1.1.2 shuffled1.2 alice (chunk_req 0 "abcd") env0.
Definition shuffled2 : Response * DB * Telegram :=
  upload_chunk raw_atob shuffled0.1.2 shuffled0.2 alice (chunk_req 2 "ij") env0.

Definition db_shuffled : DB :=
  Eval vm_compute in (upload_complete shuffled2.1.2 alice fid env0).2.
Definition tg_shuffled : Telegram := Eval vm_compute in shuffled2.2.

(** The rows of the chunk query of that file, by index. *)
Definition shuffled_rows : list ChunkOfBot :=
  [ {| j_chunk := chunk_row (chunk_req 0 "abcd") env0 0 bot1 "-1001"
                    (String.list_byte_of_string "abcd") 2 "BQAC2";
       j_bot := bot1 |};
    {| j_chunk := chunk_row (chunk_req 1 "efgh") env0 1 bot2 "-1002"
                    (String.list_byte_of_string "efgh") 1 "BQAC1";
       j_bot := bot2 |};
    {| j_chunk := chunk_row (chunk_req 2 "ij") env0 2 bot1 "-1001"
                    (String.list_byte_of_string "ij") 3 "BQAC3";
       j_bot := bot1 |} ].

(** The payload stored once more, under a type that holds a line
    feed: [upload/init] takes any string. *)
Definition line_feed : string := String "010"%char "".

Definition odd_type : string := "text/plain" +:+ line_feed +:+ "x".

Definition odd_req : InitRequest :=
  {| i_file_name := "notes.txt"; i_file_size := 10; i_mime_type := Some odd_type;
     i_file_hash := "c0ffee"; i_device_id := None; i_file_path := None;
     i_folder_id := None; i_is_public := false; i_public_title := None;
     i_public_category := None |}.

Definition odd_chunk0 : Response * DB * Telegram :=
  upload_chunk raw_atob (upload_init 4 db0 alice odd_req env0).2 tg0 alice
    (chunk_req 0 "abcd") env0.
Definition odd_chunk1 : Response * DB * Telegram :=
  upload_chunk raw_atob odd_chunk0.1.2 odd_chunk0.2 alice (chunk_req 1 "efgh") env0.
Definition odd_chunk2 : Response * DB * Telegram :=
  upload_chunk raw_atob odd_chunk1.1.2 odd_chunk1.2 alice (chunk_req 2 "ij") env0.

Definition db_odd : DB :=
  Eval vm_compute in (upload_complete odd_chunk2.1.2 alice fid env0).2.
Definition tg_odd : Telegram := Eval vm_compute in odd_chunk2.2.

(** The payload stored under any type: the database and the remote
    side after init, the three chunks and complete. *)
Definition typed_req (type : string) : InitRequest :=
  {| i_file_name := "notes.txt"; i_file_size := 10; i_mime_type := Some type;
     i_file_hash := "c0ffee"; i_device_id := None; i_file_path := None;
     i_folder_id := None; i_is_public := false; i_public_title := None;
     i_public_category := None |}.

Definition stored_as (type : string) : DB * Telegram :=
  let c0 := upload_chunk raw_atob (upload_init 4 db0 alice (typed_req type) env0).2 tg0 alice
              (chunk_req 0 "abcd") env0 in
  let c1 := upload_chunk raw_atob c0.1.2 c0.2 alice (chunk_req 1 "efgh") env0 in
  let c2 := upload_chunk raw_atob c1.1.2 c1.2 alice (chunk_req 2 "ij") env0 in
  ((upload_complete c2.1.2 alice fid env0).2, c2.2).

Definition carriage_return : string := String "013"%char "".
Definition nul : string := String "000"%char "".

(** A new name with a line feed. *)
Definition odd_name : string := "a" +:+ line_feed +:+ "b.txt".

Definition odd_rename : UpdateRequest :=
  {| p_file_name := Value odd_name; p_folder_id := Undefined;
     p_file_path := Undefined; p_is_public := Undefined;
     p_public_title := Undefined; p_public_category := Undefined |}.

Definition odd_file : FileRow :=
  {| f_file_id := fid; f_user_id := alice; f_device_id := None; f_folder_id := None;
     f_file_name := "notes.txt"; f_file_path := "/notes.txt"; f_file_size := 10;
     f_mime_type := Some odd_type; f_file_hash := "c0ffee"; f_chunk_count := 3;
     f_is_public := false; f_public_title := None; f_public_category := None;
     f_is_deleted := false; f_created_at := 1700000300; f_updated_at := 1700000300 |}.

End Example.

(** * Properties *)

(** Replace a closed term of the goal by its value. *)
Ltac evaluate t := let v := eval vm_compute in t in change t with v.

(** *** Facts about the primitives *)

Section JsFacts.
Context {A : Type}.
Implicit Types (l dst src : list A) (parts : list (list A)).

Lemma slice_in_range l (a b : Z) :
  0 ≤ a → a ≤ b → b ≤ Z.of_nat (length l) →
  slice l a b = take (Z.to_nat (b - a)) (drop (Z.to_nat a) l).
Proof.
  intros Ha Hab Hb. unfold slice, rel_index.
  destruct (Z.ltb_spec a 0); [lia|].
  destruct (Z.ltb_spec b 0); [lia|].
  by rewrite !Z.min_l by lia.
Qed.

Lemma slice_length l (a b : Z) :
  0 ≤ a → a ≤ b → b ≤ Z.of_nat (length l) →
  Z.of_nat (length (slice l a b)) = b - a.
Proof.
  intros Ha Hab Hb. rewrite slice_in_range by done.
  rewrite length_take, length_drop. lia.
Qed.

Lemma total_length_from (n : nat) parts :
  foldl (λ sum p, sum + length p)%nat n parts = (n + length (concat parts))%nat.
Proof.
  revert n. induction parts as [|p parts IH]; intros n; simpl.
  - lia.
  - rewrite IH, length_app. lia.
Qed.

Lemma total_length_concat parts : total_length parts = length (concat parts).
Proof. unfold total_length. by rewrite total_length_from. Qed.

Lemma copy_parts_spec parts : ∀ (done_ rest : list A),
  length rest = length (concat parts) →
  copy_parts (done_ ++ rest) (length done_) parts = Some (done_ ++ concat parts).
Proof.
  induction parts as [|p parts IH]; intros done_ rest Hlen; simpl in *.
  - apply nil_length_inv in Hlen. by subst.
  - rewrite length_app in Hlen.
    unfold typed_set. rewrite length_app.
    destruct (decide _) as [_|Hbad]; [|lia].
    rewrite take_app_length.
    rewrite drop_app_ge by lia.
    replace (length done_ + length p - length done_)%nat with (length p) by lia.
    rewrite (assoc_L (++) done_ p).
    replace (length done_ + length p)%nat with (length (done_ ++ p))
      by (rewrite length_app; lia).
    rewrite IH by (rewrite length_drop; lia).
    by rewrite (assoc_L (++)).
Qed.

End JsFacts.

Lemma combine_concat (parts : list bytes) : combine parts = Some (concat parts).
Proof.
  unfold combine.
  apply (copy_parts_spec parts [] (replicate (total_length parts) Byte.x00)).
  by rewrite length_replicate, total_length_concat.
Qed.

(** *** The split loop *)

Section Split.
Variable chunk_size : Z.
Hypothesis chunk_size_pos : 0 < chunk_size.

Lemma ceil_div_bounds (a : Z) :
  chunk_size * (ceil_div a chunk_size - 1) < a ≤ chunk_size * ceil_div a chunk_size.
Proof.
  unfold ceil_div.
  pose proof (Z.div_mod (- a) chunk_size ltac:(lia)) as Hdm.
  pose proof (Z.mod_pos_bound (- a) chunk_size chunk_size_pos) as Hm.
  nia.
Qed.

Lemma ceil_div_nonneg (a : Z) : 0 ≤ a → 0 ≤ ceil_div a chunk_size.
Proof. intros Ha. pose proof (ceil_div_bounds a). nia. Qed.

Lemma ceil_div_pos (a : Z) : 0 < a → 0 < ceil_div a chunk_size.
Proof. intros Ha. pose proof (ceil_div_bounds a). nia. Qed.

Lemma chunk_at_take_drop (buffer : bytes) (i : Z) :
  0 ≤ i →
  chunk_at chunk_size buffer i
  = take (Z.to_nat chunk_size) (drop (Z.to_nat (i * chunk_size)) buffer).
Proof.
  intros Hi. unfold chunk_at, slice, rel_index.
  set (len := Z.of_nat (length buffer)).
  destruct (Z.ltb_spec (i * chunk_size) 0); [nia|].
  destruct (Z.ltb_spec (Z.min (i * chunk_size + chunk_size) len) 0); [lia|].
  destruct (Z.le_gt_cases (i * chunk_size) len) as [Hin|Hout].
  - rewrite (Z.min_l (i * chunk_size)) by lia.
    apply list_eq. intros j.
    rewrite !lookup_take, !lookup_drop.
    repeat case_decide; try done; try lia.
    symmetry. apply lookup_ge_None. lia.
  - rewrite (Z.min_r (i * chunk_size)) by lia.
    rewrite !drop_ge by lia. by rewrite !take_nil.
Qed.

Lemma chunk_at_length (buffer : bytes) (i : Z) :
  0 ≤ i →
  Z.of_nat (length (chunk_at chunk_size buffer i))
  = Z.max 0 (Z.min chunk_size (Z.of_nat (length buffer) - i * chunk_size)).
Proof.
  intros Hi. rewrite chunk_at_take_drop by done.
  rewrite length_take, length_drop. nia.
Qed.

Lemma split_loop_length buffer i n : length (split_loop chunk_size buffer i n) = n.
Proof. revert i. induction n as [|n IH]; intros i; simpl; [done|]. by rewrite IH. Qed.

Lemma split_loop_lookup buffer (i : Z) (n j : nat) :
  (j < n)%nat →
  split_loop chunk_size buffer i n !! j = Some (chunk_at chunk_size buffer (i + Z.of_nat j)).
Proof.
  revert i j. induction n as [|n IH]; intros i j Hj; [lia|].
  destruct j as [|j]; simpl.
  - f_equal. f_equal. lia.
  - rewrite IH by lia. f_equal. f_equal. lia.
Qed.

Lemma split_loop_concat buffer (i : Z) (n : nat) :
  0 ≤ i →
  concat (split_loop chunk_size buffer i n)
  = take (n * Z.to_nat chunk_size) (drop (Z.to_nat (i * chunk_size)) buffer).
Proof.
  revert i. induction n as [|n IH]; intros i Hi; simpl.
  - by rewrite take_0.
  - rewrite IH by lia. rewrite chunk_at_take_drop by done.
    replace (Z.to_nat ((i + 1) * chunk_size))
      with (Z.to_nat (i * chunk_size) + Z.to_nat chunk_size)%nat by nia.
    rewrite <- drop_drop. by rewrite take_take_drop.
Qed.

Lemma split_chunks_concat buffer : concat (split_chunks chunk_size buffer) = buffer.
Proof.
  unfold split_chunks, chunk_count_of.
  rewrite split_loop_concat by lia. simpl. rewrite drop_0.
  apply take_ge.
  pose proof (ceil_div_bounds (Z.of_nat (length buffer))) as [_ Hhi].
  pose proof (ceil_div_nonneg (Z.of_nat (length buffer)) ltac:(lia)).
  nia.
Qed.

Lemma split_chunks_length buffer :
  Z.of_nat (length (split_chunks chunk_size buffer))
  = chunk_count_of chunk_size (Z.of_nat (length buffer)).
Proof.
  unfold split_chunks. rewrite split_loop_length.
  pose proof (ceil_div_nonneg (Z.of_nat (length buffer)) ltac:(lia)).
  unfold chunk_count_of. lia.
Qed.

Lemma split_chunks_lookup buffer (j : nat) :
  Z.of_nat j < chunk_count_of chunk_size (Z.of_nat (length buffer)) →
  split_chunks chunk_size buffer !! j = Some (chunk_at chunk_size buffer (Z.of_nat j)).
Proof.
  intros Hj. unfold split_chunks. rewrite split_loop_lookup by lia.
  f_equal.
Qed.

(** Every chunk but the last is full, the last holds the remainder,
    and no chunk is empty. *)
Lemma split_chunks_sizes buffer (j : nat) c :
  split_chunks chunk_size buffer !! j = Some c →
  let n := chunk_count_of chunk_size (Z.of_nat (length buffer)) in
  Z.of_nat (length c)
  = (if decide (Z.of_nat j = n - 1)
     then Z.of_nat (length buffer) - chunk_size * (n - 1)
     else chunk_size)
  ∧ 0 < Z.of_nat (length c) ≤ chunk_size.
Proof.
  intros Hc n.
  assert (Z.of_nat j < n) as Hj.
  { apply lookup_lt_Some in Hc. unfold n. rewrite <- split_chunks_length. lia. }
  rewrite split_chunks_lookup in Hc by done. injection Hc as <-.
  rewrite chunk_at_length by lia.
  pose proof (ceil_div_bounds (Z.of_nat (length buffer))) as Hb.
  fold (chunk_count_of chunk_size (Z.of_nat (length buffer))) in Hb. fold n in Hb.
  case_decide; split; nia.
Qed.

End Split.

(** *** ORDER BY *)

Section OrderByFacts.
Context {A : Type} (le : A → A → bool).
Hypothesis le_total : ∀ x y, le x y = false → le y x = true.

Lemma insert_sorted_Permutation x l : insert_sorted le x l ≡ₚ x :: l.
Proof.
  induction l as [|y l IH]; simpl; [done|].
  destruct (le x y); [done|]. rewrite IH. apply Permutation_swap.
Qed.

Lemma order_by_Permutation l : order_by le l ≡ₚ l.
Proof.
  induction l as [|x l IH]; simpl; [done|].
  by rewrite insert_sorted_Permutation, IH.
Qed.

Lemma insert_sorted_Sorted x l :
  Sorted (λ a b, le a b = true) l → Sorted (λ a b, le a b = true) (insert_sorted le x l).
Proof.
  induction 1 as [|y l Hl IH Hhd]; simpl.
  - by repeat constructor.
  - destruct (le x y) eqn:Hxy.
    + constructor; [by constructor|]. by constructor.
    + constructor; [done|].
      destruct Hhd as [|z l Hyz]; simpl.
      * constructor. by apply le_total.
      * destruct (le x z); constructor; [by apply le_total|done].
Qed.

Lemma order_by_Sorted l : Sorted (λ a b, le a b = true) (order_by le l).
Proof.
  induction l as [|x l IH]; simpl; [constructor|].
  by apply insert_sorted_Sorted.
Qed.
End OrderByFacts.

Lemma health_check_desc_total a b :
  health_check_desc a b = false → health_check_desc b a = true.
Proof.
  unfold health_check_desc.
  destruct (b_last_health_check a), (b_last_health_check b); try done.
  intros H%Z.leb_gt. apply Z.leb_le. lia.
Qed.

(** *** The Range header *)

Lemma string_app_cons a s t : String a s +:+ t = String a (s +:+ t).
Proof. done. Qed.

Lemma string_app_nil_l t : "" +:+ t = t.
Proof. done. Qed.

Lemma strip_prefix_spec p s r : strip_prefix p s = Some r ↔ s = p +:+ r.
Proof.
  revert s. induction p as [|a p IH]; intros s; simpl.
  - rewrite string_app_nil_l. split; congruence.
  - rewrite string_app_cons. destruct s as [|b s]; [split; congruence|].
    case_decide as Hab.
    + subst. rewrite IH. split; [congruence|]. by intros [= ->].
    + split; [done|]. intros [= ? ?]. congruence.
Qed.

Lemma span_digits_app ds rest :
  all_digits ds = true → digit_free_head rest = true →
  span_digits (ds +:+ rest) = (ds, rest).
Proof.
  intros Hds Hrest. induction ds as [|a ds IH]; simpl in *.
  - rewrite string_app_nil_l. destruct rest as [|b rest]; simpl in *; [done|].
    by destruct (is_digit b).
  - apply andb_true_iff in Hds as [-> Hds]. by rewrite IH.
Qed.

Lemma span_digits_inv s ds rest :
  span_digits s = (ds, rest) →
  s = ds +:+ rest ∧ all_digits ds = true ∧ digit_free_head rest = true.
Proof.
  revert ds rest. induction s as [|a s IH]; intros ds rest; simpl.
  - by intros [= <- <-].
  - destruct (is_digit a) eqn:Ha.
    + destruct (span_digits s) as [ds' rest'] eqn:Hs.
      intros [= <- <-]. destruct (IH _ _ eq_refl) as (-> & Hd & Hr).
      simpl. by rewrite Ha, Hd.
    + intros [= <- <-]. simpl. by rewrite Ha.
Qed.

Lemma dash_not_digit : is_digit "-"%char = false.
Proof. done. Qed.

Lemma match_here_spec s g1 g2 : match_here s = Some (g1, g2) ↔ pattern_at s g1 g2.
Proof.
  unfold match_here, pattern_at. split.
  - destruct (strip_prefix "bytes=" s) as [s1|] eqn:Hp; [|done].
    apply strip_prefix_spec in Hp as ->.
    destruct (span_digits s1) as [ds s2] eqn:H1.
    apply span_digits_inv in H1 as (-> & Hds & _).
    case_decide as Hne; [done|].
    destruct s2 as [|a s3]; [done|].
    case_decide as Ha; [|done]. subst a.
    destruct (span_digits s3) as [ds2 rest] eqn:H2.
    apply span_digits_inv in H2 as (-> & Hds2 & Hrest).
    intros [= <- <-]. exists rest. done.
  - intros (rest & -> & Hne & Hd1 & Hd2 & Hrest).
    rewrite (proj2 (strip_prefix_spec "bytes=" _ (g1 +:+ "-" +:+ g2 +:+ rest)) eq_refl).
    rewrite (span_digits_app g1 ("-" +:+ g2 +:+ rest)) by done.
    rewrite decide_False by done.
    change ("-" +:+ g2 +:+ rest) with (String "-"%char (g2 +:+ rest)).
    cbv iota. rewrite decide_True by done.
    by rewrite (span_digits_app g2 rest).
Qed.

Lemma match_here_None s : match_here s = None ↔ ∀ g1 g2, ¬ pattern_at s g1 g2.
Proof.
  split.
  - intros Hn g1 g2 Hp. apply match_here_spec in Hp. congruence.
  - intros Hn. destruct (match_here s) as [[g1 g2]|] eqn:Hm; [|done].
    apply match_here_spec in Hm. by destruct (Hn g1 g2).
Qed.


Lemma range_match_unfold h :
  range_match h
  = match match_here h with
    | Some groups => Some groups
    | None => match h with
              | EmptyString => None
              | String _ rest => range_match rest
              end
    end.
Proof. by destruct h. Qed.


(** [parseInt] reads back what the template string prints. *)

Lemma parseInt_from_acc acc s :
  parseInt_from acc s = acc * 10 ^ Z.of_nat (String.length s) + parseInt_from 0 s.
Proof.
  revert acc. induction s as [|a s IH]; intros acc.
  - simpl. lia.
  - cbn [parseInt_from String.length]. rewrite IH, (IH (10 * 0 + digit_value a)).
    rewrite Nat2Z.inj_succ, Z.pow_succ_r by lia. lia.
Qed.

Lemma pretty_N_char_digit (d : N) :
  (d < 10)%N →
  is_digit (pretty_N_char d) = true ∧ digit_value (pretty_N_char d) = Z.of_N d.
Proof.
  intros Hd.
  assert (d = 0 ∨ d = 1 ∨ d = 2 ∨ d = 3 ∨ d = 4 ∨ d = 5
          ∨ d = 6 ∨ d = 7 ∨ d = 8 ∨ d = 9)%N as Hcases by lia.
  repeat destruct Hcases as [->|Hcases]; try subst d; done.
Qed.

Lemma pretty_N_go_digits (x : N) : ∀ s,
  (all_digits s = true → all_digits (pretty_N_go x s) = true)
  ∧ parseInt_from 0 (pretty_N_go x s)
    = Z.of_N x * 10 ^ Z.of_nat (String.length s) + parseInt_from 0 s.
Proof.
  induction (N.lt_wf_0 x) as [x _ IH]; intros s.
  destruct (decide (x = 0)%N) as [->|Hx].
  - rewrite pretty_N_go_0. split; [done|]. change (Z.of_N 0) with 0. lia.
  - rewrite pretty_N_go_step by lia.
    destruct (pretty_N_char_digit (x `mod` 10)%N) as [Hd Hv].
    { apply N.mod_lt. lia. }
    destruct (IH (x `div` 10)%N ltac:(apply N.div_lt; lia)
                (String (pretty_N_char (x `mod` 10)) s)) as [Hall Hval].
    split.
    + intros Hs. apply Hall. simpl. by rewrite Hd, Hs.
    + rewrite Hval. cbn [parseInt_from String.length].
      rewrite (parseInt_from_acc (10 * 0 + _)), Hv.
      rewrite Nat2Z.inj_succ, Z.pow_succ_r by lia.
      pose proof (N.div_mod x 10 ltac:(lia)) as Hdm.
      rewrite !N2Z.inj_div, !N2Z.inj_mod in *.
      assert (Z.of_N x = 10 * (Z.of_N x `div` 10) + Z.of_N x `mod` 10) as Hx'
        by (apply Z.div_mod; lia).
      change (Z.of_N 10) with 10. rewrite Hx' at 3. ring.
Qed.

Lemma pretty_N_go_nonempty (x : N) s : (0 < x)%N → pretty_N_go x s ≠ "".
Proof.
  revert s. induction (N.lt_wf_0 x) as [x _ IH]; intros s Hx.
  rewrite pretty_N_go_step by done.
  destruct (decide (x `div` 10 = 0)%N) as [->|Hd].
  - by rewrite pretty_N_go_0.
  - apply IH; [apply N.div_lt; lia|]. by apply N.neq_0_lt_0.
Qed.

Lemma pretty_nonneg_digits (z : Z) :
  0 ≤ z →
  all_digits (pretty z) = true ∧ pretty z ≠ "" ∧ parseInt (pretty z) = z.
Proof.
  intros Hz. destruct z as [|p|p]; [done| |lia].
  unfold pretty, pretty_Z, pretty, pretty_positive, pretty, pretty_N.
  rewrite decide_False by done.
  destruct (pretty_N_go_digits (N.pos p) "") as [Hall Hval].
  split_and!.
  - by apply Hall.
  - by apply pretty_N_go_nonempty.
  - unfold parseInt. rewrite Hval. simpl. lia.
Qed.

(** The header [bytes=a-b] parses to [(a, min(b, fileSize - 1))]. *)
Lemma parseRange_bytes (a b fileSize : Z) :
  0 ≤ a → 0 ≤ b →
  parseRange ("bytes=" +:+ pretty a +:+ "-" +:+ pretty b) fileSize
  = (a, Z.min b (fileSize - 1)).
Proof.
  intros Ha Hb.
  destruct (pretty_nonneg_digits a Ha) as (Hda & Hna & Hva).
  destruct (pretty_nonneg_digits b Hb) as (Hdb & Hnb & Hvb).
  unfold parseRange.
  assert (range_match ("bytes=" +:+ pretty a +:+ "-" +:+ pretty b)
          = Some (pretty a, pretty b)) as ->.
  { rewrite range_match_unfold.
    rewrite (proj2 (match_here_spec _ (pretty a) (pretty b))); [done|].
    exists "". split_and!; try done.
    f_equal. f_equal. f_equal. clear. induction (pretty b); [done|].
    rewrite string_app_cons. by f_equal. }
  rewrite decide_False by done. by rewrite Hva, Hvb.
Qed.

Lemma string_app_nil_r (s : string) : s +:+ "" = s.
Proof. induction s; [done|]. rewrite string_app_cons. by f_equal. Qed.



(** *** The order of the chunk query *)

(** A list sorted by a key and a rearrangement of it whose keys
    increase strictly are the same list. *)
Lemma sorted_by_key_unique {A} (key : A → Z) (l2 : list A) : ∀ l1,
  Sorted (λ a b, (key a <=? key b) = true) l1 →
  StronglySorted (λ a b, key a < key b) l2 →
  l1 ≡ₚ l2 → l1 = l2.
Proof.
  induction l2 as [|x l2 IH]; intros l1 Hs1 Hs2 Hperm.
  - by apply Permutation_nil_r in Hperm.
  - destruct l1 as [|h t]; [by apply Permutation_nil_cons in Hperm|].
    apply StronglySorted_inv in Hs2 as [Hs2 Hx].
    assert (Forall (λ b, (key h <=? key b) = true) t) as Hh.
    { apply (Sorted_extends (R := λ a b, (key a <=? key b) = true)); [|done].
      intros a b c H1%Z.leb_le H2%Z.leb_le. apply Z.leb_le. lia. }
    assert (h = x) as ->.
    { assert (h ∈ x :: l2) as Hin by (rewrite <- Hperm; left).
      assert (x ∈ h :: t) as Hin' by (rewrite Hperm; left).
      apply elem_of_cons in Hin as [?|Hin]; [done|].
      apply elem_of_cons in Hin' as [?|Hin']; [done|].
      rewrite Forall_forall in Hx, Hh.
      specialize (Hx h Hin). specialize (Hh x Hin'). apply Z.leb_le in Hh. lia. }
    f_equal. apply IH; [by apply Sorted_inv in Hs1 as [? _]|done|].
    by apply Permutation_cons_inv in Hperm.
Qed.

Lemma indexed_from (rows : list ChunkOfBot) : ∀ i n,
  j_chunk_index <$> rows = seqZ i n →
  StronglySorted (λ a b, j_chunk_index a < j_chunk_index b) rows
  ∧ Forall (λ r, i ≤ j_chunk_index r) rows.
Proof.
  induction rows as [|r rows IH]; intros i n Hidx; [by split; constructor|].
  assert (0 < n) as Hn.
  { destruct (decide (0 < n)); [done|]. by rewrite seqZ_nil in Hidx by lia. }
  rewrite seqZ_cons, fmap_cons in Hidx by done. injection Hidx as Hr Hrest.
  destruct (IH _ _ Hrest) as [Hs Hall]. split.
  - constructor; [done|]. eapply Forall_impl; [exact Hall|]. intros r'. simpl. lia.
  - constructor; [lia|]. eapply Forall_impl; [exact Hall|]. intros r'. simpl. lia.
Qed.

(** ORDER BY chunk_index puts the rows of a file in the order of
    their indices, however the table holds them. *)
Lemma available_chunks_records db file_id rows :
  chunk_records db file_id rows → available_chunks db file_id = rows.
Proof.
  intros [Hperm Hidx]. unfold available_chunks.
  apply (sorted_by_key_unique j_chunk_index).
  - apply order_by_Sorted. intros x y H%Z.leb_gt. apply Z.leb_le. lia.
  - by apply (indexed_from rows 0 (Z.of_nat (length rows))).
  - by rewrite order_by_Permutation.
Qed.

(** *** Header values *)

Lemma string_app_assoc (s t u : string) : (s +:+ t) +:+ u = s +:+ t +:+ u.
Proof. induction s as [|a s IH]; [done|]. rewrite !string_app_cons. by f_equal. Qed.

Lemma forbidden_free_app s t :
  forbidden_free (s +:+ t) = forbidden_free s && forbidden_free t.
Proof.
  induction s as [|a s IH]; [done|]. rewrite string_app_cons. cbn [forbidden_free].
  by rewrite IH, andb_assoc.
Qed.

Lemma plain_app s t : plain (s +:+ t) = plain s && plain t.
Proof.
  induction s as [|a s IH]; [done|]. rewrite string_app_cons. cbn [plain].
  by rewrite IH, andb_assoc.
Qed.

Lemma plain_forbidden_free s : plain s = true → forbidden_free s = true.
Proof.
  induction s as [|a s IH]; [done|]. simpl.
  intros [[_ Ha]%andb_true_iff Hs]%andb_true_iff. by rewrite Ha, IH.
Qed.

Lemma strip_trailing_plain s t :
  t ≠ "" → plain t = true → strip_trailing (s +:+ t) = s +:+ t.
Proof.
  intros Hne Ht.
  assert (strip_trailing t = t) as Hbase.
  { clear Hne. induction t as [|a t IH]; [done|]. cbn [plain] in Ht.
    apply andb_true_iff in Ht as [[Ha _]%andb_true_iff Ht].
    cbn [strip_trailing]. rewrite IH by done. destruct t; [|done].
    by apply negb_true_iff in Ha as ->. }
  induction s as [|a s IH]; [done|].
  rewrite string_app_cons. cbn [strip_trailing]. rewrite IH.
  destruct (s +:+ t) eqn:Hst; [|done].
  destruct s; [done|discriminate].
Qed.

(** A value that begins with a character other than white space, ends
    with a plain text and holds no NUL, line feed or carriage return
    in between. *)
Lemma normalize_between a s t :
  is_http_whitespace a = false → t ≠ "" → plain t = true →
  normalize (String a s +:+ t) = String a s +:+ t.
Proof.
  intros Ha Hne Ht.
  unfold normalize. change (String a s +:+ t) with (String a (s +:+ t)).
  cbn [strip_leading]. rewrite Ha.
  change (String a (s +:+ t)) with (String a s +:+ t). by apply strip_trailing_plain.
Qed.

Lemma header_value_between a s t :
  is_http_whitespace a = false → forbidden_free (String a s) = true →
  t ≠ "" → plain t = true →
  header_value (String a s +:+ t).
Proof.
  intros Ha Hs Hne Ht. split.
  - by apply normalize_between.
  - rewrite forbidden_free_app, Hs. by apply plain_forbidden_free.
Qed.

Lemma header_value_plain t : t ≠ "" → plain t = true → header_value t.
Proof.
  intros Hne Ht. split; [|by apply plain_forbidden_free].
  unfold normalize. destruct t as [|a t]; [done|]. cbn [strip_leading].
  simpl in Ht. apply andb_true_iff in Ht as [[Ha Hf]%andb_true_iff Ht'].
  apply negb_true_iff in Ha. rewrite Ha.
  apply (strip_trailing_plain "" (String a t)); [done|].
  simpl. by rewrite Ha, Hf, Ht'.
Qed.

Lemma all_digits_plain s : all_digits s = true → plain s = true.
Proof.
  induction s as [|a s IH]; [done|]. simpl. intros [Ha Hs]%andb_true_iff.
  rewrite IH by done. rewrite andb_true_r.
  unfold is_digit in Ha. destruct (Ascii.is_nat a) as [d|] eqn:Hd; [|done].
  destruct a as [[] [] [] [] [] [] [] []]; try done.
Qed.

Lemma pretty_plain (z : Z) : plain (pretty z) = true ∧ pretty z ≠ "".
Proof.
  destruct z as [|p|p].
  - done.
  - destruct (pretty_nonneg_digits (Z.pos p)) as (Hd & Hne & _); [done|].
    split; [by apply all_digits_plain|done].
  - change (pretty (Z.neg p)) with ("-" +:+ pretty (Z.pos p)). split; [|done].
    destruct (pretty_nonneg_digits (Z.pos p)) as (Hd & _ & _); [done|].
    simpl. by apply all_digits_plain.
Qed.

Lemma new_Headers_accepts init :
  Forall (λ kv : string * string, header_value kv.2) init → new_Headers init = Some init.
Proof.
  induction 1 as [|[name value] init [Hn Hf] _ IH]; [done|].
  simpl in *. by rewrite Hn, Hf, IH.
Qed.

Lemma new_Response_accepts status init body :
  Forall (λ kv : string * string, header_value kv.2) init →
  new_Response status init body
  = Some {| status := status; headers := init; body := body |}.
Proof. intros H. unfold new_Response. by rewrite new_Headers_accepts. Qed.

Lemma forbidden_free_strip_leading v :
  forbidden_free v = true → forbidden_free (strip_leading v) = true.
Proof.
  induction v as [|a v IH]; [done|]. cbn [forbidden_free strip_leading].
  intros [Ha Hv]%andb_true_iff.
  destruct (is_http_whitespace a); [by apply IH|].
  cbn [forbidden_free]. by rewrite Ha, Hv.
Qed.

Lemma forbidden_free_strip_trailing v :
  forbidden_free v = true → forbidden_free (strip_trailing v) = true.
Proof.
  induction v as [|a v IH]; [done|]. cbn [forbidden_free strip_trailing].
  intros [Ha Hv]%andb_true_iff. specialize (IH Hv).
  destruct (strip_trailing v) as [|b w].
  - destruct (is_http_whitespace a); [done|]. cbn [forbidden_free]. by rewrite Ha.
  - change (forbidden_free (String a (String b w)))
      with (negb (is_forbidden a) && forbidden_free (String b w)).
    by rewrite Ha, IH.
Qed.

(** A value without NUL, line feed and carriage return is accepted,
    less the white space at its ends. *)
Lemma forbidden_free_normalize v :
  forbidden_free v = true → forbidden_free (normalize v) = true.
Proof.
  intros Hv. unfold normalize.
  by apply forbidden_free_strip_trailing, forbidden_free_strip_leading.
Qed.

Lemma new_Response_typed status name v rest body :
  forbidden_free v = true →
  Forall (λ kv : string * string, header_value kv.2) rest →
  new_Response status ((name, v) :: rest) body
  = Some {| status := status; headers := (name, normalize v) :: rest; body := body |}.
Proof.
  intros Hv Hrest. unfold new_Response. cbn [new_Headers]. cbv zeta.
  rewrite forbidden_free_normalize by done. by rewrite new_Headers_accepts.
Qed.

Lemma content_length_value (n : Z) : header_value (pretty n).
Proof. destruct (pretty_plain n). by apply header_value_plain. Qed.

Lemma content_disposition_value name :
  forbidden_free name = true →
  header_value ("attachment; filename=" +:+ quote +:+ name +:+ quote).
Proof.
  intros Hname.
  rewrite <- !string_app_assoc.
  rewrite (string_app_assoc _ quote name).
  by apply header_value_between.
Qed.

Lemma content_range_value (a b size : Z) :
  header_value ("bytes " +:+ pretty a +:+ "-" +:+ pretty b +:+ "/" +:+ pretty size).
Proof.
  apply header_value_between; try done.
  - destruct (pretty_plain a) as [_ Hne]. destruct (pretty a); done.
  - rewrite !plain_app.
    destruct (pretty_plain a) as [-> _], (pretty_plain b) as [-> _],
      (pretty_plain size) as [-> _]. done.
Qed.

(** *** Round trip: split, store, download *)

Section ReadFacts.
Context {pf : Platform}.

Lemma download_chunk_fetches db tg file_id r data :
  fetches tg r data → download_chunk db tg file_id r = (Ok data, db, tg).
Proof. intros [Hb Hf]. unfold download_chunk. by rewrite Hb, Hf. Qed.

Lemma download_loop_fetches db tg file_id rows datas :
  Forall2 (fetches tg) rows datas →
  download_loop db tg file_id rows = (inl datas, db, tg).
Proof.
  induction 1 as [|r d rows datas Hr _ IH]; simpl; [done|].
  by rewrite (download_chunk_fetches _ _ _ _ _ Hr), IH.
Qed.

(** [new Response] takes the reply 200 of [download] when neither the
    type of the file nor its name holds a NUL, a line feed or a
    carriage return. *)
Lemma download_reply_accepted file content :
  forbidden_free (octet_stream (f_mime_type file)) = true →
  forbidden_free (f_file_name file) = true →
  new_Response 200
    [("Content-Type", octet_stream (f_mime_type file));
     ("Content-Disposition",
      "attachment; filename=" +:+ quote +:+ f_file_name file +:+ quote);
     ("Content-Length", pretty (Z.of_nat (length content)))]
    (BBytes content)
  = Some (download_ok file content).
Proof.
  intros Htype Hname. apply new_Response_typed; [done|].
  constructor; [by apply content_disposition_value|].
  constructor; [apply content_length_value|constructor].
Qed.

(** It refuses that reply when the name holds one of them. *)
Lemma download_reply_refused file content :
  forbidden_free (f_file_name file) = false →
  new_Response 200
    [("Content-Type", octet_stream (f_mime_type file));
     ("Content-Disposition",
      "attachment; filename=" +:+ quote +:+ f_file_name file +:+ quote);
     ("Content-Length", pretty (Z.of_nat (length content)))]
    (BBytes content)
  = None.
Proof.
  intros Hname.
  set (v := "attachment; filename=" +:+ quote +:+ f_file_name file +:+ quote).
  assert (normalize v = v ∧ forbidden_free v = false) as [Hn Hf].
  { unfold v. rewrite <- !string_app_assoc.
    rewrite (string_app_assoc _ quote (f_file_name file)).
    split; [by apply normalize_between|].
    rewrite !forbidden_free_app, Hname. by rewrite andb_false_r. }
  unfold new_Response. cbn [new_Headers]. cbv zeta.
  destruct (forbidden_free (normalize (octet_stream (f_mime_type file)))); [|done].
  by rewrite Hn, Hf.
Qed.

Lemma download_fetches db tg user_id file_id file rows datas :
  live_file_of_user db file_id user_id = Some file →
  available_chunks db file_id = rows →
  rows ≠ [] →
  Forall2 (fetches tg) rows datas →
  forbidden_free (octet_stream (f_mime_type file)) = true →
  forbidden_free (f_file_name file) = true →
  download db tg user_id file_id = (download_ok file (concat datas), db, tg).
Proof.
  intros Hfile Hrows Hne Hall Htype Hname. unfold download.
  rewrite Hfile, Hrows. rewrite bool_decide_eq_false_2 by done.
  rewrite (download_loop_fetches _ _ _ _ _ Hall), combine_concat.
  by rewrite download_reply_accepted.
Qed.

(** C2, as the code has it. Splitting a payload [P] into consecutive
    chunks of [chunk_size] bytes gives [ceil(len(P) / chunk_size)]
    chunks, the last of which has [len(P) - chunk_size * (count - 1)]
    bytes; their concatenation is [P]. When [P] is not empty and the
    chunk rows of a file, in whatever order the table holds them, are
    rows numbered 0, 1, 2, ... that hold these chunks, the chunk query
    returns them in [chunk_index] order and [GET /download] answers
    200 with exactly [P], for a file whose type and name hold no NUL,
    line feed or carriage return. *)
Theorem split_download_round_trip (chunk_size : Z) (P : bytes) :
  0 < chunk_size →
  let parts := split_chunks chunk_size P in
  let count := chunk_count_of chunk_size (Z.of_nat (length P)) in
  Z.of_nat (length parts) = count
  ∧ (∀ c, last parts = Some c →
          Z.of_nat (length c) = Z.of_nat (length P) - chunk_size * (count - 1))
  ∧ concat parts = P
  ∧ combine parts = Some P
  ∧ (P ≠ [] → last parts ≠ None)
  ∧ ∀ db tg user_id file_id file rows,
      P ≠ [] →
      live_file_of_user db file_id user_id = Some file →
      forbidden_free (octet_stream (f_mime_type file)) = true →
      forbidden_free (f_file_name file) = true →
      chunk_records db file_id rows →
      Forall2 (fetches tg) rows parts →
      available_chunks db file_id = rows
      ∧ download db tg user_id file_id = (download_ok file P, db, tg).
Proof.
  intros Hpos parts count.
  assert (Z.of_nat (length parts) = count) as Hlen
    by apply (split_chunks_length _ Hpos).
  assert (concat parts = P) as Hcat by apply (split_chunks_concat _ Hpos).
  assert (P ≠ [] → parts ≠ []) as Hne.
  { intros HP Hnil. rewrite Hnil in Hcat. simpl in Hcat. congruence. }
  split_and!.
  - done.
  - intros c Hc. rewrite last_lookup in Hc.
    destruct (split_chunks_sizes _ Hpos P _ _ Hc) as [Hsz _].
    fold count in Hsz. rewrite Hsz.
    rewrite decide_True; [done|].
    apply lookup_lt_Some in Hc. lia.
  - done.
  - by rewrite combine_concat, Hcat.
  - intros HP. specialize (Hne HP). rewrite last_None. done.
  - intros db tg user_id file_id file rows HP Hfile Htype Hname Hrec Hall.
    pose proof (available_chunks_records _ _ _ Hrec) as Hrows.
    split; [done|].
    rewrite <- Hcat at 1.
    apply download_fetches with (rows := rows); try done.
    intros ->. apply Forall2_nil_inv_l in Hall.
    by apply Hne.
Qed.

(** *** Range reads *)

Lemma window_app_left {A} (d rest : list A) (lo hi : Z) :
  0 ≤ lo → hi ≤ Z.of_nat (length d) →
  window (d ++ rest) lo hi = window d lo hi.
Proof.
  intros Hlo Hhi. unfold window.
  destruct (Z.le_gt_cases hi lo) as [Hle|Hgt].
  - replace (Z.to_nat (hi - lo)) with 0%nat by lia. by rewrite !take_0.
  - rewrite drop_app_le by lia. rewrite take_app_le; [done|].
    rewrite length_drop. lia.
Qed.

Lemma window_app_right {A} (d rest : list A) (lo hi : Z) :
  Z.of_nat (length d) ≤ lo →
  window (d ++ rest) lo hi
  = window rest (lo - Z.of_nat (length d)) (hi - Z.of_nat (length d)).
Proof.
  intros Hlo. unfold window.
  rewrite drop_app_ge by lia.
  f_equal; [lia|]. f_equal. lia.
Qed.

Lemma window_app_split {A} (d rest : list A) (lo hi : Z) :
  0 ≤ lo → lo ≤ Z.of_nat (length d) → Z.of_nat (length d) ≤ hi →
  window (d ++ rest) lo hi
  = window d lo (Z.of_nat (length d)) ++ window rest 0 (hi - Z.of_nat (length d)).
Proof.
  intros Hlo Hmid Hhi. unfold window.
  rewrite drop_app_le by lia. rewrite take_app, length_drop.
  f_equal.
  - rewrite !take_ge; [done| |]; rewrite length_drop; lia.
  - rewrite drop_0. f_equal. lia.
Qed.

Lemma window_empty {A} (l : list A) (lo hi : Z) : hi ≤ lo → window l lo hi = [].
Proof. intros H. unfold window. replace (Z.to_nat (hi - lo)) with 0%nat by lia. apply take_0. Qed.

Lemma slice_window {A} (l : list A) (a b : Z) :
  0 ≤ a → a ≤ b → b ≤ Z.of_nat (length l) → slice l a b = window l a b.
Proof. apply slice_in_range. Qed.

(** The parts extracted for [start, end_], from rows that begin at the
    global offset [off], concatenate to the matching window of the
    concatenated chunk data. *)
Lemma extract_loop_window tg rows datas :
  Forall2 (serves tg) rows datas →
  ∀ off start end_,
    start ≤ end_ →
    ∃ parts,
      extract_loop tg (needed_chunks rows off start end_) = inl parts
      ∧ concat parts
        = window (concat datas) (Z.max 0 (start - off))
            (Z.max (Z.max 0 (start - off)) (end_ - off + 1)).
Proof.
  induction 1 as [|r d rows datas [Hget Hsize] _ IH]; intros off start end_ Hse.
  - exists []. split; [done|]. unfold window. simpl. by rewrite drop_nil, take_nil.
  - simpl needed_chunks. rewrite Hsize.
    destruct (IH (off + Z.of_nat (length d)) start end_ Hse) as (parts & Hparts & Hcat).
    rewrite concat_cons.
    destruct (Z.ltb_spec start (off + Z.of_nat (length d))) as [Hlt|Hge]; simpl andb.
    + destruct (Z.leb_spec off end_) as [Hle|Hgt].
      * (* the chunk overlaps the range *)
        simpl extract_loop. rewrite Hget, Hparts. simpl.
        eexists. split; [done|]. simpl. rewrite Hcat.
        rewrite slice_window by lia.
        destruct (Z.le_gt_cases (end_ - off + 1) (Z.of_nat (length d))) as [Hin|Hout].
        -- rewrite Z.min_r by lia.
           rewrite (window_empty (concat datas)) by lia.
           rewrite app_nil_r.
           rewrite window_app_left by lia.
           f_equal. lia.
        -- rewrite Z.min_l by lia.
           rewrite window_app_split by lia.
           f_equal. f_equal; lia.
      * (* the range ends before the chunk *)
        exists parts. split; [done|]. rewrite Hcat.
        rewrite !window_empty by lia. done.
    + (* the range starts after the chunk *)
      exists parts. split; [done|]. rewrite Hcat.
      rewrite window_app_right by lia.
      f_equal; lia.
Qed.

Lemma intersects_iff offset size start end_ :
  RangeResolver.intersects offset size start end_
  ↔ start < offset + size ∧ offset ≤ end_ ∧ 0 < size ∧ start ≤ end_.
Proof.
  split.
  - intros (x & ? & ?). lia.
  - intros (? & ? & ? & ?). exists (Z.max offset start). lia.
Qed.

Lemma needed_chunks_walk (pre rows : list ChunkOfBot) (off start end_ : Z) :
  start ≤ end_ →
  Forall (λ r, 0 < j_chunk_size r) rows →
  Forall2 (is_piece (pre ++ rows))
    (needed_chunks rows off start end_)
    (RangeResolver.walk (j_chunk_size <$> rows) (length pre) off start end_).
Proof.
  intros Hse. revert pre off.
  induction rows as [|r rows IH]; intros pre off Hpos; simpl; [constructor|].
  apply Forall_cons in Hpos as [Hr Hpos].
  specialize (IH (pre ++ [r]) (off + j_chunk_size r) Hpos).
  rewrite <- (assoc_L (++)) in IH. simpl in IH.
  rewrite length_app in IH. simpl in IH.
  replace (length pre + 1)%nat with (S (length pre)) in IH by lia.
  destruct (decide (RangeResolver.intersects off (j_chunk_size r) start end_))
    as [Hi|Hi]; rewrite intersects_iff in Hi.
  - destruct (Z.ltb_spec start (off + j_chunk_size r)); [|lia].
    destruct (Z.leb_spec off end_); [|lia].
    simpl. constructor; [|done].
    split_and!; try done. simpl.
    rewrite lookup_app_r by done.
    by rewrite Nat.sub_diag.
  - destruct (Z.ltb_spec start (off + j_chunk_size r));
      destruct (Z.leb_spec off end_); simpl; try done; lia.
Qed.

(** [new Response] takes the reply 206 of [stream] when the type of
    the file holds no NUL, line feed or carriage return. *)
Lemma range_reply_accepted file start end_ content :
  forbidden_free (octet_stream (f_mime_type file)) = true →
  new_Response 206
    [("Content-Type", octet_stream (f_mime_type file));
     ("Content-Range",
      "bytes " +:+ pretty start +:+ "-" +:+ pretty end_
      +:+ "/" +:+ pretty (f_file_size file));
     ("Accept-Ranges", "bytes");
     ("Content-Length", pretty (Z.of_nat (length content)))]
    (BBytes content)
  = Some (range_ok file start end_ content).
Proof.
  intros Htype. apply new_Response_typed; [done|].
  constructor; [apply content_range_value|].
  constructor; [done|].
  constructor; [apply content_length_value|constructor].
Qed.

(** The range branch of [stream], once the header is parsed and the
    cache has no entry. *)
Lemma stream_range db tg cache user_id file_id file h start end_ datas :
  live_file_of_user db file_id user_id = Some file →
  Forall2 (serves tg) (available_chunks db file_id) datas →
  datas ≠ [] →
  h ≠ "" →
  parseRange h (f_file_size file) = (start, end_) →
  cache (getCacheKey file_id 0 (Some (start, end_))) = None →
  0 ≤ start → start ≤ end_ →
  forbidden_free (octet_stream (f_mime_type file)) = true →
  stream db tg cache user_id file_id (Some h)
  = range_ok file start end_ (window (concat datas) start (end_ + 1)).
Proof.
  intros Hfile Hall Hne Hh Hparse Hmiss H0 Hse Htype. unfold stream.
  rewrite Hfile.
  rewrite bool_decide_eq_false_2.
  2:{ intros Hnil. rewrite Hnil in Hall. by apply Forall2_nil_inv_l in Hall. }
  replace (truthy (Some h)) with (Some h) by (by destruct h).
  rewrite Hparse, Hmiss.
  destruct (extract_loop_window _ _ _ Hall 0 start end_ Hse) as (parts & -> & Hcat).
  rewrite combine_concat, Hcat.
  replace (Z.max 0 (start - 0)) with start by lia.
  replace (Z.max start (end_ - 0 + 1)) with (end_ + 1) by lia.
  rewrite range_reply_accepted by done.
  by destruct (shouldCache _).
Qed.

(** C1, as the code has it. A range read of a stored file whose type
    holds no NUL, line feed or carriage return (and whose size is a
    number that JavaScript holds exactly): the chunk rows of the file,
    in whatever order the table holds them, are rows numbered
    0, 1, 2, ... that serve chunk data of the recorded sizes whose
    concatenation is [P]. For
    [0 <= start <= end < len(P)], [GET /stream] with
    [Range: bytes=start-end] takes the rows in index order, picks the
    entries the Range Resolver describes (the chunks whose interval
    meets the range, each cut to
    [max(0, start - offset), min(size, end - offset + 1)); chunks are
    non-empty, as the split makes them), concatenates the slices, and
    answers 206 with Content-Range [bytes start-end/total] and the body
    [P[start..end]] of [end - start + 1] bytes. *)
Theorem range_read_correct db tg cache user_id file_id file rows datas start end_ :
  let P := concat datas in
  live_file_of_user db file_id user_id = Some file →
  f_file_size file = Z.of_nat (length P) →
  f_file_size file ≤ MAX_SAFE_INTEGER →
  forbidden_free (octet_stream (f_mime_type file)) = true →
  chunk_records db file_id rows →
  Forall2 (serves tg) rows datas →
  0 ≤ start → start ≤ end_ → end_ < Z.of_nat (length P) →
  cache (getCacheKey file_id 0 (Some (start, end_))) = None →
  let range := "bytes=" +:+ pretty start +:+ "-" +:+ pretty end_ in
  let body_ := take (Z.to_nat (end_ - start + 1)) (drop (Z.to_nat start) P) in
  available_chunks db file_id = rows
  ∧ (Forall (λ r, 0 < j_chunk_size r) rows →
     Forall2 (is_piece rows) (needed_chunks rows 0 start end_)
       (RangeResolver.resolve (j_chunk_size <$> rows) start end_))
  ∧ (∃ parts, extract_loop tg (needed_chunks rows 0 start end_) = inl parts
              ∧ concat parts = body_)
  ∧ stream db tg cache user_id file_id (Some range)
    = {| status := 206;
         headers := [("Content-Type", normalize (octet_stream (f_mime_type file)));
                     ("Content-Range",
                      "bytes " +:+ pretty start +:+ "-" +:+ pretty end_
                      +:+ "/" +:+ pretty (Z.of_nat (length P)));
                     ("Accept-Ranges", "bytes");
                     ("Content-Length", pretty (end_ - start + 1))];
         body := BBytes body_ |}
  ∧ Z.of_nat (length body_) = end_ - start + 1
  ∧ body_ = slice P start (end_ + 1).
Proof.
  intros P Hfile Hsize Hsafe Htype Hrec Hall H0 Hse Hend Hmiss range body_.
  pose proof (available_chunks_records _ _ _ Hrec) as Hrows.
  assert (Z.of_nat (length body_) = end_ - start + 1) as Hlen.
  { unfold body_. rewrite length_take, length_drop. lia. }
  assert (window P start (end_ + 1) = body_) as Hwin.
  { unfold window, body_. f_equal. lia. }
  split_and!.
  - done.
  - intros Hpos. apply (needed_chunks_walk [] rows 0 start end_ Hse Hpos).
  - destruct (extract_loop_window _ _ _ Hall 0 start end_ Hse) as (parts & Hparts & Hcat).
    exists parts. split; [done|]. rewrite Hcat, <- Hwin. fold P. f_equal; lia.
  - assert (parseRange range (f_file_size file) = (start, end_)) as Hparse.
    { unfold range. rewrite parseRange_bytes by lia. f_equal. lia. }
    rewrite (stream_range db tg cache user_id file_id file range start end_ datas);
      try done.
    + unfold range_ok. fold P. rewrite Hwin. by rewrite Hlen, Hsize.
    + by rewrite Hrows.
    + intros Hnil. unfold P in Hend. rewrite Hnil in Hend. simpl in Hend. lia.
  - done.
  - rewrite slice_window by lia. by rewrite Hwin.
Qed.


(** *** What a successful chunk upload did *)

Lemma upload_chunk_200 atob db tg user_id req env resp db' tg' :
  upload_chunk atob db tg user_id req env = (resp, db', tg') →
  status resp = 200 →
  Uploaded atob db tg user_id req env db' tg'.
Proof.
  unfold upload_chunk. intros Hrun Hstatus.
  repeat (case_match; simplify_eq/=; try done).
  all: repeat case_bool_decide; simplify_eq/=; try done.
  econstructor; eauto; try lia.
  all: try (by destruct_and?; naive_solver).
Qed.

Lemma filter_none {A} (P : A → Prop) `{∀ x, Decision (P x)} (l : list A) :
  (∀ x, x ∈ l → ¬ P x) → filter P l = [].
Proof.
  induction l as [|x l IH]; intros Hall; [done|].
  rewrite filter_cons_False by (apply Hall; left).
  apply IH. intros y Hy. apply Hall. by right.
Qed.

Lemma insert_chunk_Ok db c db' :
  insert_chunk db c = Ok db' →
  db' = with_chunks db (chunks db ++ [c])
  ∧ (c_chunk_id c ∉ c_chunk_id <$> chunks db)
  ∧ ((c_file_id c, c_chunk_index c) ∉ (λ r, (c_file_id r, c_chunk_index r)) <$> chunks db).
Proof.
  unfold insert_chunk. repeat case_bool_decide; try done. by intros [= <-].
Qed.

Lemma sendDocument_Ok tg botToken channelId data message_id tfid tg' :
  Service.sendDocument tg botToken channelId data = (Ok (message_id, tfid), tg') →
  is_Some (tg_users tg !! botToken) ∧ channelId ∈ tg_chats tg
  ∧ tg' = (Service.post tg channelId (Some data)).2
  ∧ message_id = tg_next tg ∧ tfid = Service.fresh_file_id tg.
Proof.
  unfold Service.sendDocument, Service.api_sendDocument, Service.api_error.
  destruct (tg_users tg !! botToken) eqn:Hu; [|done].
  case_bool_decide; [|done]. simpl. intros [= <- <- <-]. eauto.
Qed.

Lemma sendDocument_live tg botToken channelId data :
  is_Some (tg_users tg !! botToken) → channelId ∈ tg_chats tg →
  Service.sendDocument tg botToken channelId data
  = (Ok (tg_next tg, Service.fresh_file_id tg), (Service.post tg channelId (Some data)).2).
Proof.
  intros [u Hu] Hc.
  unfold Service.sendDocument, Service.api_sendDocument. rewrite Hu.
  by rewrite bool_decide_eq_true_2.
Qed.

(** *** Re-running a chunk upload *)

(** C4, as the code has it. After a chunk upload has answered 200, a
    second run with the same file, index and data does not succeed:
    the reply is 500 "Failed to upload chunk" and the table is left as
    it was, so the row written by the first run, not overwritten, stays
    the only row for that [(file_id, chunk_index)]. *)
Theorem chunk_upload_rerun_refused atob db tg user_id req env resp db1 tg1 :
  upload_chunk atob db tg user_id req env = (resp, db1, tg1) →
  status resp = 200 →
  ∀ req2 env2,
    q_file_id req2 = q_file_id req →
    q_chunk_index req2 = q_chunk_index req →
    q_chunk_data req2 = q_chunk_data req →
    q_chunk_hash req2 ≠ "" →
    ∃ tg2 i row message,
      q_chunk_index req = Some i
      ∧ upload_chunk atob db1 tg1 user_id req2 env2
        = (json 500 [("error", JStr "Failed to upload chunk"); ("message", JStr message)],
           db1, tg2)
      ∧ chunks db1 = chunks db ++ [row]
      ∧ rows_at db1 (q_file_id req) i = [row].
Proof.
  intros Hrun Hok req2 env2 Hfid Hidx Hdata Hhash.
  destruct (upload_chunk_200 _ _ _ _ _ _ _ _ _ Hrun Hok)
    as [i file bot channel data mid tfid Hi (Hf & Hd & _) Hfile Hlt Hpool Hsel Hch Hdec Hsent Hins].
  apply insert_chunk_Ok in Hins as (-> & Hfresh & Hkey).
  apply sendDocument_Ok in Hsent as (Huser & Hchat & -> & -> & ->).
  set (row := chunk_row req env i bot channel data (tg_next tg) (Service.fresh_file_id tg)).
  eexists _, i, row, _. split; [done|]. split_and!.
  - unfold upload_chunk. rewrite Hidx, Hi, Hfid, Hdata.
    rewrite bool_decide_eq_false_2 by (intros [?|[?|?]]; congruence).
    change (file_of_user (with_chunks db _) (q_file_id req) user_id)
      with (file_of_user db (q_file_id req) user_id).
    rewrite Hfile.
    destruct (Z.leb_spec (f_chunk_count file) i); [lia|].
    change (healthy_bots (with_chunks db _) user_id) with (healthy_bots db user_id).
    rewrite bool_decide_eq_false_2 by done.
    rewrite Hsel, Hch, Hdec.
    rewrite sendDocument_live by done.
    unfold insert_chunk. rewrite bool_decide_eq_true_2; [reflexivity|].
    simpl. rewrite fmap_app. set_solver.
  - done.
  - unfold rows_at. simpl. rewrite filter_app.
    rewrite (filter_none _ (chunks db)); [by rewrite filter_cons_True|].
    intros c Hc [Hcf Hci]. apply Hkey.
    apply list_elem_of_fmap. exists c. split; [|done]. simpl. by rewrite Hcf, Hci.
Qed.

(** *** Dedup at [upload/init] *)

Section InitFacts.
Variable chunk_size : Z.

(** A live file with the owner and hash of the request short-circuits
    the upload. *)
Lemma upload_init_duplicate db user_id req env existing :
  well_formed req →
  file_by_hash db user_id (i_file_hash req) = Some existing →
  upload_init chunk_size db user_id req env = (duplicate_reply (f_file_id existing), db).
Proof.
  intros (Hn & Hs & Hh) Hex. unfold upload_init.
  rewrite bool_decide_eq_false_2 by (intros [?|[?|?]]; congruence).
  by rewrite Hex.
Qed.

(** What a reply with status 200 stands for. *)
Lemma upload_init_200 db user_id req env resp db' :
  upload_init chunk_size db user_id req env = (resp, db') →
  status resp = 200 →
  well_formed req
  ∧ file_by_hash db user_id (i_file_hash req) = None
  ∧ ∃ row, files db' = files db ++ [row]
           ∧ chunks db' = chunks db ∧ bots db' = bots db
           ∧ f_file_id row = init_file_id env ∧ f_user_id row = user_id
           ∧ f_file_hash row = i_file_hash req ∧ f_is_deleted row = false
           ∧ f_chunk_count row = chunk_count_of chunk_size (i_file_size req).
Proof.
  unfold upload_init, insert_file. intros Hrun Hstatus.
  repeat (case_match; simplify_eq/=; try done).
  all: repeat case_bool_decide; simplify_eq/=; try done.
  all: split; [unfold well_formed; tauto|]; split; [done|].
  all: eexists; split_and!; simpl; done.
Qed.
End InitFacts.

(** C6. After [upload/init] has created a file for an owner and a
    content hash, a second [upload/init] by the same owner with the same
    hash answers [duplicate: true] with the [file_id] of the first call
    (the status is 409) and leaves the database as it was: no new file
    row, no new chunk row. The same holds in any later state that still
    has a live file with that owner and hash. *)
Theorem init_twice_is_duplicate chunk_size db user_id req env resp db1 :
  upload_init chunk_size db user_id req env = (resp, db1) →
  status resp = 200 →
  ∀ req2 env2,
    i_file_hash req2 = i_file_hash req →
    i_file_name req2 ≠ "" → i_file_size req2 ≠ 0 →
    upload_init chunk_size db1 user_id req2 env2
    = (duplicate_reply (init_file_id env), db1)
    ∧ init_file_id env ∈ f_file_id <$> files db1
    ∧ ∀ db2 existing,
        file_by_hash db2 user_id (i_file_hash req) = Some existing →
        upload_init chunk_size db2 user_id req2 env2
        = (duplicate_reply (f_file_id existing), db2).
Proof.
  intros Hrun Hok req2 env2 Hhash Hname Hsize.
  destruct (upload_init_200 _ _ _ _ _ _ _ Hrun Hok)
    as ((_ & _ & Hh) & Hnone & row & Hfiles & _ & _ & Hid & Huser & Hrh & Hlive & _).
  assert (well_formed req2) as Hwf by (unfold well_formed; rewrite Hhash; done).
  assert (file_by_hash db1 user_id (i_file_hash req) = Some row) as Hfound.
  { unfold file_by_hash in *. rewrite Hfiles, filter_app.
    destruct (filter _ (files db)) as [|x xs]; [|done].
    by rewrite filter_cons_True. }
  split_and!.
  - rewrite <- Hid. apply upload_init_duplicate; [done|]. by rewrite Hhash.
  - rewrite Hfiles, fmap_app, <- Hid. set_solver.
  - intros db2 existing Hex. apply upload_init_duplicate; [done|]. by rewrite Hhash.
Qed.

(** *** Backend selection *)

Lemma select_bot_mod (pool : list Bot) (i : Z) :
  pool ≠ [] → 0 ≤ i →
  select_bot pool i = pool !! Z.to_nat (i `mod` Z.of_nat (length pool))
  ∧ is_Some (select_bot pool i).
Proof.
  intros Hne Hi. unfold select_bot, index, rem.
  assert (0 < Z.of_nat (length pool)) as Hlen by (destruct pool; [done|simpl; lia]).
  rewrite Z.rem_mod_nonneg by lia.
  pose proof (Z.mod_pos_bound i _ Hlen) as Hb.
  destruct (Z.ltb_spec (i `mod` Z.of_nat (length pool)) 0); [lia|].
  split; [done|]. apply lookup_lt_is_Some. lia.
Qed.

Lemma upload_chunk_keeps_bots atob db tg user_id req env resp db' tg' :
  upload_chunk atob db tg user_id req env = (resp, db', tg') → bots db' = bots db.
Proof.
  unfold upload_chunk, insert_chunk. intros Hrun.
  repeat (case_match; simplify_eq/=; try done).
Qed.

Lemma upload_init_keeps_bots chunk_size db user_id req env resp db' :
  upload_init chunk_size db user_id req env = (resp, db') → bots db' = bots db.
Proof.
  unfold upload_init, insert_file. intros Hrun.
  repeat (case_match; simplify_eq/=; try done).
Qed.

Lemma upload_complete_keeps_bots db user_id file_id env resp db' :
  upload_complete db user_id file_id env = (resp, db') → bots db' = bots db.
Proof.
  unfold upload_complete. intros Hrun.
  repeat (case_match; simplify_eq/=; try done).
Qed.

Lemma healthy_bots_same db db' user_id :
  bots db' = bots db → healthy_bots db' user_id = healthy_bots db user_id.
Proof. unfold healthy_bots. by intros ->. Qed.

(** C8. The pool of an owner is the list of that owner's bots with
    [is_active = 1] and [health_status = 'healthy'], most recently
    checked first. With [N > 0] bots in it, the bot of chunk index
    [i >= 0] is [pool[i mod N]]; a chunk upload that answers 200 has
    stored the chunk under that bot; with an empty pool the upload
    answers 400 "No active bots found"; and no upload route changes the
    [bots] table, so that a repeated call selects the same bot. *)
Theorem backend_selection_deterministic atob db tg user_id req env i :
  q_chunk_index req = Some i →
  0 ≤ i →
  let pool := healthy_bots db user_id in
  let N := Z.of_nat (length pool) in
  pool ≡ₚ filter (eligible user_id) (bots db)
  ∧ Sorted (λ a b, health_check_desc a b = true) pool
  ∧ (pool ≠ [] →
     ∃ bot, select_bot pool i = Some bot ∧ pool !! Z.to_nat (i `mod` N) = Some bot)
  ∧ (∀ resp db' tg',
       upload_chunk atob db tg user_id req env = (resp, db', tg') →
       healthy_bots db' user_id = pool
       ∧ (status resp = 200 →
          ∃ bot row, pool !! Z.to_nat (i `mod` N) = Some bot
                     ∧ chunks db' = chunks db ++ [row]
                     ∧ c_chunk_index row = i ∧ c_bot_id row = b_bot_id bot)
       ∧ (pool = [] → status resp ≠ 200))
  ∧ (pool = [] →
     q_file_id req ≠ "" → q_chunk_data req ≠ "" → q_chunk_hash req ≠ "" →
     ∀ file, file_of_user db (q_file_id req) user_id = Some file →
             i < f_chunk_count file →
             upload_chunk atob db tg user_id req env
             = (json 400 [("error", JStr "No active bots found")], db, tg)).
Proof.
  intros Hidx Hi pool N. split_and!.
  - apply order_by_Permutation.
  - apply order_by_Sorted, health_check_desc_total.
  - intros Hne. destruct (select_bot_mod pool i Hne Hi) as [Heq [bot Hbot]].
    exists bot. split; [done|]. unfold N. by rewrite <- Heq.
  - intros resp db' tg' Hrun. split_and!.
    + apply healthy_bots_same. by eapply upload_chunk_keeps_bots.
    + intros Hok.
      destruct (upload_chunk_200 _ _ _ _ _ _ _ _ _ Hrun Hok)
        as [j file bot channel data mid tfid Hj _ _ _ Hpool Hsel _ _ _ Hins].
      assert (j = i) as -> by congruence.
      apply insert_chunk_Ok in Hins as (-> & _).
      destruct (select_bot_mod pool i Hpool Hi) as [Heq _].
      exists bot; eexists. split_and!; [|done..].
      fold pool in Hsel. unfold N. by rewrite <- Heq.
    + intros Hnil Hok.
      destruct (upload_chunk_200 _ _ _ _ _ _ _ _ _ Hrun Hok)
        as [j file bot channel data mid tfid _ _ _ _ Hpool _ _ _ _ _].
      done.
  - intros Hnil Hf Hd Hh file Hfile Hlt. unfold upload_chunk.
    rewrite Hidx.
    rewrite bool_decide_eq_false_2 by (intros [?|[?|?]]; congruence).
    rewrite Hfile.
    destruct (Z.leb_spec (f_chunk_count file) i); [lia|].
    fold pool. by rewrite bool_decide_eq_true_2.
Qed.

(** *** Chunk indices *)

Lemma upload_chunk_effect atob db tg user_id req env resp db' tg' :
  upload_chunk atob db tg user_id req env = (resp, db', tg') →
  db' = db ∨ Uploaded atob db tg user_id req env db' tg'.
Proof.
  intros Hrun. destruct (decide (status resp = 200)) as [Hok|Hno].
  - right. by eapply upload_chunk_200.
  - left. revert Hrun Hno. unfold upload_chunk.
    repeat (case_match; simplify_eq/=; try done).
    all: intros; simplify_eq/=; done.
Qed.

(** The key on [(file_id, chunk_index)] survives every chunk upload. *)
Lemma upload_chunk_keeps_keys_unique atob db tg user_id req env resp db' tg' :
  NoDup (chunk_keys db) →
  upload_chunk atob db tg user_id req env = (resp, db', tg') →
  NoDup (chunk_keys db').
Proof.
  intros Hnd Hrun.
  destruct (upload_chunk_effect _ _ _ _ _ _ _ _ _ Hrun) as [->|Hup]; [done|].
  destruct Hup as [i file bot channel data mid tfid _ _ _ _ _ _ _ _ _ Hins].
  apply insert_chunk_Ok in Hins as (-> & _ & Hkey).
  unfold chunk_keys. simpl. rewrite fmap_app. apply NoDup_app. split_and!; [done| |].
  - intros k Hk Hin. apply list_elem_of_singleton in Hin as ->. done.
  - apply NoDup_singleton.
Qed.

(** An accepted chunk has an index below [chunk_count]; nothing bounds
    it from below. *)
Lemma upload_chunk_index_below atob db tg user_id req env db' tg' :
  Uploaded atob db tg user_id req env db' tg' →
  ∃ file row, file_of_user db (q_file_id req) user_id = Some file
              ∧ chunks db' = chunks db ++ [row]
              ∧ c_file_id row = q_file_id req
              ∧ c_chunk_index row < f_chunk_count file.
Proof.
  intros [i file bot channel data mid tfid _ _ Hfile Hlt _ _ _ _ _ Hins].
  apply insert_chunk_Ok in Hins as (-> & _).
  exists file; eexists. split_and!; done.
Qed.

Lemma distinct_in_range_fill (l : list Z) (n : Z) :
  NoDup l → (∀ x, x ∈ l → 0 ≤ x < n) → Z.of_nat (length l) = n →
  l ≡ₚ seqZ 0 n.
Proof.
  intros Hnd Hin Hlen.
  apply submseteq_length_Permutation.
  - apply NoDup_submseteq; [done|]. intros x Hx. apply elem_of_seqZ. specialize (Hin x Hx). lia.
  - rewrite length_seqZ. lia.
Qed.

(** X7. What [upload/complete] checks. With the key on
    [(file_id, chunk_index)] and every stored index of the file in
    [0, chunk_count), a reply 200 of [upload/complete] means that the
    stored indices are exactly [0, 1, ..., chunk_count - 1]: the count
    it compares leaves no gap. *)
Lemma complete_means_contiguous db user_id file_id env resp db' file :
  NoDup (chunk_keys db) →
  file_of_user db file_id user_id = Some file →
  (∀ i, i ∈ stored_indices db file_id → 0 ≤ i < f_chunk_count file) →
  upload_complete db user_id file_id env = (resp, db') →
  status resp = 200 →
  stored_indices db file_id ≡ₚ seqZ 0 (f_chunk_count file).
Proof.
  intros Hnd Hfile Hrange Hrun Hok. unfold upload_complete in Hrun.
  rewrite Hfile in Hrun.
  case_bool_decide; [by simplify_eq/=|].
  case_bool_decide as Hcount; [by simplify_eq/=|].
  unfold count_chunks in Hcount.
  apply distinct_in_range_fill; [|done|].
  - unfold stored_indices, chunk_keys in *.
    revert Hnd. generalize (chunks db). clear. intros cs.
    induction cs as [|c cs IH]; intros Hnd; [constructor|].
    rewrite fmap_cons in Hnd. apply NoDup_cons in Hnd as [Hc Hnd].
    rewrite filter_cons. case_decide as Hf; [|by apply IH].
    rewrite fmap_cons. apply NoDup_cons. split; [|by apply IH].
    intros Hin. apply Hc. apply list_elem_of_fmap in Hin as (c' & Hi & Hc').
    apply list_elem_of_filter in Hc' as [Hf' Hc'].
    apply list_elem_of_fmap. exists c'. split; [|done]. by rewrite Hf, Hf', Hi.
  - unfold stored_indices. by rewrite length_fmap.
Qed.

End ReadFacts.

(** *** The claims on the small deployment *)

Section OnTheExample.
Import Example.

Lemma example_stored :
  after_init.1.(status) = 200
  ∧ after_chunk0.1.1.(status) = 200
  ∧ after_chunk1.1.1.(status) = 200
  ∧ after_chunk2.1.1.(status) = 200
  ∧ after_complete.1.(status) = 200
  ∧ after_complete.2 = db_stored
  ∧ live_file_of_user db_stored fid alice = Some the_file
  ∧ c_chunk_index <$> chunks db_stored = [0; 1; 2]
  ∧ c_bot_id <$> chunks db_stored = ["bot_1"; "bot_2"; "bot_1"]
  ∧ (download db_stored tg_stored alice fid).1.1 = download_ok the_file P.
Proof. vm_compute. done. Qed.

(** C4 as worded does not hold: the second run of the same chunk upload
    answers 500 instead of succeeding (and the table stays as it was). *)
Lemma chunk_upload_rerun_counterexample :
  let first := upload_chunk raw_atob after_init.2 tg0 alice (chunk_req 0 "abcd") env0 in
  let second := upload_chunk raw_atob first.1.2 first.2 alice (chunk_req 0 "abcd") env0 in
  first.1.1.(status) = 200
  ∧ second.1.1.(status) = 500
  ∧ chunks second.1.2 = chunks first.1.2.
Proof. vm_compute. done. Qed.

(** C1 as worded does not hold for every stored file. [upload/init]
    stores any string as the type of a file; this one holds a line
    feed. The upload answers 200 at every step, the rows of the file
    serve chunks of 4, 4 and 2 bytes whose concatenation is [P], the
    range 2-5 lies inside, and [GET /stream] answers 500, because the
    type is not a value a header can take. The same happens with a
    carriage return or a NUL in the type. *)
Lemma range_read_counterexample :
  status (upload_init 4 db0 alice odd_req env0).1 = 200
  ∧ status odd_chunk0.1.1 = 200 ∧ status odd_chunk1.1.1 = 200 ∧ status odd_chunk2.1.1 = 200
  ∧ upload_complete odd_chunk2.1.2 alice fid env0 = (complete_ok fid, db_odd)
  ∧ live_file_of_user db_odd fid alice = Some odd_file
  ∧ f_file_size odd_file = Z.of_nat (length P)
  ∧ j_chunk_index <$> available_chunks db_odd fid = [0; 1; 2]
  ∧ j_chunk_size <$> available_chunks db_odd fid = [4; 4; 2]
  ∧ (λ r, Service.downloadFile tg_odd (j_bot_token_enc r) (j_telegram_file_id r))
      <$> available_chunks db_odd fid = Ok <$> parts_of_P
  ∧ concat parts_of_P = P
  ∧ stream db_odd tg_odd no_cache alice fid (Some "bytes=2-5")
    = stream_failed (invalid_header_value 832)
  ∧ status (stream_failed (invalid_header_value 832)) = 500
  ∧ (let '(db, tg) := stored_as ("text/plain" +:+ carriage_return +:+ "x") in
     status (stream db tg no_cache alice fid (Some "bytes=2-5")) = 500)
  ∧ (let '(db, tg) := stored_as ("text/plain" +:+ nul +:+ "x") in
     status (stream db tg no_cache alice fid (Some "bytes=2-5")) = 500).
Proof. vm_compute. done. Qed.

(** C2 as worded does not hold for every payload and every stored
    file. The rows of the file of the odd type hold the chunks of the
    split of [P], and [GET /download] answers 500, as it does with a
    carriage return or a NUL in the type, and for the file of the
    plain type once it is renamed to a name with a line feed; and the
    empty payload is never stored, since [upload/init] refuses a size
    of 0 with 400. *)
Lemma round_trip_counterexample :
  live_file_of_user db_odd fid alice = Some odd_file
  ∧ j_chunk_index <$> available_chunks db_odd fid = [0; 1; 2]
  ∧ fetch_by_file_id tg_odd <$> available_chunks db_odd fid = Ok <$> split_chunks 4 P
  ∧ concat (split_chunks 4 P) = P
  ∧ download db_odd tg_odd alice fid
    = (download_failed (invalid_header_value 673), db_odd, tg_odd)
  ∧ status (download_failed (invalid_header_value 673)) = 500
  ∧ (let '(db, tg) := stored_as ("text/plain" +:+ carriage_return +:+ "x") in
     status (download db tg alice fid).1.1 = 500)
  ∧ (let '(db, tg) := stored_as ("text/plain" +:+ nul +:+ "x") in
     status (download db tg alice fid).1.1 = 500)
  ∧ (let '(resp, db) := update_file db_stored alice fid odd_rename env1 in
     status resp = 200
     ∧ download db tg_stored alice fid
       = (download_failed (invalid_header_value 673), db, tg_stored))
  ∧ upload_init 4 db0 alice (init_req 0) env0
    = (json 400 [("error", JStr "file_name, file_size, and file_hash required")],
       db0).
Proof. vm_compute. done. Qed.


(** C3 on the code. The file has chunks 0 and 2 on [bot_1] and chunk 1
    on [bot_2]. Once [bot_2] is removed, [download] answers 200 with
    chunks 0 and 2 glued together, and a range read of bytes 4-7 (all
    of chunk 1) answers 206 with bytes of chunk 2 under the label
    [bytes 4-7/10]; neither fails. *)
Lemma removed_bot_chunk_is_skipped :
  let db := remove_bot db_stored "bot_2" in
  j_chunk_index <$> available_chunks db fid = [0; 2]
  ∧ download db tg_stored alice fid
    = (download_ok the_file (String.list_byte_of_string "abcdij"), db, tg_stored)
  ∧ stream db tg_stored no_cache alice fid (Some "bytes=4-7")
    = {| status := 206;
         headers := [("Content-Type", "text/plain");
                     ("Content-Range", "bytes 4-7/10");
                     ("Accept-Ranges", "bytes");
                     ("Content-Length", "2")];
         body := BBytes (String.list_byte_of_string "ij") |}
  ∧ stream db tg_stored no_cache alice fid (Some "bytes=0-3")
    = range_ok the_file 0 3 (String.list_byte_of_string "abcd").
Proof. vm_compute. done. Qed.

(** C5 on the code. One bot, a file of two chunks: the client posts
    chunk index -1 and chunk index 0. Both uploads answer 200, because
    only [chunk_index >= chunk_count] is refused and [-1 % 1] selects
    the first bot; [upload/complete] counts two rows and answers 200
    while the stored indices are -1 and 0. *)
Lemma complete_with_negative_index :
  let '(r0, db1) := upload_init 4 db_single alice (init_req 5) env0 in
  let '(r1, db2, tg1) := upload_chunk raw_atob db1 tg0 alice (chunk_req (-1) "zzzz") env0 in
  let '(r2, db3, tg2) := upload_chunk raw_atob db2 tg1 alice (chunk_req 0 "abcd") env0 in
  let '(r3, db4) := upload_complete db3 alice fid env0 in
  status r0 = 200 ∧ status r1 = 200 ∧ status r2 = 200 ∧ status r3 = 200
  ∧ f_chunk_count <$> files db4 = [2]
  ∧ c_chunk_index <$> chunks db4 = [-1; 0].
Proof. vm_compute. done. Qed.

(** C7 on the code. The [file_id] of chunk 0 no longer resolves, the
    message that carries it does. [download] repairs the row and
    answers 200 with the whole payload; [stream], with or without a
    Range header, has no fallback and answers 404. *)
Lemma stream_has_no_repair :
  (let '(r, db', tg') := download db_stored tg_stale alice fid in
   r = download_ok the_file P
   ∧ c_telegram_file_id <$> chunks db' = ["BQAC4"; "BQAC2"; "BQAC3"]
   ∧ tg_next tg' = tg_next tg_stale + 1)
  ∧ (stream db_stored tg_stale no_cache alice fid (Some "bytes=0-1")).(status) = 404
  ∧ (stream db_stored tg_stale no_cache alice fid None).(status) = 404.
Proof. vm_compute. done. Qed.

End OnTheExample.

(** *** The repair fallback of [download] *)

Section RepairFacts.
Context {pf : Platform}.

Lemma fresh_file_id_nonempty tg : Service.fresh_file_id tg ≠ "".
Proof. done. Qed.

Lemma downloadFile_stored tg botToken fileId data :
  is_Some (tg_users tg !! botToken) →
  fileId ≠ "" →
  tg_files tg !! fileId = Some {| st_has_path := true; st_content := Some data |} →
  Service.downloadFile tg botToken fileId = Ok data.
Proof.
  intros [u Hu] Hne Hf.
  unfold Service.downloadFile, Service.downloadFile_try, Service.getFile,
    Service.api_getFile, Service.fetch_file.
  rewrite Hu, Hf. cbn [st_has_path tf_file_path].
  destruct fileId; [done|]. by rewrite Hf.
Qed.

(** A message that still carries its document resolves to a fresh
    [file_id] that serves the document. *)
Lemma getFileFromMessage_live tg botToken channelId messageId data :
  is_Some (tg_users tg !! botToken) →
  channelId ∈ tg_chats tg →
  tg_messages tg !! (channelId, messageId) = Some (Some data) →
  let fresh := Service.fresh_file_id tg in
  let tg' := (Service.post tg channelId (Some data)).2 in
  Service.getFileFromMessage tg botToken channelId messageId
  = (Some {| tf_file_id := fresh; tf_file_path := Some fresh |}, tg')
  ∧ Service.downloadFile tg' botToken fresh = Ok data.
Proof.
  intros [u Hu] Hchat Hmsg fresh tg'.
  assert (tg_users tg' !! botToken = Some u) as Hu' by done.
  assert (tg_files tg' !! fresh
          = Some {| st_has_path := true; st_content := Some data |}) as Hf
    by apply lookup_insert_eq.
  split.
  - unfold Service.getFileFromMessage, Service.api_getChat, Service.api_forwardMessage.
    rewrite Hu, bool_decide_eq_true_2 by done. rewrite Hmsg.
    change (Service.post tg channelId (Some data))
      with ({| m_message_id := tg_next tg; m_document := Some fresh |}, tg').
    cbv beta iota. cbn [m_document].
    unfold Service.getFile, Service.api_getFile. rewrite Hu', Hf. reflexivity.
  - apply downloadFile_stored; [by exists u|apply fresh_file_id_nonempty|done].
Qed.

(** The fallback of one chunk: a single call of [getFileFromMessage];
    when it yields a file, the row is rewritten and the chunk fetched
    once more; when it yields nothing, the chunk fails. *)
Lemma download_chunk_fallback db tg file_id chunk errorMsg :
  blank (j_bot_token_enc chunk) = false →
  fetch_by_file_id tg chunk = Throw errorMsg →
  j_stored_channel_id chunk ≠ "" →
  j_telegram_message_id chunk ≠ 0 →
  let token := j_bot_token_enc chunk in
  let '(found, tg') :=
    Service.getFileFromMessage tg token (j_stored_channel_id chunk)
      (j_telegram_message_id chunk) in
  match found with
  | Some {| tf_file_id := new_file_id; tf_file_path := Some (String _ _) |} =>
      let db' := update_chunk_file_id db
                   (chunk_id_of file_id (j_chunk_index chunk)) new_file_id in
      match Service.downloadFile tg' token new_file_id with
      | Ok data => download_chunk db tg file_id chunk = (Ok data, db', tg')
      | Throw _ => ∃ m, download_chunk db tg file_id chunk = (Throw m, db', tg')
      end
  | _ => ∃ m, download_chunk db tg file_id chunk = (Throw m, db, tg')
  end.
Proof.
  intros Hb Hfetch Hch Hmsg token.
  unfold download_chunk, message_id_fallback. rewrite Hb, Hfetch.
  rewrite decide_False by done. rewrite decide_False by done.
  fold token.
  destruct (Service.getFileFromMessage _ _ _ _) as [[[new_file_id [[|a path]|]]|] tg'];
    eauto.
  destruct (Service.downloadFile tg' token new_file_id); eauto.
Qed.


(** [stream] has no such fallback: the first chunk that cannot be
    fetched by its stored [file_id] ends the request, whatever its
    message still carries. *)
Lemma stream_loop_stops tg before chunk after datas m :
  Forall2 (serves tg) before datas →
  Service.downloadFile tg (j_bot_token_enc chunk) (j_telegram_file_id chunk) = Throw m →
  stream_loop tg (before ++ chunk :: after) = inr (stream_chunk_error chunk m).
Proof.
  intros Hall Hfail. induction Hall as [|r d before datas [Hr _] _ IH]; simpl.
  - by rewrite Hfail.
  - by rewrite Hr, IH.
Qed.

Lemma stream_whole_stops db tg cache user_id file_id file before chunk after datas m :
  live_file_of_user db file_id user_id = Some file →
  available_chunks db file_id = before ++ chunk :: after →
  Forall2 (serves tg) before datas →
  Service.downloadFile tg (j_bot_token_enc chunk) (j_telegram_file_id chunk) = Throw m →
  cache (getCacheKey file_id 0 None) = None →
  stream db tg cache user_id file_id None = stream_chunk_error chunk m.
Proof.
  intros Hfile Hrows Hall Hfail Hmiss. unfold stream.
  rewrite Hfile, Hrows.
  rewrite bool_decide_eq_false_2 by (by destruct before).
  simpl truthy. cbv iota. rewrite Hmiss.
  rewrite (stream_loop_stops _ _ _ _ _ _ Hall Hfail).
  by destruct (shouldCache _).
Qed.

End RepairFacts.

(** *** The throttle *)

Module ThrottleFacts.
Import Throttle.

Lemma spaced_snoc gap times t :
  spaced gap (times ++ [t])
  = spaced gap times && match last times with
                        | Some t0 => gap <=? t - t0
                        | None => true
                        end.
Proof.
  induction times as [|t1 [|t2 times] IH]; [done| |].
  - simpl. by rewrite !andb_true_r.
  - change (spaced gap ((t1 :: t2 :: times) ++ [t]))
      with ((gap <=? t2 - t1) && spaced gap ((t2 :: times) ++ [t])).
    rewrite IH. change (spaced gap (t1 :: t2 :: times))
      with ((gap <=? t2 - t1) && spaced gap (t2 :: times)).
    by rewrite andb_assoc.
Qed.

Lemma sent_with_pass st botToken now tok :
  sent_with tok (pass st botToken now)
  = sent_with tok st ++ (if decide (botToken = tok) then [now] else []).
Proof.
  unfold sent_with, pass. simpl. rewrite filter_app, fmap_app. f_equal.
  rewrite filter_cons. simpl. by case_decide.
Qed.

Lemma Inv_pass st botToken now :
  Inv st →
  lastCall (rateLimitMap st) botToken + RATE_LIMIT_MS ≤ now
  ∨ sent_with botToken st = [] →
  (∀ id s, sleeping st !! id = Some s → s_token s ≠ botToken) →
  Inv (pass st botToken now).
Proof.
  intros [Hsp Hlast Hdue Hone] Hgap Hnone. split.
  - intros tok. rewrite sent_with_pass. case_decide as Htok.
    + subst tok. rewrite spaced_snoc, Hsp. simpl.
      destruct (last (sent_with botToken st)) as [t0|] eqn:Hl; [|done].
      apply Z.leb_le. destruct Hgap as [Hgap|Hnil].
      * unfold lastCall in Hgap. rewrite (Hlast _ _ Hl) in Hgap. simpl in Hgap. lia.
      * by rewrite Hnil in Hl.
    + by rewrite app_nil_r.
  - intros tok t. rewrite sent_with_pass. simpl. case_decide as Htok.
    + subst tok. rewrite last_snoc. intros [= <-]. apply lookup_insert_eq.
    + rewrite app_nil_r, lookup_insert_ne by done. apply Hlast.
  - intros id s Hs. simpl in *. unfold lastCall.
    rewrite lookup_insert_ne by (intros Heq; by apply (Hnone id s Hs)).
    by apply (Hdue id).
  - done.
Qed.

Lemma serial_Inv st clock : serial st clock → Inv st.
Proof.
  induction 1 as [|st clock e st' _ IH Hclock Halone Hstep].
  - split; try done.
  - destruct e as [id botToken now|id now]; simpl in Hstep, Halone.
    + destruct (sleeping st !! id) eqn:Hid; [done|].
      unfold waitTime in Hstep.
      destruct (Z.ltb_spec (now - lastCall (rateLimitMap st) botToken) RATE_LIMIT_MS)
        as [Hwait|Hgo]; injection Hstep as <-.
      * (* the call goes to sleep *)
        destruct IH as [Hsp Hlast Hdue Hone]. split; simpl; try done.
        -- intros id' s. rewrite lookup_insert. case_decide as Hi.
           ++ intros [= <-]. simpl. lia.
           ++ by apply (Hdue id').
        -- intros id1 id2 s1 s2. rewrite !lookup_insert.
           repeat case_decide; subst; try done.
           ++ intros [= <-] Hs2 Ht. simpl in Ht. by destruct (Halone _ _ Hs2).
           ++ intros Hs1 [= <-] Ht. simpl in Ht. by destruct (Halone _ _ Hs1).
           ++ apply Hone.
      * (* the call passes at once *)
        apply Inv_pass; [done| |done]. left. lia.
    + destruct (sleeping st !! id) as [s|] eqn:Hid; [|done].
      destruct (Z.leb_spec (s_due s) now) as [Hdue|]; [|done].
      injection Hstep as <-.
      destruct IH as [Hsp Hlast Hd Hone].
      apply Inv_pass.
      * split; simpl; try done.
        -- intros id' s'. rewrite lookup_delete. case_decide; [done|]. apply (Hd id').
        -- intros id1 id2 s1 s2. rewrite !lookup_delete.
           repeat case_decide; try done. apply Hone.
      * left. simpl. specialize (Hd _ _ Hid). lia.
      * simpl. intros id' s'. rewrite lookup_delete. case_decide as Hi; [done|].
        intros Hs' Ht. apply Hi. by apply (Hone id id' s s').
Qed.

(** X23. The throttle, when calls do not overlap. In every run in
    which no call enters [rateLimit] while another call with the same
    bot token sleeps in it, the requests sent with one token are at
    least [RATE_LIMIT_MS] (3000 ms) apart. *)
Lemma serial_calls_spaced st clock botToken :
  serial st clock → spaced RATE_LIMIT_MS (sent_with botToken st) = true.
Proof. intros H. by apply serial_Inv in H as [Hsp _ _ _]. Qed.

(** X24. The throttle is per bot token. An event of a call with one
    token leaves the map entry of every other token as it was, and
    with it the time a call with that other token would wait. *)
Lemma other_credentials_untouched st e st' botToken :
  step st e = Some st' →
  credential st e ≠ Some botToken →
  rateLimitMap st' !! botToken = rateLimitMap st !! botToken
  ∧ ∀ now, waitTime (rateLimitMap st') botToken now = waitTime (rateLimitMap st) botToken now.
Proof.
  intros Hstep Hne.
  assert (rateLimitMap st' !! botToken = rateLimitMap st !! botToken) as Heq.
  { destruct e as [id tok now|id now]; simpl in *.
    - destruct (sleeping st !! id); [done|].
      destruct (waitTime _ _ _); injection Hstep as <-; simpl; [done|].
      apply lookup_insert_ne. congruence.
    - destruct (sleeping st !! id) as [s|]; [|done]. simpl in Hne.
      destruct (s_due s <=? now); [|done]. injection Hstep as <-. simpl.
      apply lookup_insert_ne. congruence. }
  split; [done|]. intros now. unfold waitTime, lastCall. by rewrite Heq.
Qed.

(** C9 on the code. Three calls with one credential enter at 10000,
    10001 and 10002 ms (the web client posts up to three chunks at a
    time). The first passes; the second and the third both read the
    entry written by the first, both sleep until 13000, and both are
    sent at 13000: two consecutive calls with no time between them. *)
Lemma overlapping_calls_not_spaced :
  let events := [Enter 1 "111:AAA" 10000; Enter 2 "111:AAA" 10001;
                 Enter 3 "111:AAA" 10002; Wake 2 13000; Wake 3 13000] in
  ∃ st, run events = Some st
        ∧ sent_with "111:AAA" st = [10000; 13000; 13000]
        ∧ spaced RATE_LIMIT_MS (sent_with "111:AAA" st) = false.
Proof. eexists. vm_compute. done. Qed.

End ThrottleFacts.

(** ** Store and read back

    The client's upload followed by [GET /download]. *)

Section RouteFacts.
Context {pf : Platform}.

Lemma healthy_bots_elem db user_id b :
  b ∈ healthy_bots db user_id → b ∈ bots db ∧ eligible user_id b.
Proof.
  unfold healthy_bots. rewrite order_by_Permutation.
  intros [HP Hin]%list_elem_of_filter. split; [done|]. exact HP.
Qed.

Lemma select_bot_elem pool i bot : select_bot pool i = Some bot → bot ∈ pool.
Proof.
  unfold select_bot, index. case_match; [done|]. apply list_elem_of_lookup_2.
Qed.

Lemma chunk_id_of_inj file_id i j : chunk_id_of file_id i = chunk_id_of file_id j → i = j.
Proof.
  unfold chunk_id_of. intros H.
  repeat apply (inj (String.app _)) in H. by apply (inj pretty) in H.
Qed.

Lemma usable_post tg chat content b :
  usable tg b → usable (Service.post tg chat content).2 b.
Proof. done. Qed.

Lemma join_unfold db file_id :
  join_active_bots db file_id
  = chunks db ≫= λ c, bots db ≫= λ b,
      if bool_decide (joins file_id c b) then [ {| j_chunk := c; j_bot := b |} ] else [].
Proof. done. Qed.

Lemma bind_none {A B} (f : A → list B) (l : list A) :
  (∀ x, x ∈ l → f x = []) → l ≫= f = [].
Proof.
  induction l as [|x l IH]; intros Hall; [done|].
  rewrite bind_cons, (Hall x) by left. apply IH. intros y Hy. apply Hall. by right.
Qed.

Lemma join_one (bs : list Bot) file_id c bot :
  NoDup (b_bot_id <$> bs) → bot ∈ bs → joins file_id c bot →
  (bs ≫= λ b, if bool_decide (joins file_id c b)
              then [ {| j_chunk := c; j_bot := b |} ] else [])
  = [ {| j_chunk := c; j_bot := bot |} ].
Proof.
  intros Hnd Hin Hj. induction bs as [|b bs IH]; [by apply elem_of_nil in Hin|].
  rewrite fmap_cons in Hnd. apply NoDup_cons in Hnd as [Hb Hnd].
  rewrite bind_cons. apply elem_of_cons in Hin as [<-|Hin].
  - rewrite bool_decide_eq_true_2 by done.
    rewrite bind_none; [done|]. intros b' Hb'.
    rewrite bool_decide_eq_false_2; [done|]. intros (Hid & _).
    apply Hb. apply list_elem_of_fmap. exists b'. split; [|done].
    destruct Hj as (Hid' & _). congruence.
  - rewrite bool_decide_eq_false_2.
    + by rewrite IH.
    + intros (Hid & _). apply Hb. apply list_elem_of_fmap. exists bot. split; [|done].
      destruct Hj as (Hid' & _). congruence.
Qed.

Lemma order_by_sorted {A} (le : A → A → bool) (l : list A) :
  Sorted (λ a b, le a b = true) l → order_by le l = l.
Proof.
  induction 1 as [|x l _ IH Hhd]; [done|].
  simpl. rewrite IH. destruct Hhd as [|y l Hxy]; [done|]. simpl. by rewrite Hxy.
Qed.

Section StoreAndRead.
Variable atob : string → Result bytes.
Variable btoa : bytes → string.
Hypothesis atob_btoa : ∀ b, atob (btoa b) = Ok b.
Hypothesis btoa_nonempty : ∀ b, b ≠ [] → btoa b ≠ "".

(** One chunk upload of a client that follows the plan. *)
Lemma upload_chunk_accepts db tg user_id file_id file i data hash env :
  file_id ≠ "" → hash ≠ "" → data ≠ [] →
  file_of_user db file_id user_id = Some file →
  0 ≤ i < f_chunk_count file →
  healthy_bots db user_id ≠ [] →
  Forall (usable tg) (healthy_bots db user_id) →
  chunk_id_of file_id i ∉ c_chunk_id <$> chunks db →
  (file_id, i) ∉ chunk_keys db →
  let req := {| q_file_id := file_id; q_chunk_index := Some i;
                q_chunk_data := btoa data; q_chunk_hash := hash |} in
  ∃ bot channel,
    bot ∈ healthy_bots db user_id
    ∧ truthy (b_channel_id bot) = Some channel
    ∧ ∃ resp,
        status resp = 200
        ∧ upload_chunk atob db tg user_id req env
          = (resp,
             with_chunks db
               (chunks db ++ [chunk_row req env i bot channel data (tg_next tg)
                                (Service.fresh_file_id tg)]),
             (Service.post tg channel (Some data)).2).
Proof.
  intros Hfid Hhash Hdata Hfile [Hi0 Hi1] Hpool Husable Hid Hkey req.
  destruct (select_bot_mod _ i Hpool Hi0) as [_ [bot Hbot]].
  pose proof (select_bot_elem _ _ _ Hbot) as Hin.
  rewrite Forall_forall in Husable.
  destruct (Husable bot Hin) as (_ & (u & Hu & _) & channel & Hch & Hchat).
  exists bot, channel. split; [done|]. split; [done|].
  eexists. split; [|unfold upload_chunk; simpl].
  2:{ rewrite bool_decide_eq_false_2.
      2:{ intros [?|[?|?]]; try done. by apply (btoa_nonempty data). }
      rewrite Hfile. destruct (Z.leb_spec (f_chunk_count file) i); [lia|].
      rewrite bool_decide_eq_false_2 by done.
      rewrite Hbot, Hch, atob_btoa.
      rewrite sendDocument_live by (by eauto).
      unfold insert_chunk. simpl.
      rewrite bool_decide_eq_false_2 by done.
      rewrite bool_decide_eq_false_2 by done.
      reflexivity. }
  done.
Qed.

Variable clock : Z → Env.
Variable sha256_hex : bytes → string.
Hypothesis sha256_nonempty : ∀ b, sha256_hex b ≠ "".

Lemma post_chunks_stores user_id file_id file fileData chunk_size' pool (n : nat) :
  ∀ (i : Z) db tg,
    file_id ≠ "" →
    file_of_user db file_id user_id = Some file →
    0 ≤ i → i + Z.of_nat n ≤ f_chunk_count file →
    healthy_bots db user_id = pool → pool ≠ [] →
    Forall (usable tg) pool →
    (∀ j, i ≤ j → (chunk_id_of file_id j ∉ c_chunk_id <$> chunks db)
                  ∧ (file_id, j) ∉ chunk_keys db) →
    (∀ j, i ≤ j < i + Z.of_nat n → chunk_at chunk_size' fileData j ≠ []) →
    ∃ db' tg' rows,
      Client.post_chunks atob clock btoa sha256_hex db tg user_id file_id fileData
        chunk_size' i n = (Ok (), db', tg')
      ∧ bots db' = bots db ∧ files db' = files db
      ∧ chunks db' = chunks db ++ rows
      ∧ tg_users tg' = tg_users tg ∧ tg_chats tg' = tg_chats tg
      ∧ Forall2 (λ row j, holds tg' pool file_id (chunk_at chunk_size' fileData j) j row)
          rows (seqZ i (Z.of_nat n))
      ∧ ∀ key v, tg_files tg !! key = Some v →
                 (∀ k, 0 ≤ k → key ≠ "BQAC" +:+ pretty (tg_next tg + k)) →
                 tg_files tg' !! key = Some v.
Proof.
  induction n as [|n IH]; intros i db tg Hfid Hfile Hi Hn Hpool Hne Hus Hfresh Hdata.
  - exists db, tg, []. simpl. rewrite app_nil_r. split_and!; try done; constructor.
  - destruct (Hfresh i ltac:(lia)) as [Hid Hkey].
    destruct (upload_chunk_accepts db tg user_id file_id file i
                (chunk_at chunk_size' fileData i)
                (sha256_hex (chunk_at chunk_size' fileData i)) (clock i)
                Hfid (sha256_nonempty _) (Hdata i ltac:(lia)) Hfile ltac:(lia)
                ltac:(by rewrite Hpool) ltac:(by rewrite Hpool) Hid Hkey)
      as (bot & channel & Hbot & Hch & resp & Hok & Hrun).
    rewrite Hpool in Hbot.
    set (data := chunk_at chunk_size' fileData i) in *.
    set (req := {| q_file_id := file_id; q_chunk_index := Some i;
                   q_chunk_data := btoa data; q_chunk_hash := sha256_hex data |}) in *.
    set (row0 := chunk_row req (clock i) i bot channel data (tg_next tg)
                   (Service.fresh_file_id tg)) in *.
    set (db1 := with_chunks db (chunks db ++ [row0])) in *.
    set (tg1 := (Service.post tg channel (Some data)).2) in *.
    destruct (IH (i + 1) db1 tg1) as (db' & tg' & rows & Hpost & Hb & Hf & Hc & Hu & Hchats & Hrows & Hframe);
      try done; try lia.
    { intros j Hj. destruct (Hfresh j ltac:(lia)) as [Hid' Hkey']. split.
      - simpl. rewrite fmap_app. intros [?|Hin%list_elem_of_singleton]%elem_of_app; [done|].
        apply chunk_id_of_inj in Hin. lia.
      - unfold chunk_keys. simpl. rewrite fmap_app.
        intros [?|Hin%list_elem_of_singleton]%elem_of_app; [done|].
        simpl in Hin. injection Hin as Hin. lia. }
    { intros j Hj. apply Hdata. lia. }
    exists db', tg', (row0 :: rows). split_and!.
    + cbn [Client.post_chunks]. fold data. fold req. rewrite Hrun.
      unfold Client.ok. rewrite Hok. simpl. exact Hpost.
    + by rewrite Hb.
    + by rewrite Hf.
    + rewrite Hc. simpl. by rewrite <- (assoc_L (++)).
    + by rewrite Hu.
    + by rewrite Hchats.
    + rewrite seqZ_cons by lia. constructor.
      * split_and!; try done.
        -- by exists bot.
        -- apply Hframe; [apply lookup_insert_eq|].
           intros k Hk Heq. apply (inj (String.app _)) in Heq.
           apply (inj pretty) in Heq. simpl in Heq. lia.
      * replace (Z.pred (Z.of_nat (S n))) with (Z.of_nat n) by lia.
        replace (Z.succ i) with (i + 1) by lia. done.
    + intros key v Hkey' Hfut. apply Hframe.
      * simpl. rewrite lookup_insert_ne; [done|].
        intros <-. apply (Hfut 0 ltac:(lia)). unfold Service.fresh_file_id.
        by rewrite Z.add_0_r.
      * intros k Hk. simpl. replace (tg_next tg + 1 + k) with (tg_next tg + (1 + k)) by lia.
        apply Hfut. lia.
Qed.

Lemma sorted_by_index (jrows : list ChunkOfBot) : ∀ i n,
  Forall2 (λ jr j, j_chunk_index jr = j) jrows (seqZ i n) →
  Sorted (λ a b, (j_chunk_index a <=? j_chunk_index b) = true) jrows.
Proof.
  induction jrows as [|jr jrows IH]; intros i n Hall; [constructor|].
  assert (0 < n) as Hn.
  { destruct (decide (0 < n)); [done|]. rewrite seqZ_nil in Hall by lia. inversion Hall. }
  rewrite seqZ_cons in Hall by done. apply Forall2_cons in Hall as [Hjr Hall].
  constructor; [by eapply IH|].
  destruct jrows as [|jr' jrows]; [constructor|].
  assert (0 < Z.pred n) as Hn'.
  { destruct (decide (0 < Z.pred n)); [done|]. rewrite seqZ_nil in Hall by lia. inversion Hall. }
  rewrite seqZ_cons in Hall by done. apply Forall2_cons in Hall as [Hjr' _].
  constructor. apply Z.leb_le. lia.
Qed.

Lemma join_rows (bs : list Bot) pool tg' file_id (part : Z → bytes) rows js :
  NoDup (b_bot_id <$> bs) →
  (∀ b, b ∈ pool → b ∈ bs ∧ b_is_active b = true ∧ is_Some (b_channel_id b)) →
  Forall2 (λ row j, holds tg' pool file_id (part j) j row) rows js →
  Forall2 (λ jr j, j_bot jr ∈ pool ∧ holds tg' pool file_id (part j) j (j_chunk jr))
    (rows ≫= λ c, bs ≫= λ b,
       if bool_decide (joins file_id c b) then [ {| j_chunk := c; j_bot := b |} ] else [])
    js.
Proof.
  intros Hnd Hpool Hrows.
  induction Hrows as [|row j rows js Hrow _ IH]; [constructor|].
  rewrite bind_cons.
  pose proof Hrow as (Hf & Hi & Hsz & (bot & Hbot & Hid) & Hne & Hkept).
  destruct (Hpool bot Hbot) as (Hin & Hact & Hch).
  rewrite (join_one bs file_id row bot Hnd Hin) by done.
  simpl. constructor; [|exact IH]. split; [exact Hbot|exact Hrow].
Qed.

Lemma available_after_upload db' old rows pool tg' file_id (part : Z → bytes) i n :
  chunks db' = old ++ rows →
  (∀ c, c ∈ old → c_file_id c ≠ file_id) →
  NoDup (b_bot_id <$> bots db') →
  (∀ b, b ∈ pool → b ∈ bots db' ∧ b_is_active b = true ∧ is_Some (b_channel_id b)) →
  Forall2 (λ row j, holds tg' pool file_id (part j) j row) rows (seqZ i n) →
  Forall2 (λ jr j, j_bot jr ∈ pool ∧ holds tg' pool file_id (part j) j (j_chunk jr))
    (available_chunks db' file_id) (seqZ i n).
Proof.
  intros Hchunks Hold Hnd Hpool Hrows.
  assert (Forall2 (λ jr j, j_bot jr ∈ pool ∧ holds tg' pool file_id (part j) j (j_chunk jr))
            (join_active_bots db' file_id) (seqZ i n)) as Hjoin.
  { rewrite join_unfold, Hchunks, bind_app.
    rewrite (bind_none _ old).
    2:{ intros c Hc. apply bind_none. intros b _.
        rewrite bool_decide_eq_false_2; [done|]. intros (_ & Hf & _). by apply (Hold c). }
    by apply join_rows. }
  unfold available_chunks. rewrite order_by_sorted; [done|].
  apply (sorted_by_index _ i n).
  eapply Forall2_impl; [exact Hjoin|]. intros jr j (_ & _ & Hidx & _). exact Hidx.
Qed.

Lemma fetches_kept tg' pool file_id part j jr :
  Forall (usable tg') pool →
  j_bot jr ∈ pool →
  holds tg' pool file_id part j (j_chunk jr) →
  fetches tg' jr part.
Proof.
  intros Hus Hin (_ & _ & _ & _ & Hne & Hkept).
  rewrite Forall_forall in Hus.
  destruct (Hus _ Hin) as (Hblank & (u & Hu & Hbot) & _).
  split; [done|]. unfold fetch_by_file_id, Service.getBotInfo, Service.validateBotToken,
    Service.getMe, j_bot_token_enc.
  rewrite Hu, Hbot. apply downloadFile_stored; [by exists u|done..].
Qed.

Lemma split_loop_seqZ chunk_size' buffer (n : nat) : ∀ i,
  split_loop chunk_size' buffer i n = chunk_at chunk_size' buffer <$> seqZ i (Z.of_nat n).
Proof.
  induction n as [|n IH]; intros i; [done|].
  rewrite seqZ_cons by lia. simpl. rewrite IH. do 3 f_equal; lia.
Qed.

Lemma usable_same_accounts tg tg' b :
  tg_users tg' = tg_users tg → tg_chats tg' = tg_chats tg → usable tg b → usable tg' b.
Proof. unfold usable. by intros -> ->. Qed.

Lemma chunk_at_nonempty chunk_size' (buffer : bytes) j :
  0 < chunk_size' → 0 ≤ j < chunk_count_of chunk_size' (Z.of_nat (length buffer)) →
  chunk_at chunk_size' buffer j ≠ [].
Proof.
  intros Hpos [Hj0 Hj1] Hnil.
  pose proof (chunk_at_length chunk_size' Hpos buffer j Hj0) as Hlen.
  rewrite Hnil in Hlen. simpl in Hlen.
  pose proof (ceil_div_bounds chunk_size' Hpos (Z.of_nat (length buffer))) as Hb.
  unfold chunk_count_of in Hj1. nia.
Qed.

Lemma holds_file_id tg' pool file_id (part : Z → bytes) rows js :
  Forall2 (λ row j, holds tg' pool file_id (part j) j row) rows js →
  filter (λ c, c_file_id c = file_id) rows = rows.
Proof.
  induction 1 as [|row j rows js (Hf & _) _ IH]; [done|].
  by rewrite filter_cons_True, IH.
Qed.

Variable chunk_size : Z.
Hypothesis chunk_size_pos : 0 < chunk_size.

Lemma upload_init_accepts db user_id req env :
  well_formed req →
  file_by_hash db user_id (i_file_hash req) = None →
  healthy_bots db user_id ≠ [] →
  truthy (i_folder_id req) = None →
  init_file_id env ∉ f_file_id <$> files db →
  references (truthy (i_device_id req)) (devices db) = true →
  chunk_count_of chunk_size (i_file_size req) ≤ MAX_ARRAY_LENGTH →
  ∃ row,
    upload_init chunk_size db user_id req env
    = (init_reply (init_file_id env) (chunk_count_of chunk_size (i_file_size req))
         chunk_size (healthy_bots db user_id),
       with_files db (files db ++ [row]))
    ∧ f_file_id row = init_file_id env ∧ f_user_id row = user_id
    ∧ f_is_deleted row = false
    ∧ f_chunk_count row = chunk_count_of chunk_size (i_file_size req)
    ∧ f_file_name row = i_file_name req
    ∧ f_mime_type row = truthy (i_mime_type req).
Proof.
  intros (Hn & Hs & Hh) Hnone Hpool Hfolder Hfresh Hdevice Hcount. unfold upload_init.
  rewrite bool_decide_eq_false_2 by (intros [?|[?|?]]; done).
  rewrite Hnone, bool_decide_eq_false_2 by done.
  rewrite Hfolder. unfold insert_file. cbn [f_file_id f_device_id].
  rewrite bool_decide_eq_false_2 by done.
  rewrite Hdevice.
  destruct (Z.ltb_spec MAX_ARRAY_LENGTH (chunk_count_of chunk_size (i_file_size req)));
    [lia|].
  eexists. split; [reflexivity|]. done.
Qed.

(** A device that is not registered: the INSERT fails on the foreign
    key and nothing is written. *)
Lemma upload_init_unknown_device db user_id req env :
  well_formed req →
  file_by_hash db user_id (i_file_hash req) = None →
  healthy_bots db user_id ≠ [] →
  truthy (i_folder_id req) = None →
  init_file_id env ∉ f_file_id <$> files db →
  references (truthy (i_device_id req)) (devices db) = false →
  upload_init chunk_size db user_id req env
  = (json 500 [("error", JStr "Failed to initialize upload")], db).
Proof.
  intros (Hn & Hs & Hh) Hnone Hpool Hfolder Hfresh Hdevice. unfold upload_init.
  rewrite bool_decide_eq_false_2 by (intros [?|[?|?]]; done).
  rewrite Hnone, bool_decide_eq_false_2 by done.
  rewrite Hfolder. unfold insert_file. cbn [f_file_id f_device_id].
  rewrite bool_decide_eq_false_2 by done.
  by rewrite Hdevice.
Qed.

Lemma client_reads_init_reply file_id count chunk_size' pool :
  Client.ok (init_reply file_id count chunk_size' pool) = true
  ∧ Client.field "duplicate" (init_reply file_id count chunk_size' pool) = None
  ∧ Client.field "file_id" (init_reply file_id count chunk_size' pool) = Some (JStr file_id)
  ∧ Client.field "chunk_count" (init_reply file_id count chunk_size' pool) = Some (JNum count)
  ∧ Client.field "chunk_size" (init_reply file_id count chunk_size' pool)
    = Some (JNum chunk_size').
Proof. done. Qed.

Lemma file_of_user_new db user_id row :
  f_file_id row ∉ f_file_id <$> files db → f_user_id row = user_id →
  file_of_user (with_files db (files db ++ [row])) (f_file_id row) user_id = Some row.
Proof.
  intros Hfresh Hu. unfold file_of_user. simpl. rewrite filter_app.
  rewrite (filter_none _ (files db)); [by rewrite filter_cons_True|].
  intros f Hf [Hid _]. apply Hfresh. apply list_elem_of_fmap. by exists f.
Qed.

Lemma octet_stream_truthy mime : octet_stream (truthy mime) = octet_stream mime.
Proof. by destruct mime as [[|a m]|]. Qed.

(** X1. Store and read back. The sequential client
    ([uploadToInfiniDrive]) run against the routes with a payload [P]
    that is not empty and not yet stored, a name and a type without
    NUL, line feed and carriage return, no more chunks than an array
    can have entries, a pool of bots the Bot
    API accepts (a bot account and a channel it knows each), and a
    file id and chunk ids that are new: [upload/init], one
    [upload/chunk] per chunk and [upload/complete] all succeed, the
    file is live afterwards, and [GET /download] answers 200 with
    exactly [P]. *)
Theorem stored_file_reads_back db tg user_id (P : bytes) fileName mimeType env_init env_complete :
  let file_id := init_file_id env_init in
  let pool := healthy_bots db user_id in
  P ≠ [] → fileName ≠ "" →
  forbidden_free fileName = true →
  forbidden_free (octet_stream (Some mimeType)) = true →
  chunk_count_of chunk_size (Z.of_nat (length P)) ≤ MAX_ARRAY_LENGTH →
  pool ≠ [] → Forall (usable tg) pool →
  NoDup (b_bot_id <$> bots db) →
  file_by_hash db user_id (sha256_hex P) = None →
  file_id ∉ f_file_id <$> files db →
  (∀ c, c ∈ chunks db → c_file_id c ≠ file_id) →
  (∀ c j, c ∈ chunks db → c_chunk_id c ≠ chunk_id_of file_id j) →
  ∃ db' tg' file,
    Client.uploadToInfiniDrive chunk_size atob clock btoa sha256_hex db tg user_id P
      fileName mimeType env_init env_complete = (Ok (), db', tg')
    ∧ live_file_of_user db' file_id user_id = Some file
    ∧ download db' tg' user_id file_id = (download_ok file P, db', tg').
Proof.
  intros file_id pool HP Hname Hplain Htype Hfew Hpool Hus Hnd Hhash Hfresh Hold Hids.
  set (count := chunk_count_of chunk_size (Z.of_nat (length P))).
  assert (0 < count) as Hcount.
  { apply ceil_div_pos; [done|]. destruct P; [done|simpl; lia]. }
  (* upload/init *)
  unfold Client.uploadToInfiniDrive.
  match goal with |- context [upload_init _ _ _ ?r _] => set (req := r) end.
  destruct (upload_init_accepts db user_id req env_init)
    as (row & -> & Hid & Huser & Hlive & Hcnt & Hrname & Hrtype);
    try done.
  { split_and!; simpl; [done| |apply sha256_nonempty]. destruct P; simpl; [done|lia]. }
  fold file_id in Hid |- *. fold pool. simpl i_file_size in *. fold count in Hcnt |- *.
  destruct (client_reads_init_reply file_id count chunk_size pool)
    as (-> & -> & -> & -> & ->).
  cbv beta iota. cbn [negb].
  set (db1 := with_files db (files db ++ [row])).
  assert (file_of_user db1 file_id user_id = Some row) as Hfile.
  { rewrite <- Hid. apply file_of_user_new; [by rewrite Hid|done]. }
  (* the chunks *)
  destruct (post_chunks_stores user_id file_id row P chunk_size pool (Z.to_nat count) 0 db1 tg)
    as (db2 & tg2 & rows & -> & Hb & Hf & Hc & Hu & Hchats & Hrows & _); try done; try lia.
  { intros j _. split.
    - intros (c & Hcid & Hcin)%list_elem_of_fmap. by apply (Hids c j).
    - intros (c & Hkey & Hcin)%list_elem_of_fmap. injection Hkey as Hkey _.
      by apply (Hold c). }
  { intros j Hj. apply chunk_at_nonempty; [done|]. fold count. lia. }
  rewrite Z2Nat.id in Hrows by lia.
  (* upload/complete *)
  unfold upload_complete. rewrite bool_decide_eq_false_2 by done.
  assert (file_of_user db2 file_id user_id = Some row) as Hfile2.
  { unfold file_of_user. rewrite Hf. exact Hfile. }
  rewrite Hfile2.
  assert (count_chunks db2 file_id = count) as Hcc.
  { unfold count_chunks. rewrite Hc. simpl. rewrite filter_app.
    rewrite (filter_none _ (chunks db)) by (intros c Hcin; by apply Hold).
    rewrite (holds_file_id _ _ _ _ _ _ Hrows). simpl.
    apply Forall2_length in Hrows. rewrite Hrows, length_seqZ. lia. }
  rewrite Hcc, Hcnt, bool_decide_eq_false_2 by (intros H; by apply H).
  change (Client.ok (json 200 _)) with true. cbv iota.
  set (now := date_now env_complete `div` 1000).
  set (db3 := touch_file db2 file_id now).
  exists db3, tg2, (set_updated_at now row).
  split; [done|].
  assert (live_file_of_user db3 file_id user_id = Some (set_updated_at now row)) as Hlive3.
  { unfold live_file_of_user, db3, touch_file. simpl. rewrite Hf. simpl.
    rewrite fmap_app, filter_app.
    rewrite filter_none.
    - simpl. rewrite decide_True by done. by rewrite filter_cons_True.
    - intros f (f0 & -> & Hf0)%list_elem_of_fmap [Hfid _].
      apply Hfresh. apply list_elem_of_fmap. exists f0. split; [|done].
      by case_decide. }
  split; [done|].
  (* download *)
  assert (Forall2 (λ jr j, j_bot jr ∈ pool
                           ∧ holds tg2 pool file_id (chunk_at chunk_size P j) j (j_chunk jr))
            (available_chunks db3 file_id) (seqZ 0 count)) as Hav.
  { apply (available_after_upload db3 (chunks db) rows).
    - exact Hc.
    - exact Hold.
    - unfold db3, touch_file. simpl. by rewrite Hb.
    - intros b Hbin. rewrite Forall_forall in Hus.
      destruct (Hus b Hbin) as (_ & _ & ch & Hch & _).
      apply healthy_bots_elem in Hbin as [Hbin (_ & Hact & _)].
      split_and!; [unfold db3, touch_file; simpl; by rewrite Hb|done|].
      destruct (b_channel_id b); [done|discriminate Hch].
    - exact Hrows. }
  pose proof (split_chunks_concat chunk_size chunk_size_pos P) as Hcat.
  rewrite <- Hcat at 1.
  apply download_fetches with (rows := available_chunks db3 file_id); [done|done| | | |].
  - intros Hnil. rewrite Hnil in Hav. apply Forall2_nil_inv_l in Hav.
    rewrite seqZ_cons in Hav by lia. done.
  - unfold split_chunks. fold count. rewrite split_loop_seqZ, Z2Nat.id by lia.
    apply Forall2_fmap_r.
    eapply Forall2_impl; [exact Hav|].
    intros jr j [Hin Hholds]. eapply fetches_kept; [|exact Hin|exact Hholds].
    eapply Forall_impl; [exact Hus|]. intros b. by apply usable_same_accounts.
  - cbn [set_updated_at f_mime_type]. rewrite Hrtype. simpl i_mime_type.
    by rewrite octet_stream_truthy.
  - cbn [set_updated_at f_file_name]. by rewrite Hrname.
Qed.
End StoreAndRead.

(** ** More of the routes *)

(** *** Lookups *)




(** X8. The upload routes write only when they answer 200, with one
    exception. A reply other than 200 of [upload/chunk] or
    [upload/complete] leaves the database as it was, and so does one of
    [upload/init], unless the file has more chunks than an array can
    have entries: then the row of the file is written before the plan
    of the reply fails, and the reply is 500. A 200 of [upload/init]
    comes only with a number of chunks that an array can hold and a
    device that is registered (or none), and
    appends one live file row of the caller, a 200 of [upload/chunk]
    appends one chunk row of the file of the request and leaves the
    files alone, and a 200 of [upload/complete] changes no chunk row
    and no file id. *)
Theorem refused_upload_leaves_no_trace chunk_size atob db tg user_id
    init_req chunk_req file_id env :
  let '(r1, db1) := upload_init chunk_size db user_id init_req env in
  let '(r2, db2, tg2) := upload_chunk atob db tg user_id chunk_req env in
  let '(r3, db3) := upload_complete db user_id file_id env in
  (status r1 ≠ 200 →
   db1 = db
   ∨ (MAX_ARRAY_LENGTH < chunk_count_of chunk_size (i_file_size init_req)
      ∧ status r1 = 500
      ∧ ∃ row, db1 = with_files db (files db ++ [row]) ∧ f_user_id row = user_id))
  ∧ (status r2 ≠ 200 → db2 = db)
  ∧ (status r3 ≠ 200 → db3 = db)
  ∧ (status r1 = 200 → ∃ row, files db1 = files db ++ [row] ∧ chunks db1 = chunks db
                              ∧ f_user_id row = user_id ∧ f_is_deleted row = false)
  ∧ (status r2 = 200 → ∃ row, chunks db2 = chunks db ++ [row] ∧ files db2 = files db
                              ∧ c_file_id row = q_file_id chunk_req)
  ∧ (status r3 = 200 → chunks db3 = chunks db
                       ∧ f_file_id <$> files db3 = f_file_id <$> files db)
  ∧ (status r1 = 200 →
     chunk_count_of chunk_size (i_file_size init_req) ≤ MAX_ARRAY_LENGTH
     ∧ references (truthy (i_device_id init_req)) (devices db) = true).
Proof.
  destruct (upload_init _ _ _ _ _) as [r1 db1] eqn:H1.
  destruct (upload_chunk _ _ _ _ _ _) as [[r2 db2] tg2] eqn:H2.
  destruct (upload_complete _ _ _ _) as [r3 db3] eqn:H3.
  split_and!.
  - revert H1. unfold upload_init, insert_file.
    repeat (case_match; simplify_eq/=; try done); intros; simplify_eq/=;
      try (by left); try done.
    all: right; split; [by apply Z.ltb_lt|]; split; [done|]; by eexists.
  - intros Hno. destruct (upload_chunk_effect _ _ _ _ _ _ _ _ _ H2) as [->|Hup]; [done|].
    revert H2 Hno. unfold upload_chunk.
    repeat (case_match; simplify_eq/=; try done); intros; simplify_eq/=; done.
  - revert H3. unfold upload_complete.
    repeat (case_match; simplify_eq/=; try done); intros; simplify_eq/=; done.
  - revert H1. unfold upload_init, insert_file.
    repeat (case_match; simplify_eq/=; try done); intros; simplify_eq/=; try done.
    all: eexists; split_and!; done.
  - intros Hok. pose proof (upload_chunk_200 _ _ _ _ _ _ _ _ _ H2 Hok) as Hup.
    destruct Hup as [i file bot channel data mid tfid _ _ _ _ _ _ _ _ _ Hins].
    apply insert_chunk_Ok in Hins as (-> & _). eexists. split_and!; done.
  - revert H3. unfold upload_complete.
    repeat (case_match; simplify_eq/=; try done); intros; simplify_eq/=; try done.
    split; [done|]. rewrite <- list_fmap_compose. apply list_fmap_ext.
    intros ? x ?. simpl. by destruct (decide _).
  - revert H1. unfold upload_init, insert_file.
    repeat (case_match; simplify_eq/=; try done); intros; simplify_eq/=; try done.
    all: split; [by apply Z.ltb_ge|done].
Qed.

(** *** Deleting a file *)

Lemma first_filter_fmap {A} (P : A → Prop) `{∀ x, Decision (P x)} (g : A → A) (l : list A) :
  (∀ x, P (g x) ↔ P x) →
  first (filter P (g <$> l)) = g <$> first (filter P l).
Proof.
  intros Hg. unfold first. induction l as [|x l IH]; [done|].
  rewrite fmap_cons, !filter_cons.
  destruct (decide (P (g x))) as [Hy|Hn], (decide (P x)) as [Hy'|Hn'];
    [done|destruct (Hg x); tauto|destruct (Hg x); tauto|exact IH].
Qed.

Lemma delete_file_200 db user_id file_id env resp db' :
  delete_file db user_id file_id env = (resp, db') → status resp = 200 →
  is_Some (file_of_user db file_id user_id)
  ∧ resp = json 200 [("success", JBool true); ("message", JStr "File deleted")]
  ∧ db' = mark_deleted db file_id (date_now env `div` 1000).
Proof.
  unfold delete_file. destruct (file_of_user db file_id user_id) as [f|]; [|by intros [= <- <-]].
  intros [= <- <-] _. eauto.
Qed.

Lemma live_after_mark_deleted db file_id now user_id :
  live_file_of_user (mark_deleted db file_id now) file_id user_id = None.
Proof.
  unfold live_file_of_user, mark_deleted. simpl. rewrite filter_none; [done|].
  intros y (x & -> & _)%list_elem_of_fmap (Hid & _ & Hlive).
  destruct (decide (f_file_id x = file_id)); [done|]. by apply n.
Qed.

Lemma live_other_after_mark_deleted db file_id now other user_id :
  other ≠ file_id →
  live_file_of_user (mark_deleted db file_id now) other user_id
  = live_file_of_user db other user_id.
Proof.
  intros Hne. unfold live_file_of_user, mark_deleted. simpl.
  induction (files db) as [|x l IH]; [done|].
  rewrite fmap_cons, !filter_cons.
  destruct (decide (f_file_id x = file_id)) as [Hx|Hx].
  - rewrite decide_False by (simpl; intros (? & _); congruence).
    rewrite decide_False by (intros (? & _); congruence). apply IH.
  - destruct (decide _); [done|apply IH].
Qed.

Lemma mark_deleted_ids db file_id now :
  f_file_id <$> files (mark_deleted db file_id now) = f_file_id <$> files db.
Proof.
  unfold mark_deleted. simpl. rewrite <- list_fmap_compose. apply list_fmap_ext.
  intros ? x ?. simpl. by destruct (decide _).
Qed.

(** X12. The soft delete. After [DELETE /:file_id] has answered 200, the
    read routes and [PUT /:file_id] answer 404 "File not found" for the
    file; its chunk rows, the bots and the ids of the file rows are as
    before, and the live files with another id are found as before. *)
Theorem deleted_file_is_gone db tg cache user_id file_id env resp db' :
  delete_file db user_id file_id env = (resp, db') → status resp = 200 →
  let not_found := json 404 [("error", JStr "File not found")] in
  chunks db' = chunks db ∧ bots db' = bots db
  ∧ f_file_id <$> files db' = f_file_id <$> files db
  ∧ download db' tg user_id file_id = (not_found, db', tg)
  ∧ (∀ range, stream db' tg cache user_id file_id range = not_found)
  ∧ (∀ req env', update_file db' user_id file_id req env' = (not_found, db'))
  ∧ (∀ other u, other ≠ file_id →
                live_file_of_user db' other u = live_file_of_user db other u).
Proof.
  intros Hrun Hok not_found.
  destruct (delete_file_200 _ _ _ _ _ _ Hrun Hok) as (_ & _ & ->).
  pose proof (live_after_mark_deleted db file_id (date_now env `div` 1000) user_id) as Hgone.
  split_and!; try done.
  - apply mark_deleted_ids.
  - unfold download. by rewrite Hgone.
  - intros range. unfold stream. by rewrite Hgone.
  - intros req env'. unfold update_file. by rewrite Hgone.
  - intros other u Hne. by apply live_other_after_mark_deleted.
Qed.

Lemma mark_deleted_twice db file_id now now' :
  mark_deleted (mark_deleted db file_id now) file_id now' = mark_deleted db file_id now'.
Proof.
  unfold mark_deleted, with_files. simpl. f_equal.
  rewrite <- list_fmap_compose. apply list_fmap_ext. intros ? x ?. simpl.
  destruct (decide (f_file_id x = file_id)) as [Hx|Hx]; simpl.
  - by rewrite decide_True.
  - by rewrite decide_False.
Qed.

Lemma file_of_user_mark_deleted db file_id now other user_id :
  file_of_user (mark_deleted db file_id now) other user_id
  = (λ f, if decide (f_file_id f = file_id) then set_deleted now f else f)
    <$> file_of_user db other user_id.
Proof.
  unfold file_of_user, mark_deleted. simpl. apply first_filter_fmap.
  intros x. by destruct (decide _).
Qed.

(** X13. Deleting twice. [DELETE /:file_id] does not look at [is_deleted]:
    on a file it has already deleted it answers 200 again, and the
    database differs from the one after a single delete only by the
    later [updated_at]. *)
Theorem delete_file_again db user_id file_id env env' resp db' :
  delete_file db user_id file_id env = (resp, db') → status resp = 200 →
  delete_file db' user_id file_id env'
  = (resp, mark_deleted db file_id (date_now env' `div` 1000)).
Proof.
  intros Hrun Hok.
  destruct (delete_file_200 _ _ _ _ _ _ Hrun Hok) as ([f Hf] & -> & ->).
  unfold delete_file. rewrite file_of_user_mark_deleted, Hf. simpl.
  by rewrite mark_deleted_twice.
Qed.

Lemma first_Some_elem {A} (P : A → Prop) `{∀ x, Decision (P x)} (l : list A) x :
  first (filter P l) = Some x → x ∈ l ∧ P x.
Proof.
  unfold first. intros Hx. apply head_Some_elem_of in Hx.
  apply list_elem_of_filter in Hx. tauto.
Qed.

Lemma first_is_Some {A} (P : A → Prop) `{∀ x, Decision (P x)} (l : list A) x :
  x ∈ l → P x → is_Some (first (filter P l)).
Proof.
  intros Hin HP. unfold first.
  destruct (filter P l) as [|y l'] eqn:Hf; [|by eexists].
  assert (x ∈ filter P l) as Hx by (by apply list_elem_of_filter).
  rewrite Hf in Hx. by apply elem_of_nil in Hx.
Qed.

(** X14. Delete, then upload again. While the owner has a live file with
    the hash of the request, [upload/init] answers 409; once that file
    (the only live one of the owner with this hash) is deleted, the
    same request is accepted with 200 and a new file id, when it names
    a device that is registered, or none, and a size of no more chunks
    than an array can have entries. When it names a device that is not
    registered, it is answered 500 and nothing is written. The request
    names no folder. *)
Theorem deleted_file_can_be_uploaded_again chunk_size db user_id req env env' existing :
  well_formed req →
  file_by_hash db user_id (i_file_hash req) = Some existing →
  (∀ f, f ∈ files db → f_user_id f = user_id → f_file_hash f = i_file_hash req →
        f_is_deleted f = false → f_file_id f = f_file_id existing) →
  healthy_bots db user_id ≠ [] →
  truthy (i_folder_id req) = None →
  init_file_id env' ∉ f_file_id <$> files db →
  let db' := (delete_file db user_id (f_file_id existing) env).2 in
  (upload_init chunk_size db user_id req env').1 = duplicate_reply (f_file_id existing)
  ∧ status (delete_file db user_id (f_file_id existing) env).1 = 200
  ∧ (references (truthy (i_device_id req)) (devices db) = true →
     chunk_count_of chunk_size (i_file_size req) ≤ MAX_ARRAY_LENGTH →
     (upload_init chunk_size db' user_id req env').1
     = init_reply (init_file_id env') (chunk_count_of chunk_size (i_file_size req))
         chunk_size (healthy_bots db user_id))
  ∧ (references (truthy (i_device_id req)) (devices db) = false →
     upload_init chunk_size db' user_id req env'
     = (json 500 [("error", JStr "Failed to initialize upload")], db')).
Proof.
  intros Hwf Hex Honly Hpool Hfolder Hfresh db'.
  destruct (first_Some_elem _ _ _ Hex) as (Hin & Hu & Hh & Hl).
  destruct (first_is_Some (λ f, f_file_id f = f_file_id existing ∧ f_user_id f = user_id)
              (files db) existing Hin) as [f Hf]; [done|].
  assert (delete_file db user_id (f_file_id existing) env
          = (json 200 [("success", JBool true); ("message", JStr "File deleted")],
             mark_deleted db (f_file_id existing) (date_now env `div` 1000))) as Hdel.
  { unfold delete_file, file_of_user. by rewrite Hf. }
  subst db'. rewrite Hdel. simpl.
  set (db' := mark_deleted _ _ _).
  assert (file_by_hash db' user_id (i_file_hash req) = None) as Hnone.
  { unfold file_by_hash, db', mark_deleted. simpl. rewrite filter_none; [done|].
    intros y (x & -> & Hx)%list_elem_of_fmap.
    destruct (decide (f_file_id x = f_file_id existing)) as [Hid|Hid].
    + by intros (_ & _ & ?).
    + intros (? & ? & ?). apply Hid. by apply Honly. }
  assert (init_file_id env' ∉ f_file_id <$> files db') as Hfresh'.
  { unfold db'. by rewrite mark_deleted_ids. }
  split_and!; [|done| |].
  - by rewrite (upload_init_duplicate chunk_size db user_id req env' existing).
  - intros Hdevice Hfew.
    by destruct (upload_init_accepts chunk_size db' user_id req env') as (row & -> & _).
  - intros Hdevice. by apply upload_init_unknown_device.
Qed.

(** *** Updating a file *)

Lemma available_chunks_same db db' file_id :
  chunks db' = chunks db → bots db' = bots db →
  available_chunks db' file_id = available_chunks db file_id.
Proof. intros Hc Hb. unfold available_chunks, join_active_bots. by rewrite Hc, Hb. Qed.

Lemma live_after_update db file_id user_id u now :
  live_file_of_user
    (with_files db ((λ f, if decide (f_file_id f = file_id) then updated u now f else f)
                      <$> files db)) file_id user_id
  = updated u now <$> live_file_of_user db file_id user_id.
Proof.
  unfold live_file_of_user. simpl.
  induction (files db) as [|x l IH]; [done|].
  rewrite fmap_cons, !filter_cons.
  destruct (decide (f_file_id x = file_id)) as [Hx|Hx].
  - destruct (decide (f_file_id x = file_id ∧ f_user_id x = user_id ∧ f_is_deleted x = false))
      as [Hy|Hn].
    + by rewrite decide_True.
    + by rewrite decide_False.
  - rewrite decide_False by (intros (? & _); done).
    rewrite decide_False by (intros (? & _); done). apply IH.
Qed.

(** X15. Rename. [PUT /:file_id] with [file_name] alone (what the web
    client sends) answers 200 and sets [file_name] and [updated_at];
    [file_path] and [folder_id] stay as they were, so the path keeps
    the old name. The content is untouched: when the chunk rows fetch
    [datas], [GET /download] then answers 200 with their concatenation
    under the new name, for a type and a new name without NUL, line
    feed and carriage return. A new name that
    holds one of these is stored all the same, and [GET /download]
    then answers 500. *)
Theorem renamed_file_keeps_its_path db user_id file_id file name env :
  live_file_of_user db file_id user_id = Some file →
  let req := {| p_file_name := Value name; p_folder_id := Undefined;
                p_file_path := Undefined; p_is_public := Undefined;
                p_public_title := Undefined; p_public_category := Undefined |} in
  ∃ db' file',
    update_file db user_id file_id req env = (update_ok, db')
    ∧ live_file_of_user db' file_id user_id = Some file'
    ∧ f_file_name file' = name
    ∧ f_file_path file' = f_file_path file
    ∧ f_folder_id file' = f_folder_id file
    ∧ f_updated_at file' = date_now env `div` 1000
    ∧ (∀ tg datas,
         available_chunks db file_id ≠ [] →
         Forall2 (fetches tg) (available_chunks db file_id) datas →
         (forbidden_free (octet_stream (f_mime_type file)) = true → forbidden_free name = true →
          download db' tg user_id file_id = (download_ok file' (concat datas), db', tg))
         ∧ (forbidden_free name = false →
            download db' tg user_id file_id
            = (download_failed (invalid_header_value 673), db', tg))).
Proof.
  intros Hfile req. unfold update_file. rewrite Hfile. simpl.
  eexists _, _. split; [reflexivity|].
  rewrite live_after_update, Hfile. simpl.
  split; [reflexivity|]. split_and!; try done.
  intros tg datas Hne Hall. split.
  - intros Htype Hname.
    apply download_fetches with (rows := available_chunks db file_id); try done.
    by rewrite live_after_update, Hfile.
  - intros Hname. unfold download.
    rewrite live_after_update, Hfile. cbn [fmap option_fmap option_map].
    change (available_chunks (with_files db _) file_id) with (available_chunks db file_id).
    rewrite bool_decide_eq_false_2 by done.
    rewrite (download_loop_fetches _ _ _ _ _ Hall), combine_concat.
    by rewrite download_reply_refused.
Qed.

(** X16. Move. [PUT /:file_id] with [folder_id] of a folder of the caller
    sets [folder_id] and [file_path = folder_path/name]; with
    [folder_id: null] it clears [folder_id] and sets
    [file_path = /name]. [name] is the [file_name] of the request when
    that is a string and not empty, and the stored name otherwise;
    the stored [file_name] becomes the one of the request when there
    is one, also an empty one, so that after a move with an empty
    [file_name] the row has no name and a path with the old name.
    A [file_name] of [null] is refused with 500 and nothing is
    changed. A [file_path] in the request is ignored. *)
Theorem moved_file_gets_folder_path db user_id file_id file req env target prefix :
  live_file_of_user db file_id user_id = Some file →
  (p_folder_id req = Null ∧ target = None ∧ prefix = "")
  ∨ (∃ d folder, d ≠ "" ∧ folder_of_user db d user_id = Some folder
                 ∧ p_folder_id req = Value d ∧ target = Some d
                 ∧ prefix = d_folder_path folder) →
  (p_file_name req = Null →
   update_file db user_id file_id req env
   = (json 500 [("error", JStr "Failed to update file")], db))
  ∧ (p_file_name req ≠ Null →
     ∃ db' file',
       update_file db user_id file_id req env = (update_ok, db')
       ∧ live_file_of_user db' file_id user_id = Some file'
       ∧ f_folder_id file' = target
       ∧ f_file_name file' = match p_file_name req with
                             | Value n => n
                             | _ => f_file_name file
                             end
       ∧ f_file_path file' = prefix +:+ "/" +:+ match p_file_name req with
                                                | Value (String a n) => String a n
                                                | _ => f_file_name file
                                                end).
Proof.
  intros Hfile Hdest. unfold update_file. rewrite Hfile.
  assert (∀ u, live_file_of_user
                 (with_files db
                    ((λ f, if decide (f_file_id f = file_id)
                           then updated u (date_now env `div` 1000) f else f) <$> files db))
                 file_id user_id
               = Some (updated u (date_now env `div` 1000) file)) as Hlive.
  { intros u. by rewrite live_after_update, Hfile. }
  destruct Hdest as [(Hf & -> & ->)|(d & folder & Hd & Hfolder & Hf & -> & ->)];
    rewrite ?Hf, ?Hfolder.
  - destruct (p_file_name req) as [| |[|a n]] eqn:Hn; (split; [try done|]).
    + intros _. eexists _, _.
      split; [unfold no_updates, sets_null, file_updates; rewrite Hf, Hn; reflexivity|].
      split; [by apply Hlive|]. done.
    + intros _. unfold no_updates, sets_null, file_updates. by rewrite Hf, Hn.
    + by intros [].
    + intros _. eexists _, _.
      split; [unfold no_updates, sets_null, file_updates; rewrite Hf, Hn; reflexivity|].
      split; [by apply Hlive|]. done.
    + intros _. eexists _, _.
      split; [unfold no_updates, sets_null, file_updates; rewrite Hf, Hn; reflexivity|].
      split; [by apply Hlive|]. done.
  - destruct d as [|b d]; [done|].
    destruct (p_file_name req) as [| |[|a n]] eqn:Hn; (split; [try done|]).
    + intros _. eexists _, _.
      split; [unfold no_updates, sets_null, file_updates; rewrite Hf, Hn; simpl;
              rewrite Hfolder; reflexivity|].
      split; [by apply Hlive|]. done.
    + intros _. unfold no_updates, sets_null, file_updates. by rewrite Hf, Hn.
    + by intros [].
    + intros _. eexists _, _.
      split; [unfold no_updates, sets_null, file_updates; rewrite Hf, Hn; simpl;
              rewrite Hfolder; reflexivity|].
      split; [by apply Hlive|]. done.
    + intros _. eexists _, _.
      split; [unfold no_updates, sets_null, file_updates; rewrite Hf, Hn; simpl;
              rewrite Hfolder; reflexivity|].
      split; [by apply Hlive|]. done.
Qed.

(** X17. [PUT /:file_id], whatever it answers, leaves the chunk rows, the
    bots and the folders as they are, changes no row of a file with
    another id, and in the rows it changes keeps the id, owner, size,
    hash, chunk count, mime type, creation time and [is_deleted]. A
    reply other than 200 changes nothing, and a body without any of
    the six fields is answered 400 (404 when the file is not found). *)
Theorem update_file_changes_metadata_only db user_id file_id req env :
  let '(resp, db') := update_file db user_id file_id req env in
  chunks db' = chunks db ∧ bots db' = bots db ∧ folders db' = folders db
  ∧ (status resp ≠ 200 → db' = db)
  ∧ (req = no_fields → status resp = 400 ∨ status resp = 404)
  ∧ Forall2 (λ f' f, same_content f' f ∧ f_is_deleted f' = f_is_deleted f
                     ∧ (f_file_id f ≠ file_id → f' = f))
      (files db') (files db).
Proof.
  destruct (update_file _ _ _ _ _) as [resp db'] eqn:Hrun.
  assert (Forall2 (λ f' f, same_content f' f ∧ f_is_deleted f' = f_is_deleted f
                           ∧ (f_file_id f ≠ file_id → f' = f)) (files db) (files db)) as Hrefl.
  { apply Forall_Forall2_diag, Forall_forall. intros f _. by repeat split. }
  revert Hrun. unfold update_file.
  destruct (live_file_of_user db file_id user_id) as [file|];
    [|intros [= <- <-]; split_and!; try done; (intros _; right; reflexivity)].
  destruct (match p_folder_id req with Value _ => _ | _ => false end);
    [intros [= <- <-]; split_and!; try done; (intros _; right; reflexivity)|].
  destruct (no_updates _) eqn:Hnone; [intros [= <- <-]; split_and!; try done; (intros _; left; reflexivity)|].
  destruct (sets_null _); intros [= <- <-]; split_and!; try done.
  - by intros ->.
  - by intros ->.
  - simpl. apply Forall2_fmap_l, Forall_Forall2_diag, Forall_forall. intros f _.
    simpl. destruct (decide (f_file_id f = file_id)) as [Hid|Hid].
    + split; [by repeat split|]. split; [done|]. by intros ?.
    + by repeat split.
Qed.

(** *** Bots *)

Lemma healthy_bots_intro db user_id b :
  b ∈ bots db → eligible user_id b → b ∈ healthy_bots db user_id.
Proof.
  intros Hin He. unfold healthy_bots. rewrite order_by_Permutation.
  apply list_elem_of_filter. split; [exact He|done].
Qed.

Lemma bot_of_user_after db bot_id user_id (g : Bot → Bot) :
  (∀ b, b_bot_id (g b) = b_bot_id b ∧ b_user_id (g b) = b_user_id b) →
  bot_of_user (with_bots db ((λ b, if decide (b_bot_id b = bot_id) then g b else b)
                               <$> bots db)) bot_id user_id
  = g <$> bot_of_user db bot_id user_id.
Proof.
  intros Hg. unfold bot_of_user. simpl.
  induction (bots db) as [|x l IH]; [done|].
  rewrite fmap_cons, !filter_cons.
  destruct (Hg x) as [Hid Hu].
  destruct (decide (b_bot_id x = bot_id)) as [Hx|Hx].
  - destruct (decide (b_bot_id x = bot_id ∧ b_user_id x = user_id)) as [Hy|Hn].
    + rewrite decide_True by (by rewrite Hid, Hu). done.
    + rewrite decide_False by (by rewrite Hid, Hu). apply IH.
  - rewrite decide_False by (intros (? & _); done).
    rewrite decide_False by (intros (? & _); done). apply IH.
Qed.


Lemma checkBotHealth_standing tg botToken : checkBotHealth tg botToken = standing tg botToken.
Proof.
  unfold checkBotHealth, standing, Service.validateBotToken, Service.getMe.
  destruct (tg_users tg !! botToken) as [u|]; [by destruct (u_is_bot u)|].
  by vm_compute.
Qed.

(** X20. [POST /api/bots/:bot_id/health] records what the Bot API makes of
    the token: [healthy] for a bot account, [banned] for a token it
    rejects with 401, [unknown] for an account that is not a bot,
    together with the time of the check. Afterwards the bot is in the
    pool of its owner exactly when it is active and the check said
    [healthy]; the pool membership of other bots is unchanged. *)
Theorem health_check_decides_pool db tg user_id bot_id bot env :
  bot_of_user db bot_id user_id = Some bot →
  NoDup (b_bot_id <$> bots db) →
  let health := standing tg (b_bot_token_enc bot) in
  let now := date_now env `div` 1000 in
  ∃ db',
    bot_health db tg user_id bot_id env = (health_reply bot_id health now, db')
    ∧ bot_of_user db' bot_id user_id = Some (set_health health now bot)
    ∧ files db' = files db ∧ chunks db' = chunks db
    ∧ (bot_id ∈ b_bot_id <$> healthy_bots db' user_id
       ↔ b_is_active bot = true ∧ health = healthy)
    ∧ (∀ u b, b_bot_id b ≠ bot_id → b ∈ healthy_bots db' u ↔ b ∈ healthy_bots db u).
Proof.
  intros Hbot Hnd health now. unfold bot_health. rewrite Hbot.
  rewrite checkBotHealth_standing. fold health now.
  eexists. split; [reflexivity|].
  set (db' := with_bots db _).
  destruct (first_Some_elem _ _ _ Hbot) as (Hin & Hid & Hu).
  assert (∀ x, x ∈ bots db → b_bot_id x = bot_id → x = bot) as Honly.
  { intros x Hx Hxid.
    apply list_elem_of_lookup in Hx as [i Hi]. apply list_elem_of_lookup in Hin as [j Hj].
    assert (i = j) as ->.
    { apply (NoDup_lookup _ i j bot_id Hnd); rewrite list_lookup_fmap.
      - by rewrite Hi; simpl; rewrite Hxid.
      - by rewrite Hj; simpl; rewrite Hid. }
    congruence. }
  split_and!; try done.
  - unfold db'. rewrite (bot_of_user_after db bot_id user_id (set_health health now)) by done.
    by rewrite Hbot.
  - split.
    + intros (b & Hbid & Hb)%list_elem_of_fmap.
      apply healthy_bots_elem in Hb as [Hb (_ & Hact & Hh)].
      unfold db' in Hb. simpl in Hb. apply list_elem_of_fmap in Hb as (x & -> & Hx).
      destruct (decide (b_bot_id x = bot_id)) as [Hxid|Hxid]; [|done].
      rewrite (Honly x Hx Hxid) in Hact, Hh. done.
    + intros [Hact Hh]. apply list_elem_of_fmap. exists (set_health health now bot).
      split; [done|]. apply healthy_bots_intro.
      * unfold db'. simpl. apply list_elem_of_fmap. exists bot. split; [|done].
        by rewrite decide_True.
      * split_and!; done.
  - intros u b Hne. split; intros Hb; apply healthy_bots_elem in Hb as [Hb He];
      (apply healthy_bots_intro; [|done]).
    + unfold db' in Hb. simpl in Hb. apply list_elem_of_fmap in Hb as (x & -> & Hx).
      destruct (decide (b_bot_id x = bot_id)) as [Hxid|Hxid]; [done|done].
    + unfold db'. simpl. apply list_elem_of_fmap. exists b. split; [|done].
      by rewrite decide_False.
Qed.

(** *** Chunks no bot serves *)

(** X18. Chunks no bot serves. When every bot that holds a chunk row of a
    live file is inactive or has no channel, [download] and [stream]
    answer 503 if the file has chunk rows and 404
    "File chunks not found" if it has none; nothing is fetched and
    nothing is changed. *)
Theorem chunks_on_idle_bots_are_unavailable db tg cache user_id file_id file :
  live_file_of_user db file_id user_id = Some file →
  (∀ c b, c ∈ chunks db → c_file_id c = file_id → b ∈ bots db →
          b_bot_id b = c_bot_id c → b_is_active b = false ∨ b_channel_id b = None) →
  let reply := if decide (file_id ∈ c_file_id <$> chunks db)
               then bots_idle
               else json 404 [("error", JStr "File chunks not found")] in
  download db tg user_id file_id = (reply, db, tg)
  ∧ ∀ range, stream db tg cache user_id file_id range = reply.
Proof.
  intros Hfile Hidle reply.
  assert (available_chunks db file_id = []) as Hrows.
  { unfold available_chunks. rewrite join_unfold, bind_none; [done|].
    intros c Hc. apply bind_none. intros b Hb.
    rewrite bool_decide_eq_false_2; [done|].
    intros (Hid & Hf & Hact & Hch).
    destruct (Hidle c b Hc Hf Hb (eq_sym Hid)) as [H|H]; [congruence|].
    rewrite H in Hch. by destruct Hch. }
  assert (no_chunks_response db file_id = reply) as Hreply.
  { unfold no_chunks_response, reply, count_chunks.
    destruct (filter _ (chunks db)) as [|c l] eqn:Hf.
    - rewrite decide_False; [done|]. intros (c & Hid & Hc)%list_elem_of_fmap.
      assert (c ∈ filter (λ c, c_file_id c = file_id) (chunks db)) as Hin
        by (by apply list_elem_of_filter).
      rewrite Hf in Hin. by apply elem_of_nil in Hin.
    - rewrite decide_True; [done|]. apply list_elem_of_fmap. exists c.
      assert (c ∈ filter (λ c, c_file_id c = file_id) (chunks db)) as Hin
        by (rewrite Hf; left).
      apply list_elem_of_filter in Hin. by destruct Hin. }
  split.
  - unfold download. by rewrite Hfile, Hrows, Hreply.
  - intros range. unfold stream. by rewrite Hfile, Hrows, Hreply.
Qed.

(** *** Streaming *)

Lemma stream_loop_serves tg rows datas :
  Forall2 (serves tg) rows datas → stream_loop tg rows = inl datas.
Proof.
  induction 1 as [|r d rows datas [Hr _] _ IH]; [done|]. simpl. by rewrite Hr, IH.
Qed.

(** [new Response] takes the reply 200 of [stream] when the type of
    the file holds no NUL, line feed or carriage return. *)
Lemma whole_reply_accepted file content :
  forbidden_free (octet_stream (f_mime_type file)) = true →
  new_Response 200
    [("Content-Type", octet_stream (f_mime_type file));
     ("Content-Length", pretty (Z.of_nat (length content)));
     ("Accept-Ranges", "bytes")]
    (BBytes content)
  = Some (stream_ok file content).
Proof.
  intros Htype. apply new_Response_typed; [done|].
  constructor; [apply content_length_value|].
  constructor; [done|constructor].
Qed.

(** X4. [GET /stream] without a Range header (or with an empty one), for
    a file whose type holds no NUL, line feed or carriage return: the
    chunk rows of the file, in whatever order the table holds them,
    are rows numbered 0, 1, 2, ... that serve their chunk data, and
    nothing is cached.
    The reply is 200 with the whole file, the concatenation of the
    chunks in index order, its Content-Length and
    [Accept-Ranges: bytes]. *)
Theorem stream_whole_file db tg cache user_id file_id file rows datas range :
  live_file_of_user db file_id user_id = Some file →
  forbidden_free (octet_stream (f_mime_type file)) = true →
  chunk_records db file_id rows →
  Forall2 (serves tg) rows datas →
  datas ≠ [] →
  range = None ∨ range = Some "" →
  cache (getCacheKey file_id 0 None) = None →
  available_chunks db file_id = rows
  ∧ stream db tg cache user_id file_id range = stream_ok file (concat datas).
Proof.
  intros Hfile Htype Hrec Hall Hne Hrange Hmiss.
  pose proof (available_chunks_records _ _ _ Hrec) as Hrows.
  split; [done|]. unfold stream. rewrite Hfile, Hrows.
  rewrite bool_decide_eq_false_2.
  2:{ intros ->. by apply Forall2_nil_inv_l in Hall. }
  assert (truthy range = None) as -> by (by destruct Hrange as [->| ->]).
  rewrite Hmiss, (stream_loop_serves _ _ _ Hall), combine_concat.
  rewrite whole_reply_accepted by done.
  by destruct (shouldCache _).
Qed.

Lemma slice_inverted {A} (l : list A) (a b : Z) : 0 ≤ b → b ≤ a → slice l a b = [].
Proof.
  intros Hb Hab. unfold slice, rel_index.
  destruct (Z.ltb_spec a 0) as [?|_]; [lia|]. destruct (Z.ltb_spec b 0) as [?|_]; [lia|].
  replace (Z.to_nat (Z.min b _ - Z.min a _)) with 0%nat by lia. apply take_0.
Qed.

Lemma extract_loop_inverted tg rows datas :
  Forall2 (serves tg) rows datas →
  ∀ off start end_,
    end_ < start →
    ∃ parts, extract_loop tg (needed_chunks rows off start end_) = inl parts
             ∧ concat parts = [].
Proof.
  induction 1 as [|r d rows datas [Hget Hsize] _ IH]; intros off start end_ Hinv.
  - by exists [].
  - simpl needed_chunks. rewrite Hsize.
    destruct (IH (off + Z.of_nat (length d)) start end_ Hinv) as (parts & Hparts & Hcat).
    destruct (Z.ltb_spec start (off + Z.of_nat (length d))) as [Hlt|Hge]; simpl andb;
      [|by exists parts].
    destruct (Z.leb_spec off end_) as [Hle|Hgt]; [|by exists parts].
    simpl extract_loop. rewrite Hget, Hparts. simpl.
    eexists. split; [done|]. simpl. rewrite Hcat, app_nil_r.
    apply slice_inverted; lia.
Qed.

(** X5. A range that selects no byte. For a header [bytes=a-b] with
    [min(b, size - 1) < a] (the start is at or past the end of the
    file, or the end is before the start), numbers that JavaScript
    holds exactly and a file whose type holds no NUL, line feed or
    carriage return,
    [GET /stream] answers 206 with an empty body, Content-Length 0 and
    [Content-Range: bytes a-min(b, size - 1)/size]; it never answers
    416. *)
Theorem unsatisfiable_range_is_answered_empty db tg cache user_id file_id file a b datas :
  live_file_of_user db file_id user_id = Some file →
  forbidden_free (octet_stream (f_mime_type file)) = true →
  Forall2 (serves tg) (available_chunks db file_id) datas →
  datas ≠ [] →
  0 ≤ a ≤ MAX_SAFE_INTEGER → 0 ≤ b ≤ MAX_SAFE_INTEGER →
  0 ≤ f_file_size file ≤ MAX_SAFE_INTEGER →
  let end_ := Z.min b (f_file_size file - 1) in
  cache (getCacheKey file_id 0 (Some (a, end_))) = None →
  end_ < a →
  stream db tg cache user_id file_id (Some ("bytes=" +:+ pretty a +:+ "-" +:+ pretty b))
  = range_ok file a end_ [].
Proof.
  intros Hfile Htype Hall Hne [Ha _] [Hb _] _ end_ Hmiss Hinv.
  pose proof (parseRange_bytes a b (f_file_size file) Ha Hb) as Hparse. fold end_ in Hparse.
  set (h := "bytes=" +:+ pretty a +:+ "-" +:+ pretty b) in *.
  assert (truthy (Some h) = Some h) as Hh by done.
  unfold stream. rewrite Hfile.
  rewrite bool_decide_eq_false_2.
  2:{ intros Hnil. rewrite Hnil in Hall. by apply Forall2_nil_inv_l in Hall. }
  rewrite Hh, Hparse, Hmiss.
  destruct (extract_loop_inverted _ _ _ Hall 0 a end_ Hinv) as (parts & -> & Hcat).
  rewrite combine_concat, Hcat.
  rewrite range_reply_accepted by done.
  by destruct (shouldCache _).
Qed.

(** *** The client *)

(** X2. The client and a payload that is already stored. When the owner
    has a live file with the hash of the payload, [upload/init] answers
    409 with [duplicate: true]; the client tests [initRes.ok] before
    it reads [duplicate], so [uploadToInfiniDrive] throws
    "Upload init failed" and nothing is changed: its branch for
    duplicates is never reached with this server. *)
Theorem client_refuses_stored_payload chunk_size atob clock btoa sha256_hex
    db tg user_id (P : bytes) fileName mimeType env_init env_complete existing :
  fileName ≠ "" → P ≠ [] → sha256_hex P ≠ "" →
  file_by_hash db user_id (sha256_hex P) = Some existing →
  (upload_init chunk_size db user_id
     {| i_file_name := fileName; i_file_size := Z.of_nat (length P);
        i_mime_type := Some mimeType; i_file_hash := sha256_hex P;
        i_device_id := None; i_file_path := Some ("/" +:+ fileName);
        i_folder_id := None; i_is_public := false;
        i_public_title := None; i_public_category := None |} env_init).1
  = duplicate_reply (f_file_id existing)
  ∧ Client.uploadToInfiniDrive chunk_size atob clock btoa sha256_hex db tg user_id P
      fileName mimeType env_init env_complete
    = (Throw "Upload init failed", db, tg).
Proof.
  intros Hname HP Hhash Hex.
  unfold Client.uploadToInfiniDrive.
  rewrite (upload_init_duplicate chunk_size db user_id _ env_init existing); [done| |done].
  split_and!; simpl; [done| |done]. destruct P; [done|simpl; lia].
Qed.

(** *** The plan of [upload/init] and the placement of [upload/chunk] *)

(** X9. The plan and the placement agree. For a pool that is not empty and
    [0 <= i < chunk_count], entry [i] of [bot_assignments] in the reply
    of [upload/init] names chunk [i] and the bot that [upload/chunk]
    selects for index [i] from the same pool; there is one entry per
    chunk. *)
Theorem announced_assignment_is_used (pool : list Bot) (chunk_count i : Z) :
  pool ≠ [] → 0 ≤ i < chunk_count →
  ∃ bot, select_bot pool i = Some bot
         ∧ bot_assignments pool chunk_count !! Z.to_nat i
           = Some (JObj [("chunk_index", JNum i); ("bot_id", JStr (b_bot_id bot))])
         ∧ length (bot_assignments pool chunk_count) = Z.to_nat chunk_count.
Proof.
  intros Hpool Hi.
  destruct (select_bot_mod pool i Hpool ltac:(lia)) as [_ [bot Hbot]].
  exists bot. split; [done|]. unfold bot_assignments. split.
  - rewrite list_lookup_fmap, lookup_seq_lt by lia. simpl.
    rewrite Z2Nat.id by lia. unfold select_bot in Hbot. by rewrite Hbot.
  - by rewrite length_fmap, length_seq.
Qed.

(** *** A size below zero *)

(** X10. A size below zero. [upload/init] refuses a [file_size] of 0 but
    not a negative one: for [-chunk_size < file_size < 0] (and a
    request that names no folder and a device that is registered, or
    none) it answers 200 with [chunk_count] 0 and no assignment,
    [upload/complete] then answers 200 at once, and [GET /download]
    of the completed file answers 404 "File chunks not found". *)
Theorem negative_size_completes_empty chunk_size db tg user_id req env env' :
  0 < chunk_size → - chunk_size < i_file_size req < 0 →
  i_file_name req ≠ "" → i_file_hash req ≠ "" →
  file_by_hash db user_id (i_file_hash req) = None →
  healthy_bots db user_id ≠ [] →
  truthy (i_folder_id req) = None →
  references (truthy (i_device_id req)) (devices db) = true →
  init_file_id env ∉ f_file_id <$> files db →
  init_file_id env ∉ c_file_id <$> chunks db →
  let file_id := init_file_id env in
  ∃ db1 db2,
    upload_init chunk_size db user_id req env
    = (init_reply file_id 0 chunk_size (healthy_bots db user_id), db1)
    ∧ bot_assignments (healthy_bots db user_id) 0 = []
    ∧ upload_complete db1 user_id file_id env' = (complete_ok file_id, db2)
    ∧ download db2 tg user_id file_id
      = (json 404 [("error", JStr "File chunks not found")], db2, tg).
Proof.
  intros Hpos Hsize Hname Hhash Hnone Hpool Hfolder Hdevice Hfresh Hnochunk file_id.
  assert (chunk_count_of chunk_size (i_file_size req) = 0) as Hcount.
  { unfold chunk_count_of, ceil_div. rewrite Z.div_small; lia. }
  destruct (upload_init_accepts chunk_size db user_id req env)
    as (row & Hinit & Hid & Hu & Hlive & Hcnt & _); try done.
  { split_and!; [done|lia|done]. }
  { by rewrite Hcount. }
  rewrite Hcount in Hinit, Hcnt. fold file_id in Hinit, Hid.
  set (db1 := with_files db (files db ++ [row])) in *.
  assert (file_of_user db1 file_id user_id = Some row) as Hfile.
  { rewrite <- Hid. apply file_of_user_new; [by rewrite Hid|done]. }
  assert (filter (λ c, c_file_id c = file_id) (chunks db) = []) as Hno.
  { apply filter_none. intros c Hc Hcid. apply Hnochunk.
    apply list_elem_of_fmap. by exists c. }
  exists db1, (touch_file db1 file_id (date_now env' `div` 1000)).
  split_and!; [done|done| |].
  - unfold upload_complete. rewrite bool_decide_eq_false_2 by done.
    rewrite Hfile. unfold count_chunks. change (chunks db1) with (chunks db).
    rewrite Hno, Hcnt. done.
  - set (db2 := touch_file _ _ _).
    assert (is_Some (live_file_of_user db2 file_id user_id)) as [f Hf].
    { apply (first_is_Some _ _ (set_updated_at (date_now env' `div` 1000) row)); [|by split_and!].
      unfold db2, touch_file. simpl. apply list_elem_of_fmap. exists row.
      rewrite decide_True by done. split; [done|]. apply elem_of_app. right. by left. }
    unfold download. rewrite Hf.
    assert (available_chunks db2 file_id = []) as ->.
    { unfold available_chunks. rewrite join_unfold. simpl. rewrite bind_none; [done|].
      intros c Hc. apply bind_none. intros b _.
      rewrite bool_decide_eq_false_2; [done|]. intros (_ & Hcid & _).
      apply Hnochunk. apply list_elem_of_fmap. by exists c. }
    rewrite bool_decide_eq_true_2 by done.
    unfold no_chunks_response, count_chunks. simpl. by rewrite Hno.
Qed.

(** *** The order of the pool *)

Lemma order_by_head {A} (le : A → A → bool) (l : list A) x :
  le x x = true → x ∈ l →
  (∀ y, y ∈ l → y = x ∨ (le x y = true ∧ le y x = false)) →
  head (order_by le l) = Some x.
Proof.
  intros Hrefl. induction l as [|y l IH]; intros Hin Hall; [by apply elem_of_nil in Hin|].
  simpl. destruct (Hall y ltac:(by left)) as [->|[_ Hyx]].
  - destruct (order_by le l) as [|z r] eqn:Hsorted; [done|]. simpl.
    assert (z ∈ l) as Hz by (rewrite <- (order_by_Permutation le l), Hsorted; left).
    destruct (Hall z ltac:(by right)) as [->|[Hxz _]]; [by rewrite Hrefl|by rewrite Hxz].
  - apply elem_of_cons in Hin as [->|Hin]; [congruence|].
    assert (head (order_by le l) = Some x) as Hh
      by (apply IH; [done|intros w Hw; apply Hall; by right]).
    destruct (order_by le l) as [|z r]; [done|]. simpl in *.
    injection Hh as ->. by rewrite Hyx.
Qed.

(** X21. The pool is ordered by the time of the last health check. After a
    check that finds an active bot healthy at a time later than the
    checks of the other bots in the pool of its owner, the bot is the
    first of the pool, so chunk 0 of the next upload goes to it. *)
Theorem healthy_check_moves_bot_first db tg user_id bot_id bot env :
  bot_of_user db bot_id user_id = Some bot →
  NoDup (b_bot_id <$> bots db) →
  b_is_active bot = true →
  standing tg (b_bot_token_enc bot) = healthy →
  let now := date_now env `div` 1000 in
  (∀ b t, b ∈ healthy_bots db user_id → b_bot_id b ≠ bot_id →
          b_last_health_check b = Some t → t < now) →
  let db' := (bot_health db tg user_id bot_id env).2 in
  head (healthy_bots db' user_id) = Some (set_health healthy now bot)
  ∧ select_bot (healthy_bots db' user_id) 0 = Some (set_health healthy now bot).
Proof.
  intros Hbot Hnd Hact Hst now Hearlier db'.
  destruct (first_Some_elem _ _ _ Hbot) as (Hin & Hid & Hu).
  assert (db' = with_bots db ((λ b, if decide (b_bot_id b = bot_id)
                                    then set_health healthy now b else b) <$> bots db)) as Hdb'.
  { unfold db', bot_health. rewrite Hbot, checkBotHealth_standing, Hst. done. }
  assert (∀ x, x ∈ bots db → b_bot_id x = bot_id → x = bot) as Honly.
  { intros x Hx Hxid.
    apply list_elem_of_lookup in Hx as [i Hi]. apply list_elem_of_lookup in Hin as [j Hj].
    assert (i = j) as ->.
    { apply (NoDup_lookup _ i j bot_id Hnd); rewrite list_lookup_fmap.
      - by rewrite Hi; simpl; rewrite Hxid.
      - by rewrite Hj; simpl; rewrite Hid. }
    congruence. }
  assert (head (healthy_bots db' user_id) = Some (set_health healthy now bot)) as Hhead.
  { unfold healthy_bots. apply order_by_head.
    - unfold health_check_desc. simpl. apply Z.leb_refl.
    - apply list_elem_of_filter. split; [by split_and!|].
      rewrite Hdb'. simpl. apply list_elem_of_fmap. exists bot.
      by rewrite decide_True.
    - intros y [Hy Hyin]%list_elem_of_filter.
      rewrite Hdb' in Hyin. simpl in Hyin. apply list_elem_of_fmap in Hyin as (x & -> & Hx).
      destruct (decide (b_bot_id x = bot_id)) as [Hxid|Hxid].
      + left. by rewrite (Honly x Hx Hxid).
      + right. unfold health_check_desc. simpl.
        destruct (b_last_health_check x) as [t|] eqn:Ht; [|done].
        assert (t < now) as Hlt.
        { apply (Hearlier x t); [|done..]. by apply healthy_bots_intro. }
        split; [apply Z.leb_le|apply Z.leb_gt]; lia. }
  split; [done|].
  unfold select_bot, index, rem. rewrite Z.rem_0_l.
  - simpl. by rewrite <- head_lookup.
  - destruct (healthy_bots db' user_id); [done|simpl; lia].
Qed.

(** *** Configuring the channel of a bot *)

Lemma insert_sorted_fmap {A} (le : A → A → bool) (g : A → A) x l :
  (∀ a b, le (g a) (g b) = le a b) →
  insert_sorted le (g x) (g <$> l) = g <$> insert_sorted le x l.
Proof.
  intros Hle. induction l as [|y l IH]; [done|].
  rewrite fmap_cons. cbn [insert_sorted]. rewrite Hle.
  destruct (le x y); [done|]. by rewrite fmap_cons, IH.
Qed.

Lemma order_by_fmap {A} (le : A → A → bool) (g : A → A) (l : list A) :
  (∀ a b, le (g a) (g b) = le a b) →
  order_by le (g <$> l) = g <$> order_by le l.
Proof.
  intros Hle. induction l as [|y l IH]; [done|].
  rewrite fmap_cons.
  change (order_by le (g y :: (g <$> l)))
    with (insert_sorted le (g y) (order_by le (g <$> l))).
  rewrite IH. by apply insert_sorted_fmap.
Qed.

Lemma filter_fmap_same {A} (P : A → Prop) `{∀ x, Decision (P x)} (g : A → A) (l : list A) :
  (∀ x, P (g x) ↔ P x) → filter P (g <$> l) = g <$> filter P l.
Proof.
  intros Hg. induction l as [|y l IH]; [done|].
  rewrite fmap_cons, !filter_cons.
  destruct (decide (P (g y))) as [Hy|Hn], (decide (P y)) as [Hy'|Hn'];
    [by rewrite IH|destruct (Hg y); tauto|destruct (Hg y); tauto|exact IH].
Qed.

Lemma healthy_bots_after db user_id (g : Bot → Bot) :
  (∀ b, b_user_id (g b) = b_user_id b ∧ b_is_active (g b) = b_is_active b
        ∧ b_health_status (g b) = b_health_status b
        ∧ b_last_health_check (g b) = b_last_health_check b) →
  healthy_bots (with_bots db (g <$> bots db)) user_id = g <$> healthy_bots db user_id.
Proof.
  intros Hg. unfold healthy_bots. simpl.
  rewrite filter_fmap_same.
  - apply order_by_fmap. intros a b. unfold health_check_desc.
    destruct (Hg a) as (_ & _ & _ & ->), (Hg b) as (_ & _ & _ & ->). done.
  - intros b. destruct (Hg b) as (-> & -> & -> & _). done.
Qed.

(** X22. Configuring a channel. While the bot selected for a chunk has no
    channel, [upload/chunk] answers 400 "Bot channel not configured"
    and sends nothing. After [PUT /api/bots/:bot_id/channel] with a
    channel the Bot API knows, the same request answers 200 and the
    new chunk row records that bot and that channel. *)
Theorem configured_channel_enables_upload atob db tg user_id req env i file bot channel data :
  q_chunk_index req = Some i →
  q_file_id req ≠ "" ∧ q_chunk_data req ≠ "" ∧ q_chunk_hash req ≠ "" →
  file_of_user db (q_file_id req) user_id = Some file →
  0 ≤ i < f_chunk_count file →
  select_bot (healthy_bots db user_id) i = Some bot →
  truthy (b_channel_id bot) = None →
  channel ≠ "" → channel ∈ tg_chats tg →
  is_Some (tg_users tg !! b_bot_token_enc bot) →
  atob (q_chunk_data req) = Ok data →
  chunk_id_of (q_file_id req) i ∉ c_chunk_id <$> chunks db →
  (q_file_id req, i) ∉ chunk_keys db →
  upload_chunk atob db tg user_id req env
  = (json 400 [("error", JStr "Bot channel not configured")], db, tg)
  ∧ ∃ db1,
      bot_channel db user_id (b_bot_id bot) (Some channel)
      = (channel_set (b_bot_id bot) channel, db1)
      ∧ ∃ resp db2 tg2 row,
          upload_chunk atob db1 tg user_id req env = (resp, db2, tg2)
          ∧ status resp = 200
          ∧ chunks db2 = chunks db ++ [row]
          ∧ c_bot_id row = b_bot_id bot ∧ c_channel_id row = channel
          ∧ c_chunk_index row = i.
Proof.
  intros Hi (Hf & Hd & Hh) Hfile [Hi0 Hi1] Hsel Hnochan Hch Hchat Huser Hdata Hid Hkey.
  assert (healthy_bots db user_id ≠ []) as Hpool.
  { intros Hnil. rewrite Hnil in Hsel. unfold select_bot, index in Hsel.
    by destruct (_ <? 0). }
  pose proof (select_bot_elem _ _ _ Hsel) as Hin.
  apply healthy_bots_elem in Hin as [Hin (Hu & _)].
  split.
  - unfold upload_chunk. rewrite Hi.
    rewrite bool_decide_eq_false_2 by (intros [?|[?|?]]; done).
    rewrite Hfile. destruct (Z.leb_spec (f_chunk_count file) i); [lia|].
    rewrite bool_decide_eq_false_2 by done. by rewrite Hsel, Hnochan.
  - set (g := λ b, if decide (b_bot_id b = b_bot_id bot) then set_channel channel b else b).
    exists (with_bots db (g <$> bots db)). split.
    { unfold bot_channel.
      replace (truthy (Some channel)) with (Some channel) by (by destruct channel).
      destruct (first_is_Some (λ b, b_bot_id b = b_bot_id bot ∧ b_user_id b = user_id)
                  (bots db) bot Hin) as [b Hb]; [done|].
      unfold bot_of_user. by rewrite Hb. }
    set (db1 := with_bots db (g <$> bots db)).
    assert (healthy_bots db1 user_id = g <$> healthy_bots db user_id) as Hpool1.
    { apply healthy_bots_after. intros b. unfold g. by destruct (decide _). }
    assert (select_bot (healthy_bots db1 user_id) i = Some (set_channel channel bot)) as Hsel1.
    { rewrite Hpool1. unfold select_bot, index in *. rewrite length_fmap.
      destruct (_ <? 0); [done|]. rewrite list_lookup_fmap, Hsel. simpl.
      unfold g. by rewrite decide_True. }
    unfold upload_chunk. rewrite Hi.
    rewrite bool_decide_eq_false_2 by (intros [?|[?|?]]; done).
    change (file_of_user db1 (q_file_id req) user_id)
      with (file_of_user db (q_file_id req) user_id).
    rewrite Hfile. destruct (Z.leb_spec (f_chunk_count file) i); [lia|].
    rewrite bool_decide_eq_false_2 by (rewrite Hpool1; by destruct (healthy_bots db user_id)).
    rewrite Hsel1. cbn [b_channel_id set_channel b_bot_token_enc b_bot_id].
    replace (truthy (Some channel)) with (Some channel) by (by destruct channel).
    rewrite Hdata, sendDocument_live by done.
    unfold insert_chunk. cbn [c_chunk_id c_file_id c_chunk_index].
    change (chunks db1) with (chunks db).
    rewrite bool_decide_eq_false_2 by done.
    rewrite bool_decide_eq_false_2 by done.
    eexists _, _, _, _. split; [reflexivity|]. done.
Qed.

(** *** Cache keys *)

(** X6. [getCacheKey]: for one file and chunk index, two ranges with
    starts that are not negative have the same key only when they are
    the same range, and the key of a range is never the key without a
    range. *)
Theorem cache_keys_tell_ranges_apart file_id (k s e s' e' : Z) :
  0 ≤ s → 0 ≤ s' →
  (getCacheKey file_id k (Some (s, e)) = getCacheKey file_id k (Some (s', e'))
   → s = s' ∧ e = e')
  ∧ getCacheKey file_id k (Some (s, e)) ≠ getCacheKey file_id k None.
Proof.
  intros Hs Hs'. unfold getCacheKey. split.
  - intros Heq. do 5 apply (inj (String.app _)) in Heq.
    destruct (pretty_nonneg_digits s Hs) as (Hd & _ & Hv).
    destruct (pretty_nonneg_digits s' Hs') as (Hd' & _ & Hv').
    pose proof (span_digits_app (pretty s) ("-" +:+ pretty e) Hd eq_refl) as H1.
    pose proof (span_digits_app (pretty s') ("-" +:+ pretty e') Hd' eq_refl) as H2.
    rewrite Heq, H2 in H1. injection H1 as Hps Hpe.
    split.
    + by rewrite <- Hv, <- Hv', Hps.
    + symmetry. by apply (inj pretty).
  - intros Heq. do 3 apply (inj (String.app _)) in Heq.
    rewrite <- (string_app_nil_r (pretty k)) in Heq at 2.
    apply (inj (String.app _)) in Heq. done.
Qed.

(** *** A reply 200 of [download] *)

Lemma download_loop_fetched db tg file_id rows buffers db' tg' :
  download_loop db tg file_id rows = (inl buffers, db', tg') →
  Fetched file_id db tg rows buffers db' tg'.
Proof.
  revert db tg buffers db' tg'.
  induction rows as [|r rows IH]; intros db tg buffers db' tg'; simpl.
  - intros [= <- <- <-]. constructor.
  - destruct (download_chunk db tg file_id r) as [[[d|m] db1] tg1] eqn:Hr; [|done].
    destruct (download_loop db1 tg1 file_id rows) as [[[bs|resp] db2] tg2] eqn:Hrest; [|done].
    intros [= <- <- <-]. econstructor; [exact Hr|]. by apply IH.
Qed.

Lemma download_loop_reply db tg file_id rows response db' tg' :
  download_loop db tg file_id rows = (inr response, db', tg') →
  status response = 404 ∨ status response = 500.
Proof.
  revert db tg. induction rows as [|r rows IH]; intros db tg; simpl; [done|].
  destruct (download_chunk db tg file_id r) as [[[d|m] db2] tg2].
  - destruct (download_loop db2 tg2 file_id rows) as [[[bs|resp] db3] tg3] eqn:Hrest; [done|].
    intros [= <- <- <-]. by eapply IH.
  - intros [= <- <- <-]. unfold download_chunk_error. destruct (_ || _); [by left|by right].
Qed.

(** What [new Response] makes of the reply 200 of [download], when it
    makes one. *)
Lemma download_reply_sent file content response :
  new_Response 200
    [("Content-Type", octet_stream (f_mime_type file));
     ("Content-Disposition",
      "attachment; filename=" +:+ quote +:+ f_file_name file +:+ quote);
     ("Content-Length", pretty (Z.of_nat (length content)))]
    (BBytes content)
  = Some response →
  response = download_ok file content.
Proof.
  set (v := "attachment; filename=" +:+ quote +:+ f_file_name file +:+ quote).
  assert (normalize v = v) as Hv.
  { unfold v. rewrite <- !string_app_assoc.
    rewrite (string_app_assoc _ quote (f_file_name file)).
    by apply normalize_between. }
  destruct (content_length_value (Z.of_nat (length content))) as [Hn _].
  unfold new_Response. cbn [new_Headers]. cbv zeta. rewrite Hv, Hn.
  destruct (forbidden_free (normalize _)); [|done].
  destruct (forbidden_free v); [|done].
  destruct (forbidden_free (pretty _)); [|done].
  by intros [= <-].
Qed.

(** X25. A reply 200 of [GET /download] carries one buffer for every row
    of the chunk query, in the order of the query: the turns of the
    download loop run over all rows, each from the state that the
    turns before it have left, and each yields the buffer in its
    place; the body of the reply is the concatenation of these
    buffers. A row whose turn fails ends the request with 404 or 500
    and is never left out of a 200. *)
Theorem download_200_has_every_row db tg user_id file_id resp db' tg' :
  download db tg user_id file_id = (resp, db', tg') →
  status resp = 200 →
  ∃ file datas,
    live_file_of_user db file_id user_id = Some file
    ∧ available_chunks db file_id ≠ []
    ∧ Fetched file_id db tg (available_chunks db file_id) datas db' tg'
    ∧ resp = download_ok file (concat datas).
Proof.
  unfold download.
  destruct (live_file_of_user db file_id user_id) as [file|]; [|by intros [= <- <- <-]].
  case_bool_decide as Hrows.
  { intros [= <- <- <-]. unfold no_chunks_response. by destruct (0 <? _). }
  destruct (download_loop db tg file_id (available_chunks db file_id))
    as [[[buffers|response] db1] tg1] eqn:Hloop.
  - rewrite combine_concat.
    destruct (new_Response 200 _ _) as [response|] eqn:Hnew; [|by intros [= <- <- <-]].
    intros [= <- <- <-] _.
    exists file, buffers. split_and!; try done.
    + by apply download_loop_fetched.
    + by apply download_reply_sent.
  - intros [= <- <- <-] Hok.
    destruct (download_loop_reply _ _ _ _ _ _ _ Hloop) as [H|H]; rewrite H in Hok; done.
Qed.

(** *** Stale references *)

Lemma recoverable_after_post tg r data channel content :
  recoverable tg r data →
  recoverable (Service.post tg channel content).2 r data.
Proof.
  intros (Hb & Hu & Hch & Hchat & Hm0 & Hm & Hmsg & Hf0 & Hfresh & Hfile).
  unfold recoverable. simpl. split_and!; try done.
  - lia.
  - rewrite lookup_insert_ne; [done|]. intros [= _ Heq]. lia.
  - intros k Hk. replace (tg_next tg + 1 + k) with (tg_next tg + (1 + k)) by lia.
    apply Hfresh. lia.
  - assert (j_telegram_file_id r ≠ Service.fresh_file_id tg) as Hne.
    { unfold Service.fresh_file_id. rewrite <- (Z.add_0_r (tg_next tg)). by apply Hfresh. }
    destruct content as [d|]; [|done].
    by rewrite lookup_insert_ne.
Qed.

Lemma download_chunk_recoverable db tg file_id r data :
  recoverable tg r data →
  ∃ db' tg',
    download_chunk db tg file_id r = (Ok data, db', tg')
    ∧ bots db' = bots db ∧ files db' = files db
    ∧ ∀ r' data', recoverable tg r' data' → recoverable tg' r' data'.
Proof.
  intros (Hb & (u & Hu & Hbot) & Hch & Hchat & Hm0 & Hm & Hmsg & Hf0 & Hfresh & [Hfile|Hfile]).
  - (* the stored file_id is stale: the fallback *)
    assert (∃ m, fetch_by_file_id tg r = Throw m) as [m Hfetch].
    { unfold fetch_by_file_id, Service.getBotInfo, Service.validateBotToken, Service.getMe.
      rewrite Hu, Hbot.
      destruct (Service.downloadFile tg (j_bot_token_enc r) (j_telegram_file_id r))
        as [d|m] eqn:Hdl; [|by exists m].
      exfalso. revert Hdl.
      unfold Service.downloadFile, Service.downloadFile_try, Service.getFile,
        Service.api_getFile, Service.api_error. rewrite Hu, Hfile.
      repeat case_match; discriminate. }
    pose proof (download_chunk_fallback db tg file_id r m Hb Hfetch Hch Hm0) as Hfb.
    assert (is_Some (tg_users tg !! j_bot_token_enc r)) as Hsome by (by exists u).
    destruct (getFileFromMessage_live tg (j_bot_token_enc r) (j_stored_channel_id r)
                (j_telegram_message_id r) data Hsome Hchat Hmsg) as [Hget Hdl].
    cbv zeta in Hfb. rewrite Hget in Hfb.
    pose proof (fresh_file_id_nonempty tg) as Hfresh'.
    destruct (Service.fresh_file_id tg) as [|a fresh] eqn:Hid; [done|].
    rewrite Hdl in Hfb.
    eexists _, _. split; [exact Hfb|]. split_and!; try done.
    intros r' data'. apply recoverable_after_post.
  - exists db, tg. split; [|done].
    apply download_chunk_fetches. split; [done|].
    unfold fetch_by_file_id, Service.getBotInfo, Service.validateBotToken, Service.getMe.
    rewrite Hu, Hbot. apply downloadFile_stored; [by exists u|done..].
Qed.

Lemma download_loop_recoverable file_id rows datas :
  ∀ db tg,
    Forall2 (recoverable tg) rows datas →
    ∃ db' tg', download_loop db tg file_id rows = (inl datas, db', tg')
               ∧ bots db' = bots db ∧ files db' = files db.
Proof.
  revert datas. induction rows as [|r rows IH]; intros datas db tg Hall.
  - apply Forall2_nil_inv_l in Hall as ->. by exists db, tg.
  - apply Forall2_cons_inv_l in Hall as (d & ds & Hr & Hrest & ->).
    destruct (download_chunk_recoverable db tg file_id r d Hr)
      as (db1 & tg1 & Hturn & Hb1 & Hf1 & Hkeep).
    destruct (IH ds db1 tg1) as (db2 & tg2 & Hloop & Hb2 & Hf2).
    { eapply Forall2_impl; [exact Hrest|]. intros r' d'. apply Hkeep. }
    exists db2, tg2. simpl. rewrite Hturn, Hloop. split_and!; congruence.
Qed.

(** X28. [download] recovers a file with stale references. The chunk
    rows of the file, in whatever order the table holds them, are rows
    numbered 0, 1, 2, ...; each has a bot account, and its message is
    still in its channel with the data of the chunk, while its stored
    [file_id] either still resolves to that data or is unknown to the
    Bot API. Then [GET /download] answers 200 with the concatenation
    of the chunk data in index order (for a file whose type and name
    hold no NUL, line feed or carriage return):
    each stale row is fetched through the message fallback, and the
    repairs of earlier rows do not disturb the later ones. *)
Theorem download_recovers_stale_chunks db tg user_id file_id file rows datas :
  live_file_of_user db file_id user_id = Some file →
  forbidden_free (octet_stream (f_mime_type file)) = true →
  forbidden_free (f_file_name file) = true →
  chunk_records db file_id rows →
  Forall2 (recoverable tg) rows datas →
  datas ≠ [] →
  ∃ db' tg',
    available_chunks db file_id = rows
    ∧ download db tg user_id file_id = (download_ok file (concat datas), db', tg')
    ∧ bots db' = bots db ∧ files db' = files db.
Proof.
  intros Hfile Htype Hname Hrec Hall Hne.
  pose proof (available_chunks_records _ _ _ Hrec) as Hrows.
  unfold download. rewrite Hfile, Hrows.
  rewrite bool_decide_eq_false_2.
  2:{ intros ->. by apply Forall2_nil_inv_l in Hall. }
  destruct (download_loop_recoverable file_id _ _ db tg Hall) as (db' & tg' & -> & Hb & Hf).
  exists db', tg'. by rewrite combine_concat, download_reply_accepted.
Qed.

Lemma issued_before tg (n k : Z) :
  n < tg_next tg → 0 ≤ k → "BQAC" +:+ pretty n ≠ "BQAC" +:+ pretty (tg_next tg + k).
Proof.
  intros Hn Hk Heq. apply (inj (String.app _)) in Heq. apply (inj pretty) in Heq. lia.
Qed.

(** *** Deleting a file during its upload *)

Lemma file_of_user_count db file_id now other user_id :
  f_chunk_count <$> file_of_user (mark_deleted db file_id now) other user_id
  = f_chunk_count <$> file_of_user db other user_id.
Proof.
  rewrite file_of_user_mark_deleted. destruct (file_of_user db other user_id) as [f|]; [|done].
  simpl. by destruct (decide _).
Qed.

(** X29. Deleting a file does not stop its upload. [upload/chunk]
    and [upload/complete] look the file up without [is_deleted]: on
    the database after a soft delete they give the reply they give on
    the database before it, send the same to the channel and write
    the same chunk rows. *)
Theorem upload_ignores_deletion atob db tg user_id file_id now req env :
  let db' := mark_deleted db file_id now in
  (upload_chunk atob db' tg user_id req env).1.1 = (upload_chunk atob db tg user_id req env).1.1
  ∧ chunks (upload_chunk atob db' tg user_id req env).1.2
    = chunks (upload_chunk atob db tg user_id req env).1.2
  ∧ (upload_chunk atob db' tg user_id req env).2 = (upload_chunk atob db tg user_id req env).2
  ∧ ∀ id, (upload_complete db' user_id id env).1 = (upload_complete db user_id id env).1.
Proof.
  intros db'.
  assert (∀ id, f_chunk_count <$> file_of_user db' id user_id
                = f_chunk_count <$> file_of_user db id user_id) as Hcount
    by (intros id; apply file_of_user_count).
  assert (upload_chunk atob db' tg user_id req env
          = let '(r, d, t) := upload_chunk atob db tg user_id req env in
            (r, with_files d (files db'), t)) as Hchunk.
  { unfold upload_chunk.
    destruct (q_chunk_index req) as [i|]; [|done].
    case_bool_decide; [done|].
    specialize (Hcount (q_file_id req)).
    destruct (file_of_user db' (q_file_id req) user_id) as [f'|],
      (file_of_user db (q_file_id req) user_id) as [f|]; simplify_eq/=; [|done].
    rewrite Hcount.
    change (healthy_bots db' user_id) with (healthy_bots db user_id).
    destruct (f_chunk_count f <=? i); [done|].
    case_bool_decide; [done|].
    destruct (select_bot _ i) as [bot|]; [|done].
    destruct (truthy (b_channel_id bot)) as [channel|]; [|done].
    destruct (atob (q_chunk_data req)) as [data|m]; [|done].
    destruct (Service.sendDocument _ _ _ _) as [[[mid tfid]|m] tg']; [|done].
    unfold insert_chunk. change (chunks db') with (chunks db).
    repeat case_bool_decide; done. }
  rewrite Hchunk. destruct (upload_chunk atob db tg user_id req env) as [[r d] t].
  split_and!; try done.
  intros id. unfold upload_complete. case_bool_decide; [done|].
  specialize (Hcount id).
  destruct (file_of_user db' id user_id) as [f'|],
    (file_of_user db id user_id) as [f|]; simplify_eq/=; [|done].
  rewrite Hcount. change (count_chunks db' id) with (count_chunks db id).
  by case_bool_decide.
Qed.

(** *** Chunk ids *)

Lemma all_digits_no_underscore s : all_digits s = true → no_underscore s = true.
Proof.
  induction s as [|a s IH]; [done|]. simpl. intros [Ha Hs]%andb_true_iff.
  rewrite IH by done. rewrite andb_true_r. apply negb_true_iff, bool_decide_eq_false_2.
  intros ->. by vm_compute in Ha.
Qed.

Lemma pretty_no_underscore (i : Z) : no_underscore (pretty i) = true.
Proof.
  destruct i as [|p|p].
  - done.
  - apply all_digits_no_underscore. by apply (pretty_nonneg_digits (Z.pos p)).
  - change (pretty (Z.neg p)) with ("-" +:+ pretty (Z.pos p)).
    simpl. apply all_digits_no_underscore. by apply (pretty_nonneg_digits (Z.pos p)).
Qed.

Lemma underscore_inside x y : no_underscore (x +:+ String underscore y) = false.
Proof.
  induction x as [|a x IH]; simpl; [done|]. rewrite IH. apply andb_false_r.
Qed.

Lemma split_at_last_underscore f f' d d' :
  no_underscore d = true → no_underscore d' = true →
  f +:+ String underscore d = f' +:+ String underscore d' → f = f' ∧ d = d'.
Proof.
  intros Hd Hd'. revert f'. induction f as [|a f IH]; intros [|b f']; simpl.
  - by intros [= ->].
  - intros [= <- ->]. by rewrite underscore_inside in Hd.
  - intros [= -> <-]. by rewrite underscore_inside in Hd'.
  - intros [= -> Heq]. destruct (IH f' Heq) as [-> ->]. done.
Qed.

Lemma chunk_id_of_pair file_id file_id' (i j : Z) :
  chunk_id_of file_id i = chunk_id_of file_id' j → file_id = file_id' ∧ i = j.
Proof.
  unfold chunk_id_of. intros Heq. apply (inj (String.app _)) in Heq.
  apply split_at_last_underscore in Heq as [-> Hp]; try apply pretty_no_underscore.
  split; [done|]. by apply (inj pretty).
Qed.

(** X30. [chunk_id = chunk_<file_id>_<chunk_index>] names one chunk:
    two ids are equal exactly when the file ids and the indices are,
    whatever the file ids hold. So in a table whose rows carry ids made
    this way, the PRIMARY KEY refuses a new row exactly when
    UNIQUE(file_id, chunk_index) does. *)
Theorem chunk_ids_name_one_chunk file_id file_id' (i j : Z) :
  (chunk_id_of file_id i = chunk_id_of file_id' j ↔ file_id = file_id' ∧ i = j)
  ∧ ∀ db c,
      (∀ r, r ∈ chunks db → c_chunk_id r = chunk_id_of (c_file_id r) (c_chunk_index r)) →
      c_chunk_id c = chunk_id_of (c_file_id c) (c_chunk_index c) →
      (c_chunk_id c ∈ c_chunk_id <$> chunks db
       ↔ (c_file_id c, c_chunk_index c) ∈ chunk_keys db).
Proof.
  split.
  - split; [apply chunk_id_of_pair|by intros [-> ->]].
  - intros db c Hall Hc. unfold chunk_keys. rewrite !list_elem_of_fmap. split.
    + intros (r & Hid & Hr). exists r. split; [|done].
      rewrite Hc, (Hall r Hr) in Hid. apply chunk_id_of_pair in Hid as [-> ->]. done.
    + intros (r & [= Hf Hi] & Hr). exists r. split; [|done].
      by rewrite Hc, (Hall r Hr), Hf, Hi.
Qed.

(** *** The v1 upload *)

Lemma v1_send_chunks_outcome chunk_size sha256_hex no_such_table db tg pool file_id buffer now n :
  ∀ i,
    let '(r, db', tg') :=
      v1_send_chunks chunk_size sha256_hex no_such_table db tg pool file_id buffer now i n in
    db' = db
    ∧ match r with
      | Some response => status response = 400 ∨ status response = 500
      | None => n = 0%nat ∧ tg' = tg
      end.
Proof.
  destruct n as [|n]; intros i; simpl; [done|].
  destruct (select_bot pool i) as [bot|]; [|by split; [|right]].
  destruct (truthy (b_channel_id bot)) as [channel|]; [|by split; [|left]].
  destruct (Service.sendDocument _ _ _ _) as [[[mid tfid]|m] tg']; by split; [|right].
Qed.

(** X26. The v1 upload never stores a file. Whatever the request,
    [POST /api/v1/files/upload] answers 200, 400, 403, 404 or 500 and
    never 201, because its INSERT into [file_chunks] and its UPDATE of
    [files.status] name a table and a column the schema does not
    have; it writes no row of [chunks]; and it answers 200 only for
    content the owner already has, changing nothing. *)
Theorem v1_upload_never_answers_201 chunk_size atob sha256_hex no_such_table no_such_column
    db tg user_id can_write project_folder req env :
  let '(resp, db', tg') :=
    v1_upload chunk_size atob sha256_hex no_such_table no_such_column
      db tg user_id can_write project_folder req env in
  status resp ∈ [200; 400; 403; 404; 500]
  ∧ chunks db' = chunks db
  ∧ (status resp = 200 → db' = db ∧ tg' = tg
                         ∧ ∃ buffer, atob (v_file_data req) = Ok buffer
                                     ∧ is_Some (file_by_hash db user_id (sha256_hex buffer))).
Proof.
  assert (∀ z : Z, bool_decide (z ∈ [200; 400; 403; 404; 500]) = true →
                   z ∈ [200; 400; 403; 404; 500]) as Hmem
    by (intros z; apply bool_decide_eq_true_1).
  unfold v1_upload.
  destruct can_write; simpl; [|split_and!; [by apply Hmem|done|done]].
  case_bool_decide; [split_and!; [by apply Hmem|done|done]|].
  destruct (atob (v_file_data req)) as [buffer|m]; [|split_and!; [by apply Hmem|done|done]].
  destruct (file_by_hash db user_id (sha256_hex buffer)) as [existing|] eqn:Hex.
  { split_and!; [by apply Hmem|done|]. intros _. split_and!; try done.
    exists buffer. by rewrite Hex. }
  case_bool_decide; [split_and!; [by apply Hmem|done|done]|].
  destruct (match truthy (bound _) with Some _ => _ | None => false end);
    [split_and!; [by apply Hmem|done|done]|].
  unfold insert_file. case_bool_decide; [split_and!; [by apply Hmem|done|done]|].
  cbn [f_device_id references].
  match goal with |- context [v1_send_chunks ?a ?b ?c ?d ?e ?f ?g ?h ?i ?j ?k] =>
    pose proof (v1_send_chunks_outcome a b c d e f g h i k j) as Hloop;
    destruct (v1_send_chunks a b c d e f g h i j k) as [[[response|] db2] tg2]
  end.
  - destruct Hloop as [-> [Hs|Hs]]; rewrite Hs; split_and!; try done; by apply Hmem.
  - destruct Hloop as [-> _]. simpl. split_and!; [by apply Hmem|done|done].
Qed.

(** X27. What a v1 upload leaves behind. For new content that is not
    empty, with a first bot of the pool the Bot API accepts and no
    folder: the route inserts the file row, sends chunk 0 to the
    channel, and answers 500 when the INSERT into [file_chunks] is
    refused. The file row stays: the same upload again is answered
    200 with [duplicate: true] and that file id, and [GET /download]
    of the file answers 404 "File chunks not found". *)
Theorem v1_upload_leaves_unreadable_file chunk_size atob sha256_hex no_such_table
    no_such_column db tg user_id project_folder req env (P : bytes) bot channel :
  0 < chunk_size →
  v_file_name req ≠ "" → v_file_data req ≠ "" →
  atob (v_file_data req) = Ok P → P ≠ [] →
  file_by_hash db user_id (sha256_hex P) = None →
  select_bot (healthy_bots db user_id) 0 = Some bot →
  truthy (b_channel_id bot) = Some channel → channel ∈ tg_chats tg →
  is_Some (tg_users tg !! b_bot_token_enc bot) →
  truthy (v_folder_id req) = None → truthy (bound project_folder) = None →
  init_file_id env ∉ f_file_id <$> files db →
  init_file_id env ∉ c_file_id <$> chunks db →
  let upload := v1_upload chunk_size atob sha256_hex no_such_table no_such_column in
  ∃ row,
    let db1 := with_files db (files db ++ [row]) in
    let tg1 := (Service.post tg channel (Some (chunk_at chunk_size P 0))).2 in
    upload db tg user_id true project_folder req env = (v1_failed no_such_table, db1, tg1)
    ∧ f_file_id row = init_file_id env ∧ f_file_hash row = sha256_hex P
    ∧ (∀ env', upload db1 tg1 user_id true project_folder req env'
               = (v1_duplicate row, db1, tg1))
    ∧ download db1 tg1 user_id (init_file_id env)
      = (json 404 [("error", JStr "File chunks not found")], db1, tg1).
Proof.
  intros Hpos Hname Hdata Hdec HP Hnone Hsel Hch Hchat Huser Hf1 Hf2 Hfresh Hnochunk upload.
  assert (healthy_bots db user_id ≠ []) as Hpool.
  { intros Hnil. rewrite Hnil in Hsel. by vm_compute in Hsel. }
  assert (0 < chunk_count_of chunk_size (Z.of_nat (length P))) as Hcount.
  { apply ceil_div_pos; [done|]. destruct P; [done|simpl; lia]. }
  eexists. cbv zeta. split.
  { unfold upload, v1_upload. simpl negb. cbv iota.
    rewrite bool_decide_eq_false_2 by (intros [?|?]; done).
    rewrite Hdec, Hnone. rewrite bool_decide_eq_false_2 by done.
    rewrite Hf1, Hf2. cbv iota. unfold insert_file. cbn [f_file_id].
    rewrite bool_decide_eq_false_2 by done.
    cbn [f_device_id references].
    destruct (Z.to_nat (chunk_count_of chunk_size (Z.of_nat (length P)))) as [|n] eqn:Hn; [lia|].
    cbn [v1_send_chunks]. rewrite Hsel, Hch.
    rewrite sendDocument_live by done. reflexivity. }
  set (row := {| f_file_id := _ |}).
  set (db1 := with_files db (files db ++ [row])).
  set (tg1 := (Service.post tg channel (Some (chunk_at chunk_size P 0))).2).
  assert (file_by_hash db1 user_id (sha256_hex P) = Some row) as Hstored.
  { unfold file_by_hash, db1. simpl. rewrite filter_app.
    unfold file_by_hash in Hnone.
    destruct (filter _ (files db)) as [|x l] eqn:Hfilter; [|done].
    rewrite filter_cons_True by done. done. }
  split_and!; [done|done| |].
  - intros env'. unfold upload, v1_upload. simpl negb. cbv iota.
    rewrite bool_decide_eq_false_2 by (intros [?|?]; done).
    by rewrite Hdec, Hstored.
  - unfold download.
    assert (is_Some (live_file_of_user db1 (init_file_id env) user_id)) as [f ->].
    { apply (first_is_Some _ _ row); [|done]. unfold db1. simpl.
      apply elem_of_app. right. by left. }
    assert (available_chunks db1 (init_file_id env) = []) as ->.
    { unfold available_chunks. rewrite join_unfold. simpl. rewrite bind_none; [done|].
      intros c Hc. apply bind_none. intros b _.
      rewrite bool_decide_eq_false_2; [done|]. intros (_ & Hcid & _).
      apply Hnochunk. apply list_elem_of_fmap. by exists c. }
    rewrite bool_decide_eq_true_2 by done.
    unfold no_chunks_response, count_chunks. simpl. rewrite filter_none; [done|].
    intros c Hc Hcid. apply Hnochunk. apply list_elem_of_fmap. by exists c.
Qed.

Lemma pair3_eta {A B C} (p : A * B * C) : p = (p.1.1, p.1.2, p.2).
Proof. by destruct p as [[??]?]. Qed.

End RouteFacts.

(** *** Instances on the small deployment *)

Section Instances.
Import Example.

Lemma example_serves : Forall2 (serves tg_stored) (available_chunks db_stored fid) parts_of_P.
Proof.
  evaluate (available_chunks db_stored fid).
  repeat (constructor; [split; vm_compute; reflexivity|]).
  constructor.
Defined.

Lemma example_fetches :
  Forall2 (fetches tg_stored) (available_chunks db_stored fid) (split_chunks 4 P).
Proof.
  evaluate (available_chunks db_stored fid).
  evaluate (split_chunks 4 P).
  repeat (constructor; [split; vm_compute; reflexivity|]).
  constructor.
Defined.

Lemma text_plain_value : forbidden_free (octet_stream (f_mime_type the_file)) = true.
Proof. vm_compute; reflexivity. Qed.

Lemma notes_txt_value : forbidden_free (f_file_name the_file) = true.
Proof. vm_compute; reflexivity. Qed.

Lemma stored_records : chunk_records db_stored fid (available_chunks db_stored fid).
Proof. split; vm_compute; reflexivity. Qed.

(** The table of the shuffled upload holds chunk 1 before chunk 0. *)
Lemma shuffled_table : c_chunk_index <$> chunks db_shuffled = [1; 0; 2].
Proof. vm_compute; reflexivity. Qed.

Lemma shuffled_records : chunk_records db_shuffled fid shuffled_rows.
Proof.
  split; [|vm_compute; reflexivity].
  evaluate (join_active_bots db_shuffled fid). apply perm_swap.
Qed.

Lemma shuffled_serves : Forall2 (serves tg_shuffled) shuffled_rows parts_of_P.
Proof.
  repeat (constructor; [split; vm_compute; reflexivity|]).
  constructor.
Qed.

Lemma shuffled_fetches : Forall2 (fetches tg_shuffled) shuffled_rows (split_chunks 4 P).
Proof.
  evaluate (split_chunks 4 P).
  repeat (constructor; [split; vm_compute; reflexivity|]).
  constructor.
Qed.

Lemma range_read_correct_witness :
  (live_file_of_user db_shuffled fid alice = Some the_file
   ∧ f_file_size the_file = Z.of_nat (length (concat parts_of_P))
   ∧ f_file_size the_file ≤ MAX_SAFE_INTEGER
   ∧ forbidden_free (octet_stream (f_mime_type the_file)) = true
   ∧ chunk_records db_shuffled fid shuffled_rows
   ∧ Forall2 (serves tg_shuffled) shuffled_rows parts_of_P
   ∧ 0 ≤ 2 ∧ 2 ≤ 5 ∧ 5 < Z.of_nat (length (concat parts_of_P))
   ∧ no_cache (getCacheKey fid 0 (Some (2, 5))) = None)
  ∧ available_chunks db_shuffled fid = shuffled_rows
  ∧ stream db_shuffled tg_shuffled no_cache alice fid (Some "bytes=2-5")
    = {| status := 206;
         headers := [("Content-Type", "text/plain");
                     ("Content-Range", "bytes 2-5/10");
                     ("Accept-Ranges", "bytes");
                     ("Content-Length", "4")];
         body := BBytes (String.list_byte_of_string "cdef") |}.
Proof.
  assert (live_file_of_user db_shuffled fid alice = Some the_file) as H1
    by (vm_compute; reflexivity).
  assert (f_file_size the_file = Z.of_nat (length (concat parts_of_P))) as H2
    by (vm_compute; reflexivity).
  assert (f_file_size the_file ≤ MAX_SAFE_INTEGER) as H3 by (vm_compute; discriminate).
  assert (no_cache (getCacheKey fid 0 (Some (2, 5))) = None) as H6 by reflexivity.
  assert (0 ≤ 2) as H7 by lia.
  assert (2 ≤ 5) as H8 by lia.
  assert (5 < Z.of_nat (length (concat parts_of_P))) as H9 by (vm_compute; reflexivity).
  pose proof (range_read_correct db_shuffled tg_shuffled no_cache alice fid the_file
                shuffled_rows parts_of_P 2 5 H1 H2 H3 text_plain_value shuffled_records
                shuffled_serves H7 H8 H9 H6) as Hthm.
  cbv zeta in Hthm. destruct Hthm as (Hrows & _ & _ & Hstream & _).
  split.
  { exact (conj H1 (conj H2 (conj H3 (conj text_plain_value (conj shuffled_records
             (conj shuffled_serves (conj H7 (conj H8 (conj H9 H6))))))))). }
  split; [exact Hrows|exact Hstream].
Defined.

Lemma split_download_round_trip_witness :
  (0 < 4
   ∧ P ≠ []
   ∧ live_file_of_user db_shuffled fid alice = Some the_file
   ∧ forbidden_free (octet_stream (f_mime_type the_file)) = true
   ∧ forbidden_free (f_file_name the_file) = true
   ∧ chunk_records db_shuffled fid shuffled_rows
   ∧ Forall2 (fetches tg_shuffled) shuffled_rows (split_chunks 4 P))
  ∧ Z.of_nat (length (split_chunks 4 P)) = chunk_count_of 4 (Z.of_nat (length P))
  ∧ concat (split_chunks 4 P) = P
  ∧ available_chunks db_shuffled fid = shuffled_rows
  ∧ download db_shuffled tg_shuffled alice fid
    = (download_ok the_file P, db_shuffled, tg_shuffled).
Proof.
  assert (0 < 4) as H0 by lia.
  assert (P ≠ []) as HP by discriminate.
  assert (live_file_of_user db_shuffled fid alice = Some the_file) as H1
    by (vm_compute; reflexivity).
  pose proof (split_download_round_trip 4 P H0) as Hthm. cbv zeta in Hthm.
  destruct Hthm as (Hcount & _ & Hcat & _ & _ & Hdownload).
  split.
  { exact (conj H0 (conj HP (conj H1 (conj text_plain_value (conj notes_txt_value
             (conj shuffled_records shuffled_fetches)))))). }
  split; [exact Hcount|]. split; [exact Hcat|].
  exact (Hdownload db_shuffled tg_shuffled alice fid the_file shuffled_rows HP H1
           text_plain_value notes_txt_value shuffled_records shuffled_fetches).
Defined.

Lemma init_twice_is_duplicate_witness :
  (upload_init 4 db0 alice (init_req 10) env0 = (after_init.1, after_init.2)
   ∧ status after_init.1 = 200
   ∧ i_file_hash (init_req 77) = i_file_hash (init_req 10)
   ∧ i_file_name (init_req 77) ≠ ""
   ∧ i_file_size (init_req 77) ≠ 0)
  ∧ upload_init 4 after_init.2 alice (init_req 77) env1
    = (duplicate_reply fid, after_init.2).
Proof.
  assert (upload_init 4 db0 alice (init_req 10) env0 = (after_init.1, after_init.2)) as H1
    by (vm_compute; reflexivity).
  assert (status after_init.1 = 200) as H2 by (vm_compute; reflexivity).
  assert (i_file_hash (init_req 77) = i_file_hash (init_req 10)) as H3 by reflexivity.
  assert (i_file_name (init_req 77) ≠ "") as H4 by discriminate.
  assert (i_file_size (init_req 77) ≠ 0) as H5 by discriminate.
  split; [exact (conj H1 (conj H2 (conj H3 (conj H4 H5))))|].
  exact (proj1 (init_twice_is_duplicate 4 db0 alice (init_req 10) env0 _ _ H1 H2
                  (init_req 77) env1 H3 H4 H5)).
Defined.

Lemma backend_selection_deterministic_witness :
  (q_chunk_index (chunk_req 1 "efgh") = Some 1
   ∧ 0 ≤ 1
   ∧ healthy_bots after_init.2 alice ≠ [])
  ∧ healthy_bots after_init.2 alice = [bot1; bot2]
  ∧ ∃ bot, select_bot (healthy_bots after_init.2 alice) 1 = Some bot
           ∧ healthy_bots after_init.2 alice
               !! Z.to_nat (1 `mod` Z.of_nat (length (healthy_bots after_init.2 alice)))
             = Some bot.
Proof.
  assert (q_chunk_index (chunk_req 1 "efgh") = Some 1) as H1 by reflexivity.
  assert (0 ≤ 1) as H2 by lia.
  assert (healthy_bots after_init.2 alice ≠ []) as H3 by (vm_compute; discriminate).
  pose proof (backend_selection_deterministic raw_atob after_init.2 tg0 alice
                (chunk_req 1 "efgh") env0 1 H1 H2) as Hthm.
  cbv zeta in Hthm. destruct Hthm as (_ & _ & Hselect & _).
  split; [done|]. split; [vm_compute; reflexivity|].
  exact (Hselect H3).
Defined.


Lemma chunk_upload_rerun_refused_witness :
  (upload_chunk raw_atob after_init.2 tg0 alice (chunk_req 0 "abcd") env0
   = (after_chunk0.1.1, after_chunk0.1.2, after_chunk0.2)
   ∧ status after_chunk0.1.1 = 200
   ∧ q_chunk_hash (chunk_req 0 "abcd") ≠ "")
  ∧ ∃ tg2 i row message,
      q_chunk_index (chunk_req 0 "abcd") = Some i
      ∧ upload_chunk raw_atob after_chunk0.1.2 after_chunk0.2 alice (chunk_req 0 "abcd") env1
        = (json 500 [("error", JStr "Failed to upload chunk"); ("message", JStr message)],
           after_chunk0.1.2, tg2)
      ∧ chunks after_chunk0.1.2 = chunks after_init.2 ++ [row]
      ∧ rows_at after_chunk0.1.2 fid i = [row].
Proof.
  assert (upload_chunk raw_atob after_init.2 tg0 alice (chunk_req 0 "abcd") env0
          = (after_chunk0.1.1, after_chunk0.1.2, after_chunk0.2)) as H1
    by (vm_compute; reflexivity).
  assert (status after_chunk0.1.1 = 200) as H2 by (vm_compute; reflexivity).
  assert (q_chunk_hash (chunk_req 0 "abcd") ≠ "") as H3 by discriminate.
  split; [exact (conj H1 (conj H2 H3))|].
  exact (chunk_upload_rerun_refused raw_atob after_init.2 tg0 alice (chunk_req 0 "abcd")
           env0 _ _ _ H1 H2 (chunk_req 0 "abcd") env1 eq_refl eq_refl eq_refl H3).
Defined.

Lemma stored_file_reads_back_witness :
  ∃ db' tg' file,
    Client.uploadToInfiniDrive 4 raw_atob (λ _, env0) raw_btoa digest db0 tg0 alice P
      "notes.txt" "text/plain" env0 env1 = (Ok (), db', tg')
    ∧ live_file_of_user db' fid alice = Some file
    ∧ download db' tg' alice fid = (download_ok file P, db', tg').
Proof.
  assert (∀ b, raw_atob (raw_btoa b) = Ok b) as Hdecode.
  { intros b. unfold raw_atob, raw_btoa. by rewrite Strings.String.list_byte_of_string_of_list_byte. }
  assert (∀ b : bytes, b ≠ [] → raw_btoa b ≠ "") as Hbtoa by (by intros [|x b]).
  assert (∀ b, digest b ≠ "") as Hdigest by done.
  assert (Forall (usable tg0) (healthy_bots db0 alice)) as Husable.
  { evaluate (healthy_bots db0 alice).
    repeat (constructor;
            [split; [reflexivity|]; split; eexists; (split; [reflexivity|]);
             [reflexivity|vm_compute; set_solver]|]).
    constructor. }
  assert (P ≠ []) as H1 by discriminate.
  assert ("notes.txt" ≠ "") as H2 by discriminate.
  assert (forbidden_free "notes.txt" = true) as H3 by (vm_compute; reflexivity).
  assert (forbidden_free (octet_stream (Some "text/plain")) = true) as H4
    by (vm_compute; reflexivity).
  assert (chunk_count_of 4 (Z.of_nat (length P)) ≤ MAX_ARRAY_LENGTH) as H5
    by (vm_compute; discriminate).
  assert (healthy_bots db0 alice ≠ []) as H6 by (vm_compute; discriminate).
  assert (NoDup (b_bot_id <$> bots db0)) as H7
    by (apply (bool_decide_unpack _); vm_compute; reflexivity).
  assert (file_by_hash db0 alice (digest P) = None) as H8 by reflexivity.
  assert (init_file_id env0 ∉ f_file_id <$> files db0) as H9 by apply not_elem_of_nil.
  assert (∀ c, c ∈ chunks db0 → c_file_id c ≠ init_file_id env0) as H10.
  { intros c Hc. by apply elem_of_nil in Hc. }
  assert (∀ c j, c ∈ chunks db0 → c_chunk_id c ≠ chunk_id_of (init_file_id env0) j) as H11.
  { intros c j Hc. by apply elem_of_nil in Hc. }
  exact (stored_file_reads_back raw_atob raw_btoa Hdecode Hbtoa (λ _, env0) digest Hdigest
           4 ltac:(lia) db0 tg0 alice P "notes.txt" "text/plain" env0 env1
           H1 H2 H3 H4 H5 H6 Husable H7 H8 H9 H10 H11).
Defined.

Lemma client_refuses_stored_payload_witness :
  Client.uploadToInfiniDrive 4 raw_atob (λ _, env0) raw_btoa (λ _, "c0ffee")
    db_stored tg_stored alice P "notes.txt" "text/plain" env1 env1
  = (Throw "Upload init failed", db_stored, tg_stored).
Proof.
  assert ("notes.txt" ≠ "") as H1 by discriminate.
  assert (P ≠ []) as H2 by discriminate.
  assert ("c0ffee" ≠ "") as H3 by discriminate.
  assert (file_by_hash db_stored alice "c0ffee" = Some the_file) as H4
    by (vm_compute; reflexivity).
  exact (proj2 (client_refuses_stored_payload 4 raw_atob (λ _, env0) raw_btoa (λ _, "c0ffee")
                  db_stored tg_stored alice P "notes.txt" "text/plain" env1 env1 the_file
                  H1 H2 H3 H4)).
Defined.


Lemma stream_whole_file_witness :
  available_chunks db_shuffled fid = shuffled_rows
  ∧ stream db_shuffled tg_shuffled no_cache alice fid None
    = {| status := 200;
         headers := [("Content-Type", "text/plain");
                     ("Content-Length", "10");
                     ("Accept-Ranges", "bytes")];
         body := BBytes P |}.
Proof.
  assert (live_file_of_user db_shuffled fid alice = Some the_file) as H1
    by (vm_compute; reflexivity).
  assert (parts_of_P ≠ []) as H2 by discriminate.
  assert (no_cache (getCacheKey fid 0 None) = None) as H3 by reflexivity.
  exact (stream_whole_file db_shuffled tg_shuffled no_cache alice fid the_file shuffled_rows
           parts_of_P None H1 text_plain_value shuffled_records shuffled_serves H2
           (or_introl eq_refl) H3).
Defined.

Lemma unsatisfiable_range_is_answered_empty_witness :
  stream db_stored tg_stored no_cache alice fid (Some "bytes=50-60")
  = {| status := 206;
       headers := [("Content-Type", "text/plain");
                   ("Content-Range", "bytes 50-9/10");
                   ("Accept-Ranges", "bytes");
                   ("Content-Length", "0")];
       body := BBytes [] |}
  ∧ stream db_stored tg_stored no_cache alice fid (Some "bytes=5-2")
    = {| status := 206;
         headers := [("Content-Type", "text/plain");
                     ("Content-Range", "bytes 5-2/10");
                     ("Accept-Ranges", "bytes");
                     ("Content-Length", "0")];
         body := BBytes [] |}.
Proof.
  assert (live_file_of_user db_stored fid alice = Some the_file) as H1
    by (vm_compute; reflexivity).
  assert (parts_of_P ≠ []) as H2 by discriminate.
  assert (0 ≤ 50 ≤ MAX_SAFE_INTEGER) as H3 by (split; vm_compute; discriminate).
  assert (0 ≤ 60 ≤ MAX_SAFE_INTEGER) as H4 by (split; vm_compute; discriminate).
  assert (0 ≤ f_file_size the_file ≤ MAX_SAFE_INTEGER) as Hsize
    by (split; vm_compute; discriminate).
  assert (no_cache (getCacheKey fid 0 (Some (50, Z.min 60 (f_file_size the_file - 1)))) = None)
    as H5 by reflexivity.
  assert (Z.min 60 (f_file_size the_file - 1) < 50) as H6 by (vm_compute; reflexivity).
  assert (0 ≤ 5 ≤ MAX_SAFE_INTEGER) as H7 by (split; vm_compute; discriminate).
  assert (0 ≤ 2 ≤ MAX_SAFE_INTEGER) as H8 by (split; vm_compute; discriminate).
  assert (no_cache (getCacheKey fid 0 (Some (5, Z.min 2 (f_file_size the_file - 1)))) = None)
    as H9 by reflexivity.
  assert (Z.min 2 (f_file_size the_file - 1) < 5) as H10 by (vm_compute; reflexivity).
  exact (conj
           (unsatisfiable_range_is_answered_empty db_stored tg_stored no_cache alice fid
              the_file 50 60 parts_of_P H1 text_plain_value example_serves H2 H3 H4 Hsize
              H5 H6)
           (unsatisfiable_range_is_answered_empty db_stored tg_stored no_cache alice fid
              the_file 5 2 parts_of_P H1 text_plain_value example_serves H2 H7 H8 Hsize
              H9 H10)).
Defined.

Lemma cache_keys_tell_ranges_apart_witness :
  (getCacheKey fid 0 (Some (2, 5)) = getCacheKey fid 0 (Some (2, 5)) → 2 = 2 ∧ 5 = 5)
  ∧ getCacheKey fid 0 (Some (2, 5)) ≠ getCacheKey fid 0 None.
Proof.
  assert (0 ≤ 2) as H1 by lia.
  exact (cache_keys_tell_ranges_apart fid 0 2 5 2 5 H1 H1).
Defined.

Lemma complete_means_contiguous_witness :
  (NoDup (chunk_keys after_chunk2.1.2)
   ∧ upload_complete after_chunk2.1.2 alice fid env0 = after_complete
   ∧ status after_complete.1 = 200)
  ∧ stored_indices after_chunk2.1.2 fid ≡ₚ seqZ 0 3.
Proof.
  assert (NoDup (chunk_keys after_chunk2.1.2)) as H1
    by (apply (bool_decide_unpack _); vm_compute; reflexivity).
  assert (file_of_user after_chunk2.1.2 fid alice = Some the_file) as H2
    by (vm_compute; reflexivity).
  assert (∀ i, i ∈ stored_indices after_chunk2.1.2 fid → 0 ≤ i < f_chunk_count the_file) as H3.
  { apply Forall_forall. evaluate (stored_indices after_chunk2.1.2 fid).
    repeat (constructor; [simpl; lia|]). constructor. }
  assert (upload_complete after_chunk2.1.2 alice fid env0 = (after_complete.1, after_complete.2))
    as H4 by (vm_compute; reflexivity).
  assert (status after_complete.1 = 200) as H5 by (vm_compute; reflexivity).
  split; [split; [exact H1|split; [vm_compute; reflexivity|exact H5]]|].
  exact (complete_means_contiguous after_chunk2.1.2 alice fid env0 after_complete.1
           after_complete.2 the_file H1 H2 H3 H4 H5).
Defined.

Lemma announced_assignment_is_used_witness :
  ∃ bot, select_bot (healthy_bots db0 alice) 1 = Some bot
         ∧ bot_assignments (healthy_bots db0 alice) 3 !! Z.to_nat 1
           = Some (JObj [("chunk_index", JNum 1); ("bot_id", JStr (b_bot_id bot))])
         ∧ length (bot_assignments (healthy_bots db0 alice) 3) = Z.to_nat 3.
Proof.
  assert (healthy_bots db0 alice ≠ []) as H1 by (vm_compute; discriminate).
  assert (0 ≤ 1 < 3) as H2 by lia.
  exact (announced_assignment_is_used (healthy_bots db0 alice) 3 1 H1 H2).
Defined.

Lemma negative_size_completes_empty_witness :
  ∃ db1 db2,
    upload_init 4 db0 alice (init_req (-3)) env0
    = (init_reply fid 0 4 (healthy_bots db0 alice), db1)
    ∧ bot_assignments (healthy_bots db0 alice) 0 = []
    ∧ upload_complete db1 alice fid env1 = (complete_ok fid, db2)
    ∧ download db2 tg0 alice fid
      = (json 404 [("error", JStr "File chunks not found")], db2, tg0).
Proof.
  assert (0 < 4) as H1 by lia.
  assert (- 4 < i_file_size (init_req (-3)) < 0) as H2 by (simpl; lia).
  assert (i_file_name (init_req (-3)) ≠ "") as H3 by discriminate.
  assert (i_file_hash (init_req (-3)) ≠ "") as H4 by discriminate.
  assert (file_by_hash db0 alice (i_file_hash (init_req (-3))) = None) as H5 by reflexivity.
  assert (healthy_bots db0 alice ≠ []) as H6 by (vm_compute; discriminate).
  assert (truthy (i_folder_id (init_req (-3))) = None) as H7 by reflexivity.
  assert (references (truthy (i_device_id (init_req (-3)))) (devices db0) = true) as Hdev
    by reflexivity.
  assert (init_file_id env0 ∉ f_file_id <$> files db0) as H8 by apply not_elem_of_nil.
  assert (init_file_id env0 ∉ c_file_id <$> chunks db0) as H9 by apply not_elem_of_nil.
  exact (negative_size_completes_empty 4 db0 tg0 alice (init_req (-3)) env0 env1
           H1 H2 H3 H4 H5 H6 H7 Hdev H8 H9).
Defined.


Lemma deleted_file_is_gone_witness :
  let not_found := json 404 [("error", JStr "File not found")] in
  delete_file db_stored alice fid env1
  = (json 200 [("success", JBool true); ("message", JStr "File deleted")], db_deleted)
  ∧ chunks db_deleted = chunks db_stored ∧ bots db_deleted = bots db_stored
  ∧ f_file_id <$> files db_deleted = f_file_id <$> files db_stored
  ∧ download db_deleted tg_stored alice fid = (not_found, db_deleted, tg_stored)
  ∧ (∀ range, stream db_deleted tg_stored no_cache alice fid range = not_found)
  ∧ (∀ req env', update_file db_deleted alice fid req env' = (not_found, db_deleted))
  ∧ (∀ other u, other ≠ fid →
                live_file_of_user db_deleted other u = live_file_of_user db_stored other u).
Proof.
  assert (delete_file db_stored alice fid env1
          = (json 200 [("success", JBool true); ("message", JStr "File deleted")], db_deleted))
    as H1 by (vm_compute; reflexivity).
  assert (status (json 200 [("success", JBool true); ("message", JStr "File deleted")]) = 200)
    as H2 by reflexivity.
  exact (conj H1 (deleted_file_is_gone db_stored tg_stored no_cache alice fid env1 _ _ H1 H2)).
Defined.

Lemma delete_file_again_witness :
  delete_file db_deleted alice fid env1
  = (json 200 [("success", JBool true); ("message", JStr "File deleted")],
     mark_deleted db_stored fid (date_now env1 `div` 1000)).
Proof.
  assert (delete_file db_stored alice fid env1
          = (json 200 [("success", JBool true); ("message", JStr "File deleted")], db_deleted))
    as H1 by (vm_compute; reflexivity).
  assert (status (json 200 [("success", JBool true); ("message", JStr "File deleted")]) = 200)
    as H2 by reflexivity.
  exact (delete_file_again db_stored alice fid env1 env1 _ _ H1 H2).
Defined.

Lemma deleted_file_can_be_uploaded_again_witness :
  (upload_init 4 db_stored alice (init_req 10) env1).1 = duplicate_reply fid
  ∧ status (delete_file db_stored alice fid env1).1 = 200
  ∧ (upload_init 4 (delete_file db_stored alice fid env1).2 alice (init_req 10) env1).1
    = init_reply (init_file_id env1) (chunk_count_of 4 10) 4 (healthy_bots db_stored alice)
  ∧ upload_init 4 (delete_file db_stored alice fid env1).2 alice unknown_device_req env1
    = (json 500 [("error", JStr "Failed to initialize upload")],
       (delete_file db_stored alice fid env1).2).
Proof.
  assert (files db_stored = [the_file]) as Hfiles by (vm_compute; reflexivity).
  assert (well_formed (init_req 10)) as H1 by (by split_and!).
  assert (well_formed unknown_device_req) as H1' by (by split_and!).
  assert (file_by_hash db_stored alice (i_file_hash (init_req 10)) = Some the_file) as H2
    by (vm_compute; reflexivity).
  assert (∀ f, f ∈ files db_stored → f_user_id f = alice →
               f_file_hash f = i_file_hash (init_req 10) →
               f_is_deleted f = false → f_file_id f = f_file_id the_file) as H3.
  { intros f Hf _ _ _. rewrite Hfiles in Hf. by apply list_elem_of_singleton in Hf as ->. }
  assert (healthy_bots db_stored alice ≠ []) as H4 by (vm_compute; discriminate).
  assert (truthy (i_folder_id (init_req 10)) = None) as H5 by reflexivity.
  assert (references (truthy (i_device_id (init_req 10))) (devices db_stored) = true) as Hdev
    by reflexivity.
  assert (references (truthy (i_device_id unknown_device_req)) (devices db_stored) = false)
    as Hdev' by (vm_compute; reflexivity).
  assert (chunk_count_of 4 (i_file_size (init_req 10)) ≤ MAX_ARRAY_LENGTH) as Hcount
    by (vm_compute; discriminate).
  assert (init_file_id env1 ∉ f_file_id <$> files db_stored) as H6
    by (apply (bool_decide_unpack _); vm_compute; reflexivity).
  destruct (deleted_file_can_be_uploaded_again 4 db_stored alice (init_req 10) env1 env1
              the_file H1 H2 H3 H4 H5 H6) as (Hdup & Hdel & Hok & _).
  destruct (deleted_file_can_be_uploaded_again 4 db_stored alice unknown_device_req env1 env1
              the_file H1' H2 H3 H4 H5 H6) as (_ & _ & _ & Hno).
  split; [exact Hdup|]. split; [exact Hdel|]. split; [exact (Hok Hdev Hcount)|].
  exact (Hno Hdev').
Defined.

Lemma renamed_file_keeps_its_path_witness :
  let req := {| p_file_name := Value "minutes.txt"; p_folder_id := Undefined;
                p_file_path := Undefined; p_is_public := Undefined;
                p_public_title := Undefined; p_public_category := Undefined |} in
  ∃ db' file',
    update_file db_stored alice fid req env1 = (update_ok, db')
    ∧ live_file_of_user db' fid alice = Some file'
    ∧ f_file_name file' = "minutes.txt"
    ∧ f_file_path file' = f_file_path the_file
    ∧ f_folder_id file' = f_folder_id the_file
    ∧ f_updated_at file' = date_now env1 `div` 1000
    ∧ download db' tg_stored alice fid = (download_ok file' P, db', tg_stored).
Proof.
  assert (live_file_of_user db_stored fid alice = Some the_file) as H1
    by (vm_compute; reflexivity).
  assert (available_chunks db_stored fid ≠ []) as H2 by (vm_compute; discriminate).
  assert (forbidden_free "minutes.txt" = true) as H3 by (vm_compute; reflexivity).
  destruct (renamed_file_keeps_its_path db_stored alice fid the_file "minutes.txt" env1 H1)
    as (db' & file' & Hput & Hlive & Hname & Hpath & Hfolder & Hat & Hread).
  exists db', file'.
  split; [exact Hput|]. split; [exact Hlive|]. split; [exact Hname|].
  split; [exact Hpath|]. split; [exact Hfolder|]. split; [exact Hat|].
  exact (proj1 (Hread tg_stored (split_chunks 4 P) H2 example_fetches) text_plain_value H3).
Defined.

Lemma moved_file_gets_folder_path_witness :
  let req := {| p_file_name := Value ""; p_folder_id := Value "folder_1";
                p_file_path := Value "/elsewhere/notes.txt"; p_is_public := Undefined;
                p_public_title := Undefined; p_public_category := Undefined |} in
  ∃ db' file',
    update_file db_foldered alice fid req env1 = (update_ok, db')
    ∧ live_file_of_user db' fid alice = Some file'
    ∧ f_folder_id file' = Some "folder_1"
    ∧ f_file_name file' = ""
    ∧ f_file_path file' = "/Documents/notes.txt".
Proof.
  intros req.
  assert (live_file_of_user db_foldered fid alice = Some the_file) as H1
    by (vm_compute; reflexivity).
  assert ((p_folder_id req = Null ∧ Some "folder_1" = None ∧ "/Documents" = "")
          ∨ (∃ d folder, d ≠ "" ∧ folder_of_user db_foldered d alice = Some folder
                         ∧ p_folder_id req = Value d ∧ Some "folder_1" = Some d
                         ∧ "/Documents" = d_folder_path folder)) as H2.
  { right. exists "folder_1", documents. split_and!; try done. }
  assert (p_file_name req ≠ Null) as H3 by discriminate.
  exact (proj2 (moved_file_gets_folder_path db_foldered alice fid the_file req env1
                  (Some "folder_1") "/Documents" H1 H2) H3).
Defined.

Lemma chunks_on_idle_bots_are_unavailable_witness :
  download db_idle tg_stored alice fid = (bots_idle, db_idle, tg_stored)
  ∧ ∀ range, stream db_idle tg_stored no_cache alice fid range = bots_idle.
Proof.
  assert (live_file_of_user db_idle fid alice = Some the_file) as H1
    by (vm_compute; reflexivity).
  assert (∀ c b, c ∈ chunks db_idle → c_file_id c = fid → b ∈ bots db_idle →
                 b_bot_id b = c_bot_id c → b_is_active b = false ∨ b_channel_id b = None) as H2.
  { assert (Forall (λ b, b_is_active b = false) (bots db_idle)) as Hall.
    { evaluate (bots db_idle). repeat (constructor; [reflexivity|]). constructor. }
    intros c b _ _ Hb _. left. rewrite Forall_forall in Hall. by apply Hall. }
  exact (chunks_on_idle_bots_are_unavailable db_idle tg_stored no_cache alice fid the_file
           H1 H2).
Defined.


Lemma health_check_decides_pool_witness :
  ∃ db',
    bot_health db0 tg0 alice "bot_2" env1 = (health_reply "bot_2" healthy 1700000400, db')
    ∧ bot_of_user db' "bot_2" alice = Some (set_health healthy 1700000400 bot2)
    ∧ files db' = files db0 ∧ chunks db' = chunks db0
    ∧ ("bot_2" ∈ b_bot_id <$> healthy_bots db' alice
       ↔ b_is_active bot2 = true ∧ healthy = healthy)
    ∧ (∀ u b, b_bot_id b ≠ "bot_2" → b ∈ healthy_bots db' u ↔ b ∈ healthy_bots db0 u).
Proof.
  assert (bot_of_user db0 "bot_2" alice = Some bot2) as H1 by reflexivity.
  assert (NoDup (b_bot_id <$> bots db0)) as H2
    by (apply (bool_decide_unpack _); vm_compute; reflexivity).
  exact (health_check_decides_pool db0 tg0 alice "bot_2" bot2 env1 H1 H2).
Defined.

Lemma healthy_check_moves_bot_first_witness :
  (head (healthy_bots db0 alice) = Some bot1)
  ∧ head (healthy_bots (bot_health db0 tg0 alice "bot_2" env1).2 alice)
    = Some (set_health healthy 1700000400 bot2)
  ∧ select_bot (healthy_bots (bot_health db0 tg0 alice "bot_2" env1).2 alice) 0
    = Some (set_health healthy 1700000400 bot2).
Proof.
  assert (bot_of_user db0 "bot_2" alice = Some bot2) as H1 by reflexivity.
  assert (NoDup (b_bot_id <$> bots db0)) as H2
    by (apply (bool_decide_unpack _); vm_compute; reflexivity).
  assert (b_is_active bot2 = true) as H3 by reflexivity.
  assert (standing tg0 (b_bot_token_enc bot2) = healthy) as H4 by (vm_compute; reflexivity).
  assert (∀ b t, b ∈ healthy_bots db0 alice → b_bot_id b ≠ "bot_2" →
                 b_last_health_check b = Some t → t < date_now env1 `div` 1000) as H5.
  { assert (Forall (λ b, ∀ t, b_last_health_check b = Some t → t < date_now env1 `div` 1000)
              (healthy_bots db0 alice)) as Hall.
    { evaluate (healthy_bots db0 alice).
      repeat (constructor; [intros t [= <-]; reflexivity|]). constructor. }
    intros b t Hb _ Ht. rewrite Forall_forall in Hall. by apply (Hall b). }
  split; [vm_compute; reflexivity|].
  exact (healthy_check_moves_bot_first db0 tg0 alice "bot_2" bot2 env1 H1 H2 H3 H4 H5).
Defined.

Lemma configured_channel_enables_upload_witness :
  upload_chunk raw_atob db_bare tg0 alice (chunk_req 0 "abcd") env0
  = (json 400 [("error", JStr "Bot channel not configured")], db_bare, tg0)
  ∧ ∃ db1,
      bot_channel db_bare alice "bot_1" (Some "-1001") = (channel_set "bot_1" "-1001", db1)
      ∧ ∃ resp db2 tg2 row,
          upload_chunk raw_atob db1 tg0 alice (chunk_req 0 "abcd") env0 = (resp, db2, tg2)
          ∧ status resp = 200
          ∧ chunks db2 = chunks db_bare ++ [row]
          ∧ c_bot_id row = "bot_1" ∧ c_channel_id row = "-1001"
          ∧ c_chunk_index row = 0.
Proof.
  assert (q_chunk_index (chunk_req 0 "abcd") = Some 0) as H1 by reflexivity.
  assert (q_file_id (chunk_req 0 "abcd") ≠ "" ∧ q_chunk_data (chunk_req 0 "abcd") ≠ ""
          ∧ q_chunk_hash (chunk_req 0 "abcd") ≠ "") as H2 by (by split_and!).
  assert (file_of_user db_bare (q_file_id (chunk_req 0 "abcd")) alice = Some the_file) as H3
    by (vm_compute; reflexivity).
  assert (0 ≤ 0 < f_chunk_count the_file) as H4 by (simpl; lia).
  assert (select_bot (healthy_bots db_bare alice) 0 = Some bot1_bare) as H5
    by (vm_compute; reflexivity).
  assert (truthy (b_channel_id bot1_bare) = None) as H6 by reflexivity.
  assert ("-1001" ≠ "") as H7 by discriminate.
  assert ("-1001" ∈ tg_chats tg0) as H8
    by (apply (bool_decide_unpack _); vm_compute; reflexivity).
  assert (is_Some (tg_users tg0 !! b_bot_token_enc bot1_bare)) as H9
    by (eexists; vm_compute; reflexivity).
  assert (raw_atob (q_chunk_data (chunk_req 0 "abcd")) = Ok (String.list_byte_of_string "abcd"))
    as H10 by reflexivity.
  assert (chunk_id_of (q_file_id (chunk_req 0 "abcd")) 0 ∉ c_chunk_id <$> chunks db_bare)
    as H11 by apply not_elem_of_nil.
  assert ((q_file_id (chunk_req 0 "abcd"), 0) ∉ chunk_keys db_bare) as H12
    by apply not_elem_of_nil.
  exact (configured_channel_enables_upload raw_atob db_bare tg0 alice (chunk_req 0 "abcd") env0
           0 the_file bot1_bare "-1001" (String.list_byte_of_string "abcd")
           H1 H2 H3 H4 H5 H6 H7 H8 H9 H10 H11 H12).
Defined.

Lemma serial_calls_spaced_witness :
  Throttle.run [Throttle.Enter 1 "111:AAA" 10000; Throttle.Enter 2 "111:AAA" 11000;
                Throttle.Wake 2 13000] = Some quiet3
  ∧ Throttle.sent_with "111:AAA" quiet3 = [10000; 13000]
  ∧ Throttle.spaced Throttle.RATE_LIMIT_MS (Throttle.sent_with "111:AAA" quiet3) = true.
Proof.
  assert (∀ e, Throttle.alone Throttle.initial e) as Hnone.
  { intros [id tok now|id now]; simpl; [|done]. intros id' s Hs.
    by rewrite lookup_empty in Hs. }
  assert (Throttle.serial quiet1 10000) as H1.
  { apply (Throttle.serial_step Throttle.initial 0 (Throttle.Enter 1 "111:AAA" 10000) quiet1
             Throttle.serial_initial); [simpl; lia|apply Hnone|vm_compute; reflexivity]. }
  assert (Throttle.serial quiet2 11000) as H2.
  { apply (Throttle.serial_step quiet1 10000 (Throttle.Enter 2 "111:AAA" 11000) quiet2 H1);
      [simpl; lia| |vm_compute; reflexivity].
    simpl. intros id s Hs. cbv in Hs. discriminate. }
  assert (Throttle.serial quiet3 13000) as H3.
  { apply (Throttle.serial_step quiet2 11000 (Throttle.Wake 2 13000) quiet3 H2);
      [simpl; lia|done|vm_compute; reflexivity]. }
  split; [vm_compute; reflexivity|]. split; [vm_compute; reflexivity|].
  exact (ThrottleFacts.serial_calls_spaced quiet3 13000 "111:AAA" H3).
Defined.

Lemma other_credentials_untouched_witness :
  Throttle.rateLimitMap quiet2 !! "222:BBB" = Throttle.rateLimitMap quiet1 !! "222:BBB"
  ∧ ∀ now, Throttle.waitTime (Throttle.rateLimitMap quiet2) "222:BBB" now
           = Throttle.waitTime (Throttle.rateLimitMap quiet1) "222:BBB" now.
Proof.
  assert (Throttle.step quiet1 (Throttle.Enter 2 "111:AAA" 11000) = Some quiet2) as H1
    by (vm_compute; reflexivity).
  assert (Throttle.credential quiet1 (Throttle.Enter 2 "111:AAA" 11000) ≠ Some "222:BBB") as H2
    by discriminate.
  exact (ThrottleFacts.other_credentials_untouched quiet1 (Throttle.Enter 2 "111:AAA" 11000)
           quiet2 "222:BBB" H1 H2).
Defined.

Lemma download_200_has_every_row_witness :
  ∃ file datas,
    live_file_of_user db_stored fid alice = Some file
    ∧ available_chunks db_stored fid ≠ []
    ∧ Fetched fid db_stored tg_stored (available_chunks db_stored fid) datas
        (download db_stored tg_stored alice fid).1.2 (download db_stored tg_stored alice fid).2
    ∧ (download db_stored tg_stored alice fid).1.1 = download_ok file (concat datas).
Proof.
  assert (status (download db_stored tg_stored alice fid).1.1 = 200) as H1
    by (vm_compute; reflexivity).
  exact (download_200_has_every_row db_stored tg_stored alice fid _ _ _
           (pair3_eta (download db_stored tg_stored alice fid)) H1).
Defined.

Lemma v1_upload_leaves_unreadable_file_witness :
  let upload := v1_upload 4 raw_atob digest no_table no_column in
  ∃ row,
    let db1 := with_files db0 (files db0 ++ [row]) in
    let tg1 := (Service.post tg0 "-1001" (Some (chunk_at 4 P 0))).2 in
    upload db0 tg0 alice true Undefined v1_req env0 = (v1_failed no_table, db1, tg1)
    ∧ f_file_id row = init_file_id env0 ∧ f_file_hash row = digest P
    ∧ (∀ env', upload db1 tg1 alice true Undefined v1_req env' = (v1_duplicate row, db1, tg1))
    ∧ download db1 tg1 alice (init_file_id env0)
      = (json 404 [("error", JStr "File chunks not found")], db1, tg1).
Proof.
  assert (0 < 4) as H1 by lia.
  assert (v_file_name v1_req ≠ "") as H2 by discriminate.
  assert (v_file_data v1_req ≠ "") as H3 by discriminate.
  assert (raw_atob (v_file_data v1_req) = Ok P) as H4 by reflexivity.
  assert (P ≠ []) as H5 by discriminate.
  assert (file_by_hash db0 alice (digest P) = None) as H6 by reflexivity.
  assert (select_bot (healthy_bots db0 alice) 0 = Some bot1) as H7 by (vm_compute; reflexivity).
  assert (truthy (b_channel_id bot1) = Some "-1001") as H8 by reflexivity.
  assert ("-1001" ∈ tg_chats tg0) as H9
    by (apply (bool_decide_unpack _); vm_compute; reflexivity).
  assert (is_Some (tg_users tg0 !! b_bot_token_enc bot1)) as H10
    by (eexists; vm_compute; reflexivity).
  assert (truthy (v_folder_id v1_req) = None) as H11 by reflexivity.
  assert (truthy (bound (Undefined : Field string)) = None) as H12 by reflexivity.
  assert (init_file_id env0 ∉ f_file_id <$> files db0) as H13 by apply not_elem_of_nil.
  assert (init_file_id env0 ∉ c_file_id <$> chunks db0) as H14 by apply not_elem_of_nil.
  exact (v1_upload_leaves_unreadable_file 4 raw_atob digest no_table no_column db0 tg0 alice
           Undefined v1_req env0 P bot1 "-1001"
           H1 H2 H3 H4 H5 H6 H7 H8 H9 H10 H11 H12 H13 H14).
Defined.

Lemma download_recovers_stale_chunks_witness :
  tg_files tg_stale !! "BQAC1" = None
  ∧ ∃ db' tg',
      available_chunks db_stored fid = available_chunks db_stored fid
      ∧ download db_stored tg_stale alice fid = (download_ok the_file (concat parts_of_P), db', tg')
      ∧ bots db' = bots db_stored ∧ files db' = files db_stored.
Proof.
  assert (live_file_of_user db_stored fid alice = Some the_file) as H1
    by (vm_compute; reflexivity).
  assert (∀ n : Z, n < tg_next tg_stale →
                   ∀ k, 0 ≤ k → "BQAC" +:+ pretty n ≠ "BQAC" +:+ pretty (tg_next tg_stale + k))
    as Hissued by (intros n Hn k Hk; by apply issued_before).
  assert (Forall2 (recoverable tg_stale) (available_chunks db_stored fid) parts_of_P) as H2.
  { evaluate (available_chunks db_stored fid).
    constructor; [|constructor; [|constructor; [|constructor]]].
    - split_and!.
      + vm_compute; reflexivity.
      + eexists; split; vm_compute; reflexivity.
      + discriminate.
      + apply (bool_decide_unpack _); vm_compute; reflexivity.
      + discriminate.
      + vm_compute; reflexivity.
      + vm_compute; reflexivity.
      + discriminate.
      + intros k Hk. apply (Hissued 1); [vm_compute; reflexivity|done].
      + left. vm_compute. reflexivity.
    - split_and!.
      + vm_compute; reflexivity.
      + eexists; split; vm_compute; reflexivity.
      + discriminate.
      + apply (bool_decide_unpack _); vm_compute; reflexivity.
      + discriminate.
      + vm_compute; reflexivity.
      + vm_compute; reflexivity.
      + discriminate.
      + intros k Hk. apply (Hissued 2); [vm_compute; reflexivity|done].
      + right. vm_compute. reflexivity.
    - split_and!.
      + vm_compute; reflexivity.
      + eexists; split; vm_compute; reflexivity.
      + discriminate.
      + apply (bool_decide_unpack _); vm_compute; reflexivity.
      + discriminate.
      + vm_compute; reflexivity.
      + vm_compute; reflexivity.
      + discriminate.
      + intros k Hk. apply (Hissued 3); [vm_compute; reflexivity|done].
      + right. vm_compute. reflexivity. }
  assert (parts_of_P ≠ []) as H3 by discriminate.
  split; [vm_compute; reflexivity|].
  exact (download_recovers_stale_chunks db_stored tg_stale alice fid the_file
           (available_chunks db_stored fid) parts_of_P
           H1 text_plain_value notes_txt_value stored_records H2 H3).
Defined.

End Instances.
